(** * TinkerTech cat toy: the control sketch [TTCatToy.ino]

    A shallow embedding of the sketch's mode state machine and of its three
    behaviours, followed by the properties of the design document that the
    sketch is checked against, and by further properties of the code: of
    [setup], of the button monitor, of the passes of the loop and of the
    timing of Autonomous mode.

    The sketch runs on an AVR board (the servo library drives pins 9 and 10
    of the 16-bit timer): [int] is 16 bits wide and [long] 32 bits.  Integers
    are values of [Z]; every conversion to a machine type is written out. *)

From Stdlib Require Import ZArith List Bool String Lia.
Import ListNotations.
Local Open Scope Z_scope.

(** ** Machine integers *)

(** Signed two's-complement value of width [w]. *)
Definition wrap_signed (w : Z) (z : Z) : Z :=
  (z + 2 ^ (w - 1)) mod 2 ^ w - 2 ^ (w - 1).

Definition to_int (z : Z) : Z := wrap_signed 16 z.
Definition to_long (z : Z) : Z := wrap_signed 32 z.
Definition to_ulong (z : Z) : Z := z mod 2 ^ 32.
Definition to_uint16 (z : Z) : Z := z mod 2 ^ 16.
Definition to_uint8 (z : Z) : Z := z mod 2 ^ 8.

(** ** The Arduino core functions the sketch calls

    These belong to the platform, not to the sketch: [map], [random] and the
    [abs] macro are transcribed from the Arduino core ([WMath.cpp],
    [Arduino.h]). *)

Module Arduino.

(** [long map(long x, long in_min, long in_max, long out_min, long out_max)
    { return (x - in_min) * (out_max - out_min) / (in_max - in_min) + out_min; }]
    C division truncates towards zero. *)
Definition map (x in_min in_max out_min out_max : Z) : Z :=
  to_long
    (to_long (to_long (to_long (x - in_min) * to_long (out_max - out_min))
              ÷ to_long (in_max - in_min))
     + out_min).

(** [#define abs(x) ((x)>0?(x):-(x))], at type [int]. *)
Definition abs (x : Z) : Z := if x >? 0 then x else to_int (- x).

(** [long random(long howbig)]: [if (howbig == 0) return 0;
    return random() % howbig;], on the raw draw [raw] of the C library. *)
Definition random_upto (raw howbig : Z) : Z := Z.rem raw howbig.

(** The C library's [random()] returns a value of [0 .. RANDOM_MAX]. *)
Definition RANDOM_MAX : Z := 2147483647.

End Arduino.

(** ** Constants of the sketch *)

Definition LED_COUNT : Z := 16.

Definition MODE_NORMAL : Z := 0.
Definition MODE_AUTO : Z := 1.
Definition MODE_LED : Z := 2.

Definition BUTTON : Z := 12.
Definition LED : Z := 6.
Definition LASER : Z := 5.

(** The two analog inputs; the board header gives [A0] and [A1] their
    numbers, the sketch only names them. *)
Inductive AnalogPin : Type := PAN_POT | TILT_POT.

Definition MIN_PAN : Z := 23.
Definition MAX_PAN : Z := 150.
Definition MIN_TILT : Z := 2.
Definition MAX_TILT : Z := 37.

Definition POSITION_DEBUG : bool := true.

(** The one-character string written as a newline escape in the sketch. *)
Definition newline : string := String (Ascii.ascii_of_nat 10) EmptyString.

(** ** Calls into the external collaborators

    Every call of the sketch into a driver is recorded, in order, with its
    arguments. *)

(** A colour handed to the light ring: either [strip.Color(r, g, b)] or
    [strip.gamma32(strip.ColorHSV(hue, sat, val))], whose parameters are
    [uint16_t hue, uint8_t sat, uint8_t val]. *)
Inductive Color : Type :=
| Color_rgb (r g b : Z)
| gamma32_ColorHSV (hue sat val : Z).

Inductive Event : Type :=
| Serial_print (s : string)
| Serial_print_int (z : Z)
| Serial_println (s : string)
| Serial_println_int (z : Z)
| digitalWrite (pin : Z) (high : bool)
| analogWrite (pin : Z) (value : Z)
| pan_write (angle : Z)
| tilt_write (angle : Z)
| strip_setPixelColor (i : Z) (c : Color)
| strip_show
| delay (ms : Z).

(** ** Program state *)

(** The function-local statics of [runAutoMode]. *)
Record AutoStatics : Type := mkAuto {
  rapid_mode : bool;
  last_move : Z;
  move_interval : Z;
  rapid_move_max : Z;
  normal_move_max : Z;
  cur_rapid_moves : Z;
  cur_normal_moves : Z
}.

(** Globals, function-local statics, the readings the board will deliver
    (one queue per source, oldest first; [millis_in] holds the successive
    values of [millis()], an [unsigned long]) and the calls made so far. *)
Record World : Type := mkWorld {
  (* globals *)
  tilt_pos : Z;
  pan_pos : Z;
  run_mode : Z;
  laser_brightness : Z;
  (* statics of checkButton; last_button_check is set by the first call *)
  button_was_pressed : bool;
  last_button_check : option Z;
  (* statics of runAutoMode, set by the first call *)
  auto_statics : option AutoStatics;
  (* statics of updateServos *)
  old_pan_pos : Z;
  old_tilt_pos : Z;
  (* inputs *)
  millis_in : list Z;
  button_in : list bool;      (* digitalRead(BUTTON): true is HIGH *)
  pan_pot_in : list Z;
  tilt_pot_in : list Z;
  random_in : list Z;         (* raw draws of the C library's random() *)
  (* calls into the drivers, oldest first *)
  out : list Event
}.

Definition set_tilt_pos (v : Z) (w : World) : World :=
  mkWorld v (pan_pos w) (run_mode w) (laser_brightness w)
    (button_was_pressed w) (last_button_check w) (auto_statics w)
    (old_pan_pos w) (old_tilt_pos w)
    (millis_in w) (button_in w) (pan_pot_in w) (tilt_pot_in w) (random_in w) (out w).

Definition set_pan_pos (v : Z) (w : World) : World :=
  mkWorld (tilt_pos w) v (run_mode w) (laser_brightness w)
    (button_was_pressed w) (last_button_check w) (auto_statics w)
    (old_pan_pos w) (old_tilt_pos w)
    (millis_in w) (button_in w) (pan_pot_in w) (tilt_pot_in w) (random_in w) (out w).

Definition set_run_mode (v : Z) (w : World) : World :=
  mkWorld (tilt_pos w) (pan_pos w) v (laser_brightness w)
    (button_was_pressed w) (last_button_check w) (auto_statics w)
    (old_pan_pos w) (old_tilt_pos w)
    (millis_in w) (button_in w) (pan_pot_in w) (tilt_pot_in w) (random_in w) (out w).

Definition set_button_was_pressed (v : bool) (w : World) : World :=
  mkWorld (tilt_pos w) (pan_pos w) (run_mode w) (laser_brightness w)
    v (last_button_check w) (auto_statics w)
    (old_pan_pos w) (old_tilt_pos w)
    (millis_in w) (button_in w) (pan_pot_in w) (tilt_pot_in w) (random_in w) (out w).

Definition set_last_button_check (v : option Z) (w : World) : World :=
  mkWorld (tilt_pos w) (pan_pos w) (run_mode w) (laser_brightness w)
    (button_was_pressed w) v (auto_statics w)
    (old_pan_pos w) (old_tilt_pos w)
    (millis_in w) (button_in w) (pan_pot_in w) (tilt_pot_in w) (random_in w) (out w).

Definition set_auto_statics (v : option AutoStatics) (w : World) : World :=
  mkWorld (tilt_pos w) (pan_pos w) (run_mode w) (laser_brightness w)
    (button_was_pressed w) (last_button_check w) v
    (old_pan_pos w) (old_tilt_pos w)
    (millis_in w) (button_in w) (pan_pot_in w) (tilt_pot_in w) (random_in w) (out w).

Definition set_millis_in (v : list Z) (w : World) : World :=
  mkWorld (tilt_pos w) (pan_pos w) (run_mode w) (laser_brightness w)
    (button_was_pressed w) (last_button_check w) (auto_statics w)
    (old_pan_pos w) (old_tilt_pos w)
    v (button_in w) (pan_pot_in w) (tilt_pot_in w) (random_in w) (out w).

Definition set_button_in (v : list bool) (w : World) : World :=
  mkWorld (tilt_pos w) (pan_pos w) (run_mode w) (laser_brightness w)
    (button_was_pressed w) (last_button_check w) (auto_statics w)
    (old_pan_pos w) (old_tilt_pos w)
    (millis_in w) v (pan_pot_in w) (tilt_pot_in w) (random_in w) (out w).

Definition set_pan_pot_in (v : list Z) (w : World) : World :=
  mkWorld (tilt_pos w) (pan_pos w) (run_mode w) (laser_brightness w)
    (button_was_pressed w) (last_button_check w) (auto_statics w)
    (old_pan_pos w) (old_tilt_pos w)
    (millis_in w) (button_in w) v (tilt_pot_in w) (random_in w) (out w).

Definition set_tilt_pot_in (v : list Z) (w : World) : World :=
  mkWorld (tilt_pos w) (pan_pos w) (run_mode w) (laser_brightness w)
    (button_was_pressed w) (last_button_check w) (auto_statics w)
    (old_pan_pos w) (old_tilt_pos w)
    (millis_in w) (button_in w) (pan_pot_in w) v (random_in w) (out w).

Definition set_random_in (v : list Z) (w : World) : World :=
  mkWorld (tilt_pos w) (pan_pos w) (run_mode w) (laser_brightness w)
    (button_was_pressed w) (last_button_check w) (auto_statics w)
    (old_pan_pos w) (old_tilt_pos w)
    (millis_in w) (button_in w) (pan_pot_in w) (tilt_pot_in w) v (out w).

Definition set_out (v : list Event) (w : World) : World :=
  mkWorld (tilt_pos w) (pan_pos w) (run_mode w) (laser_brightness w)
    (button_was_pressed w) (last_button_check w) (auto_statics w)
    (old_pan_pos w) (old_tilt_pos w)
    (millis_in w) (button_in w) (pan_pot_in w) (tilt_pot_in w) (random_in w) v.

(** ** The monad of the sketch: state, with failure when an input queue is
    empty (the board has nothing more to deliver). *)

Definition M (A : Type) : Type := World -> option (A * World).

Definition ret {A} (a : A) : M A := fun w => Some (a, w).

Definition bind {A B} (c : M A) (k : A -> M B) : M B :=
  fun w => match c w with
           | Some (a, w') => k a w'
           | None => None
           end.

Notation "x <- c ;; k" := (bind c (fun x => k))
  (at level 61, c at next level, right associativity).
Notation "c ;; k" := (bind c (fun _ => k))
  (at level 61, right associativity).

Definition gets {A} (f : World -> A) : M A := fun w => Some (f w, w).
Definition modify (f : World -> World) : M unit := fun w => Some (tt, f w).
Definition emit (e : Event) : M unit := modify (fun w => set_out (out w ++ [e]) w).
Definition when (b : bool) (c : M unit) : M unit := if b then c else ret tt.

(** *** Readings *)

Definition millis : M Z := fun w =>
  match millis_in w with
  | t :: rest => Some (t, set_millis_in rest w)
  | [] => None
  end.

(** [digitalRead(BUTTON)]. *)
Definition digitalRead_BUTTON : M bool := fun w =>
  match button_in w with
  | b :: rest => Some (b, set_button_in rest w)
  | [] => None
  end.

Definition analogRead (p : AnalogPin) : M Z := fun w =>
  match p with
  | PAN_POT =>
      match pan_pot_in w with
      | v :: rest => Some (v, set_pan_pot_in rest w)
      | [] => None
      end
  | TILT_POT =>
      match tilt_pot_in w with
      | v :: rest => Some (v, set_tilt_pot_in rest w)
      | [] => None
      end
  end.

(** The C library's [random()]. *)
Definition raw_random : M Z := fun w =>
  match random_in w with
  | r :: rest => Some (r, set_random_in rest w)
  | [] => None
  end.

(** [long random(long howsmall, long howbig)]: [if (howsmall >= howbig)
    return howsmall; long diff = howbig - howsmall;
    return random(diff) + howsmall;].  The lower bound is inclusive and the
    upper bound exclusive. *)
Definition random (howsmall howbig : Z) : M Z :=
  if howsmall >=? howbig then ret howsmall
  else
    let diff := to_long (howbig - howsmall) in
    if diff =? 0 then ret (to_long (0 + howsmall))
    else r <- raw_random ;; ret (to_long (Arduino.random_upto r diff + howsmall)).

(** ** [updateServos] *)

Definition updateServos : M unit :=
  old_pan <- gets old_pan_pos ;;
  pan <- gets pan_pos ;;
  when (Arduino.abs (to_int (old_pan - pan)) >? 1)
    (emit (pan_write pan) ;;
     when POSITION_DEBUG
       (emit (Serial_print "Pan: ") ;;
        emit (Serial_print_int pan) ;;
        emit (Serial_print " "))) ;;
  old_tilt <- gets old_tilt_pos ;;
  tilt <- gets tilt_pos ;;
  when (Arduino.abs (to_int (old_tilt - tilt)) >? 1)
    (emit (tilt_write tilt) ;;
     when POSITION_DEBUG
       (emit (Serial_print "Tilt: ") ;;
        emit (Serial_print_int tilt))) ;;
  when POSITION_DEBUG (emit (Serial_println newline)).

(** ** [colorWipe] *)

(** [strip.numPixels()]: the strip is constructed with [LED_COUNT] cells. *)
Definition strip_numPixels : Z := LED_COUNT.

(** The values [i] takes in [for (int i = 0; i < strip.numPixels(); i++)]. *)
Definition pixel_indices : list Z :=
  List.map Z.of_nat (seq 0 (Z.to_nat strip_numPixels)).

Fixpoint for_each {A} (l : list A) (body : A -> M unit) : M unit :=
  match l with
  | [] => ret tt
  | x :: rest => body x ;; for_each rest body
  end.

Definition colorWipe (color : Color) (wait : Z) : M unit :=
  for_each pixel_indices (fun i =>
    emit (strip_setPixelColor i color) ;;
    emit strip_show ;;
    emit (delay wait)).

(** ** [checkButton] *)

Definition BUTTON_CHECK_INTERVAL : Z := 100.

(** The hold loop, lines 131-135:
    [while (button_pressed && button_was_pressed) { ... }].
    The brightness is a local of the loop body, declared [int
    laser_brightness]; the global of the same name is not assigned.  Each
    turn takes one button sample, so [fuel] is the number of samples left;
    the loop gives no result when the samples end with the button held. *)
Fixpoint checkButton_hold (fuel : nat) (button_pressed was_pressed : bool) : M bool :=
  if button_pressed && was_pressed then
    match fuel with
    | O => fun _ => None
    | S fuel' =>
        reading <- analogRead TILT_POT ;;
        let laser_brightness_local := to_int (Arduino.map reading 0 1023 0 255) in
        emit (analogWrite LASER laser_brightness_local) ;;
        level <- digitalRead_BUTTON ;;
        checkButton_hold fuel' (negb level) was_pressed
    end
  else ret button_pressed.

(** The colour both LED computations build:
    [strip.gamma32(strip.ColorHSV(pixel_hue, 255, fade_val))] with
    [int fade_val = map(pan_raw, 0, 1023, 60, 255)] and
    [int pixel_hue = map(tilt_raw, 0, 1023, 0, 65536)]. *)
Definition fade_val_of (pan_raw : Z) : Z := to_int (Arduino.map pan_raw 0 1023 60 255).
Definition pixel_hue_of (tilt_raw : Z) : Z := to_int (Arduino.map tilt_raw 0 1023 0 65536).
Definition led_color (pan_raw tilt_raw : Z) : Color :=
  gamma32_ColorHSV (to_uint16 (pixel_hue_of tilt_raw)) (to_uint8 255)
                   (to_uint8 (fade_val_of pan_raw)).

(** The body of [if (!button_pressed && button_was_pressed)], lines 139-189:
    the two log lines and the [switch (run_mode)]. *)
Definition checkButton_release : M unit :=
  emit (Serial_println "Button pressed!") ;;
  mode <- gets run_mode ;;
  emit (Serial_println_int mode) ;;
  if mode =? MODE_NORMAL then
    emit (Serial_println "Entering auto mode") ;;
    emit (digitalWrite LED true) ;;
    modify (set_run_mode MODE_AUTO)
  else if mode =? MODE_AUTO then
    emit (Serial_println "Entering LED mode") ;;
    emit (digitalWrite LED false) ;;
    pan_raw <- analogRead PAN_POT ;;
    tilt_raw <- analogRead TILT_POT ;;
    colorWipe (led_color pan_raw tilt_raw) 40 ;;
    modify (set_run_mode MODE_LED)
  else if mode =? MODE_LED then
    emit (Serial_println "Entering normal mode") ;;
    colorWipe (Color_rgb 0 0 0) 40 ;;
    modify (set_run_mode MODE_NORMAL)
  else
    emit (Serial_println "Invalid case").

(** [static long last_button_check = millis();] runs on the first call. *)
Definition checkButton_statics : M Z :=
  saved <- gets last_button_check ;;
  match saved with
  | Some t => ret t
  | None =>
      t <- millis ;;
      modify (set_last_button_check (Some (to_long t))) ;;
      ret (to_long t)
  end.

Definition checkButton : M unit :=
  last <- checkButton_statics ;;
  now <- millis ;;
  if to_ulong (now - last) >? BUTTON_CHECK_INTERVAL then
    level <- digitalRead_BUTTON ;;
    was_pressed <- gets button_was_pressed ;;
    fuel <- gets (fun w => List.length (button_in w)) ;;
    button_pressed <- checkButton_hold fuel (negb level) was_pressed ;;
    when (negb button_pressed && was_pressed) checkButton_release ;;
    t <- millis ;;
    modify (set_last_button_check (Some (to_long t))) ;;
    modify (set_button_was_pressed button_pressed)
  else ret tt.

(** Lines 124-196 of [checkButton], with [last_button_check] in hand:
    [checkButton] is [checkButton_statics] followed by this. *)
Definition checkButton_poll (last : Z) : M unit :=
  now <- millis ;;
  if to_ulong (now - last) >? BUTTON_CHECK_INTERVAL then
    level <- digitalRead_BUTTON ;;
    was_pressed <- gets button_was_pressed ;;
    fuel <- gets (fun w => List.length (button_in w)) ;;
    button_pressed <- checkButton_hold fuel (negb level) was_pressed ;;
    when (negb button_pressed && was_pressed) checkButton_release ;;
    t <- millis ;;
    modify (set_last_button_check (Some (to_long t))) ;;
    modify (set_button_was_pressed button_pressed)
  else ret tt.

(** ** [runNormalMode] *)

Definition runNormalMode : M unit :=
  pan_raw <- analogRead PAN_POT ;;
  tilt_raw <- analogRead TILT_POT ;;
  when POSITION_DEBUG
    (emit (Serial_print_int pan_raw) ;;
     emit (Serial_print ", ") ;;
     emit (Serial_println_int tilt_raw)) ;;
  modify (set_pan_pos (to_int (Arduino.map pan_raw 0 1023 MAX_PAN MIN_PAN))) ;;
  modify (set_tilt_pos (to_int (Arduino.map tilt_raw 0 1023 MAX_TILT MIN_TILT))) ;;
  updateServos ;;
  emit (delay 50).

(** ** [runLEDMode] *)

Definition runLEDMode : M unit :=
  pan_raw <- analogRead PAN_POT ;;
  tilt_raw <- analogRead TILT_POT ;;
  for_each pixel_indices (fun i =>
    emit (strip_setPixelColor i (led_color pan_raw tilt_raw))) ;;
  emit strip_show ;;
  emit (delay 10).

(** ** [runAutoMode] *)

Definition MIN_RAPID_INTERVAL : Z := 100.
Definition MAX_RAPID_INTERVAL : Z := 800.
Definition MIN_NORMAL_INTERVAL : Z := 1000.
Definition MAX_NORMAL_INTERVAL : Z := 4000.

Definition MIN_RAPID_MOVES : Z := 10.
Definition MAX_RAPID_MOVES : Z := 15.
Definition MIN_NORMAL_MOVES : Z := 3.
Definition MAX_NORMAL_MOVES : Z := 8.

Definition set_rapid_mode (v : bool) (s : AutoStatics) : AutoStatics :=
  mkAuto v (last_move s) (move_interval s) (rapid_move_max s) (normal_move_max s)
    (cur_rapid_moves s) (cur_normal_moves s).
Definition set_last_move (v : Z) (s : AutoStatics) : AutoStatics :=
  mkAuto (rapid_mode s) v (move_interval s) (rapid_move_max s) (normal_move_max s)
    (cur_rapid_moves s) (cur_normal_moves s).
Definition set_move_interval (v : Z) (s : AutoStatics) : AutoStatics :=
  mkAuto (rapid_mode s) (last_move s) v (rapid_move_max s) (normal_move_max s)
    (cur_rapid_moves s) (cur_normal_moves s).
Definition set_rapid_move_max (v : Z) (s : AutoStatics) : AutoStatics :=
  mkAuto (rapid_mode s) (last_move s) (move_interval s) v (normal_move_max s)
    (cur_rapid_moves s) (cur_normal_moves s).
Definition set_normal_move_max (v : Z) (s : AutoStatics) : AutoStatics :=
  mkAuto (rapid_mode s) (last_move s) (move_interval s) (rapid_move_max s) v
    (cur_rapid_moves s) (cur_normal_moves s).
Definition set_cur_rapid_moves (v : Z) (s : AutoStatics) : AutoStatics :=
  mkAuto (rapid_mode s) (last_move s) (move_interval s) (rapid_move_max s)
    (normal_move_max s) v (cur_normal_moves s).
Definition set_cur_normal_moves (v : Z) (s : AutoStatics) : AutoStatics :=
  mkAuto (rapid_mode s) (last_move s) (move_interval s) (rapid_move_max s)
    (normal_move_max s) (cur_rapid_moves s) v.

(** The dynamic initialisers of the statics, in declaration order, on the
    first call: [last_move = millis()], [rapid_move_max = random(...)],
    [normal_move_max = random(...)]. *)
Definition runAutoMode_statics : M AutoStatics :=
  saved <- gets auto_statics ;;
  match saved with
  | Some s => ret s
  | None =>
      t <- millis ;;
      rmax <- random MIN_RAPID_MOVES MAX_RAPID_MOVES ;;
      nmax <- random MIN_NORMAL_MOVES MAX_NORMAL_MOVES ;;
      ret (mkAuto false (to_long t) 0 (to_int rmax) (to_int nmax) 0 0)
  end.

(** Lines 237-246: the two quota tests. *)
Definition runAutoMode_quota (s : AutoStatics) : M AutoStatics :=
  s1 <- (if cur_rapid_moves s >=? rapid_move_max s then
           r <- random MIN_RAPID_MOVES MAX_RAPID_MOVES ;;
           ret (set_rapid_mode false
                  (set_cur_rapid_moves 0 (set_rapid_move_max (to_int r) s)))
         else ret s) ;;
  if cur_normal_moves s1 >=? normal_move_max s1 then
    r <- random MIN_NORMAL_MOVES MAX_NORMAL_MOVES ;;
    ret (set_rapid_mode true
           (set_cur_normal_moves 0 (set_normal_move_max (to_int r) s1)))
  else ret s1.

(** Lines 258-271: the draw of the target; [pan_pos] and [tilt_pos] are
    locals here and hide the globals. *)
Definition runAutoMode_target : M (Z * Z) :=
  p <- random MIN_PAN MAX_PAN ;;
  let pan_pos_local := to_int p in
  t <- (if pan_pos_local >=? 144 then random 24 MAX_TILT
        else if pan_pos_local <=? 54 then random 12 MAX_TILT
        else random MIN_TILT MAX_TILT) ;;
  ret (pan_pos_local, to_int t).

(** Lines 248-281: the move, once the interval has elapsed. *)
Definition runAutoMode_move (s : AutoStatics) : M AutoStatics :=
  now <- millis ;;
  if to_ulong (now - last_move s) >=? to_ulong (move_interval s) then
    s1 <- (if rapid_mode s then
             r <- random MIN_RAPID_INTERVAL MAX_RAPID_INTERVAL ;;
             ret (set_cur_rapid_moves (to_int (cur_rapid_moves s + 1))
                    (set_move_interval (to_int r) s))
           else
             r <- random MIN_NORMAL_INTERVAL MAX_NORMAL_INTERVAL ;;
             ret (set_cur_normal_moves (to_int (cur_normal_moves s + 1))
                    (set_move_interval (to_int r) s))) ;;
    target <- runAutoMode_target ;;
    emit (pan_write (fst target)) ;;
    emit (tilt_write (snd target)) ;;
    emit (Serial_print "Pan: ") ;;
    emit (Serial_print_int (fst target)) ;;
    emit (Serial_print " Tilt: ") ;;
    emit (Serial_println_int (snd target)) ;;
    t <- millis ;;
    ret (set_last_move (to_long t) s1)
  else ret s.

(** The statics live in the world between calls; within one call they are
    carried through the three parts and stored back. *)
Definition runAutoMode : M unit :=
  s0 <- runAutoMode_statics ;;
  s1 <- runAutoMode_quota s0 ;;
  s2 <- runAutoMode_move s1 ;;
  modify (set_auto_statics (Some s2)).

(** ** [loop] *)

Definition loop : M unit :=
  checkButton ;;
  mode <- gets run_mode ;;
  if mode =? MODE_NORMAL then runNormalMode
  else if mode =? MODE_AUTO then runAutoMode
  else if mode =? MODE_LED then runLEDMode
  else ret tt.

(** [n] passes of the main loop. *)
Fixpoint loops (n : nat) : M unit :=
  match n with
  | O => ret tt
  | S n' => loop ;; loops n'
  end.

(** The state at power-on: the initialisers of the globals and of the
    constant statics, with the readings [millis], [button], [pan], [tilt],
    [rand] still to come. *)
Definition power_on (ms : list Z) (button : list bool) (pan tilt rand : list Z) : World :=
  mkWorld 0 0 MODE_NORMAL 255 false None None 0 0 ms button pan tilt rand [].

(** ** [setup] *)

Definition PAN_PIN : Z := 9.
Definition TILT_PIN : Z := 10.

Inductive PinMode : Type := OUTPUT | INPUT_PULLUP.

(** The calls of [setup]: those that configure the drivers, which no pass
    of the loop makes, and those of the kind the loop makes too. *)
Inductive SetupCall : Type :=
| Serial_begin (baud : Z)
| pan_attach (pin : Z)
| tilt_attach (pin : Z)
| strip_begin
| strip_setBrightness (brightness : Z)
| pinMode (pin : Z) (mode : PinMode)
| randomSeed (seed : Z)
| driver_call (e : Event).

(** [setup], lines 65-89, as the list of its calls in order.  It assigns no
    variable; it reads the global [laser_brightness] and one sample [noise]
    of the unconnected analog pin 3. *)
Definition setup (noise : Z) (w : World) : list SetupCall :=
  [Serial_begin 115200;
   pan_attach PAN_PIN;
   tilt_attach TILT_PIN;
   strip_begin;
   driver_call strip_show;
   strip_setBrightness 50;
   pinMode LASER OUTPUT;
   pinMode LED OUTPUT;
   pinMode BUTTON INPUT_PULLUP;
   driver_call (digitalWrite LED false);
   driver_call (analogWrite LASER (laser_brightness w));
   randomSeed noise].

(** The calls of [setup] that the record of calls of the loop holds too. *)
Definition driver_calls (calls : list SetupCall) : list Event :=
  flat_map (fun c => match c with driver_call e => [e] | _ => [] end) calls.

(** The world once [setup] has run from [w]. *)
Definition after_setup (noise : Z) (w : World) : World :=
  set_out (out w ++ driver_calls (setup noise w)) w.

(** * The vocabulary of the properties *)

(** ** What the board can deliver *)

(** An analog reading is a value of 0..1023. *)
Definition reading_ok (x : Z) : Prop := 0 <= x <= 1023.

(** A raw draw of the C library's [random()]. *)
Definition valid_raw (r : Z) : Prop := 0 <= r <= Arduino.RANDOM_MAX.

Definition valid_inputs (w : World) : Prop :=
  Forall reading_ok (pan_pot_in w) /\
  Forall reading_ok (tilt_pot_in w) /\
  Forall valid_raw (random_in w).

(** ** Reading the record of calls *)

(** A servo call within the range limits; any other call passes. *)
Definition servo_ok (e : Event) : Prop :=
  match e with
  | pan_write a => MIN_PAN <= a <= MAX_PAN
  | tilt_write a => MIN_TILT <= a <= MAX_TILT
  | _ => True
  end.

Definition is_servo_write (e : Event) : bool :=
  match e with
  | pan_write _ | tilt_write _ => true
  | _ => false
  end.

Definition no_servo (evs : list Event) : bool :=
  forallb (fun e => negb (is_servo_write e)) evs.

Definition is_pan_write (e : Event) : bool :=
  match e with pan_write _ => true | _ => false end.

(** The number of moves among the calls [evs]: every move of Autonomous
    mode writes the pan servo once. *)
Definition moves (evs : list Event) : Z :=
  Z.of_nat (List.length (filter is_pan_write evs)).

(** The log line written when, and only when, a release is handled. *)
Definition is_release_line (e : Event) : bool :=
  match e with
  | Serial_println s => String.eqb s "Button pressed!"
  | _ => false
  end.

(** The number of releases handled among the calls [evs]. *)
Definition releases (evs : list Event) : nat :=
  List.length (filter is_release_line evs).

(** The calls made from [w] to [w']. *)
Definition calls_since (w w' : World) : list Event :=
  skipn (List.length (out w)) (out w').

(** The angle last written to each axis. *)
Definition last_pan_write (evs : list Event) : option Z :=
  fold_left (fun acc e => match e with pan_write a => Some a | _ => acc end) evs None.

Definition last_tilt_write (evs : list Event) : option Z :=
  fold_left (fun acc e => match e with tilt_write a => Some a | _ => acc end) evs None.

(** ** Executions that return *)

(** [wp c Q w]: whenever [c] returns from [w], its result and final world
    satisfy [Q]. *)
Definition wp {A} (c : M A) (Q : A -> World -> Prop) (w : World) : Prop :=
  forall a w', c w = Some (a, w') -> Q a w'.

(** [stable R c]: every returning execution of [c] relates its two ends
    by [R]. *)
Definition stable (R : World -> World -> Prop) {A} (c : M A) : Prop :=
  forall w, wp c (fun _ w' => R w w') w.

(** ** The calls of the parts of the sketch *)

(** The test guarding the write of one axis in [updateServos]. *)
Definition exceeds_dead_band (old new : Z) : bool :=
  Arduino.abs (to_int (old - new)) >? 1.

(** The calls of [updateServos] for each axis. *)
Definition pan_calls (w : World) : list Event :=
  if exceeds_dead_band (old_pan_pos w) (pan_pos w)
  then [pan_write (pan_pos w); Serial_print "Pan: ";
        Serial_print_int (pan_pos w); Serial_print " "]
  else [].

Definition tilt_calls (w : World) : list Event :=
  if exceeds_dead_band (old_tilt_pos w) (tilt_pos w)
  then [tilt_write (tilt_pos w); Serial_print "Tilt: ";
        Serial_print_int (tilt_pos w)]
  else [].

(** The calls of [colorWipe], and of the pixel loop of [runLEDMode]. *)
Definition wipe_calls (color : Color) (wait : Z) : list Event :=
  flat_map (fun i => [strip_setPixelColor i color; strip_show; delay wait])
           pixel_indices.

Definition paint_calls (color : Color) : list Event :=
  flat_map (fun i => [strip_setPixelColor i color]) pixel_indices.

(** The call the hold loop makes for one sample of the tilt sensor. *)
Definition hold_call (reading : Z) : Event :=
  analogWrite LASER (to_int (Arduino.map reading 0 1023 0 255)).

(** The calls of one move of Autonomous mode to the target [target]. *)
Definition move_calls (target : Z * Z) : list Event :=
  [pan_write (fst target); tilt_write (snd target);
   Serial_print "Pan: "; Serial_print_int (fst target);
   Serial_print " Tilt: "; Serial_println_int (snd target)].

(** ** The mode cycle *)

(** The successor of a mode in the cycle; any other value is left alone. *)
Definition next_mode (m : Z) : Z :=
  if m =? MODE_NORMAL then MODE_AUTO
  else if m =? MODE_AUTO then MODE_LED
  else if m =? MODE_LED then MODE_NORMAL
  else m.

Definition valid_mode (m : Z) : Prop :=
  m = MODE_NORMAL \/ m = MODE_AUTO \/ m = MODE_LED.

(** The release edge of the debounced button over a call of [checkButton]:
    down at the last poll, up at this one. *)
Definition released (w w' : World) : bool :=
  button_was_pressed w && negb (button_was_pressed w').

(** ** Autonomous mode *)

(** The target of lines 258-271 as a function of the two raw draws it
    takes: [random(23, 150)], then [random(24, 37)], [random(12, 37)] or
    [random(2, 37)]. *)
Definition target_of (r1 r2 : Z) : Z * Z :=
  let p := Z.rem r1 127 + 23 in
  (p, if p >=? 144 then Z.rem r2 13 + 24
      else if p <=? 54 then Z.rem r2 25 + 12
      else Z.rem r2 35 + 2).

(** The test of line 248 on the clock reading [now]. *)
Definition elapsed (s : AutoStatics) (now : Z) : bool :=
  to_ulong (now - last_move s) >=? to_ulong (move_interval s).

(** The statics after a quota test that fired, on the raw draw [r]. *)
Definition flipped (s : AutoStatics) (r : Z) : AutoStatics :=
  if rapid_mode s
  then set_rapid_mode false
         (set_cur_rapid_moves 0 (set_rapid_move_max (Z.rem r 5 + 10) s))
  else set_rapid_mode true
         (set_cur_normal_moves 0 (set_normal_move_max (Z.rem r 5 + 3) s)).

(** The statics after the bookkeeping of a move, on the raw draw [r] of the
    next interval. *)
Definition moved (s : AutoStatics) (r : Z) : AutoStatics :=
  if rapid_mode s
  then set_cur_rapid_moves (cur_rapid_moves s + 1)
         (set_move_interval (Z.rem r 700 + 100) s)
  else set_cur_normal_moves (cur_normal_moves s + 1)
         (set_move_interval (Z.rem r 3000 + 1000) s).

(** The counter and the ceiling of the cadence in force, and the counter of
    the other cadence. *)
Definition burst_count (s : AutoStatics) : Z :=
  if rapid_mode s then cur_rapid_moves s else cur_normal_moves s.
Definition burst_ceiling (s : AutoStatics) : Z :=
  if rapid_mode s then rapid_move_max s else normal_move_max s.
Definition idle_count (s : AutoStatics) : Z :=
  if rapid_mode s then cur_normal_moves s else cur_rapid_moves s.

(** The ceilings are draws of [random(10, 15)] and [random(3, 8)]. *)
Definition ceilings_ok (s : AutoStatics) : Prop :=
  MIN_RAPID_MOVES <= rapid_move_max s <= MAX_RAPID_MOVES - 1 /\
  MIN_NORMAL_MOVES <= normal_move_max s <= MAX_NORMAL_MOVES - 1.

(** Between calls: the ceilings are draws of their ranges, the idle counter
    is zero and the counter in force has not passed its ceiling. *)
Definition burst_inv (s : AutoStatics) : Prop :=
  ceilings_ok s /\ idle_count s = 0 /\ 0 <= burst_count s <= burst_ceiling s.

(** The cadence and the moves made in the current burst, as the statics
    hold them between calls; before the first call the constant
    initialisers apply. *)
Definition cadence_of (w : World) : bool :=
  match auto_statics w with Some s => rapid_mode s | None => false end.

Definition count_of (w : World) : Z :=
  match auto_statics w with Some s => burst_count s | None => 0 end.

Definition statics_inv (w : World) : Prop :=
  match auto_statics w with Some s => burst_inv s | None => True end.

(** The number of moves of a burst that has ended, as the ceilings are
    drawn. *)
Definition quota_drawn (rapid : bool) (n : Z) : Prop :=
  if rapid then MIN_RAPID_MOVES <= n <= MAX_RAPID_MOVES - 1
  else MIN_NORMAL_MOVES <= n <= MAX_NORMAL_MOVES - 1.

(** What a call has made: nothing, or the calls of one move. *)
Definition made_by (evs : list Event) (made : Z) : Prop :=
  (evs = [] /\ made = 0) \/
  (exists r1 r2, valid_raw r1 /\ valid_raw r2 /\
                 evs = move_calls (target_of r1 r2) /\ made = 1).

(** [auto_step rapid n w w']: a call entered in cadence [rapid] with [n]
    moves made in the current burst leads from [w] to [w'].  Either the
    cadence is kept and the burst has grown by the moves made, or the burst
    ended at its quota with [n] moves and a new burst has started with the
    moves made. *)
Definition auto_step (rapid : bool) (n : Z) (w w' : World) : Prop :=
  exists s',
    auto_statics w' = Some s' /\ burst_inv s' /\
    Forall valid_raw (random_in w') /\
    laser_brightness w' = laser_brightness w /\
    run_mode w' = run_mode w /\
    pan_pot_in w' = pan_pot_in w /\ tilt_pot_in w' = tilt_pot_in w /\
    exists evs made,
      out w' = out w ++ evs /\ made_by evs made /\
      if Bool.eqb rapid (rapid_mode s')
      then burst_count s' = n + made
      else quota_drawn rapid n /\ burst_count s' = made.

(** [bursts n count w]: runs [n] calls of [runAutoMode] from [w], where
    [count] moves have been seen in the burst under way, and lists the
    bursts that ended, each with its cadence ([true] is rapid) and the
    number of moves seen while it lasted.  A burst ends at the call in
    which the cadence changes; the move such a call makes belongs to the
    burst it starts. *)
Fixpoint bursts (n : nat) (count : Z) (w : World) : option (list (bool * Z) * World) :=
  match n with
  | O => Some ([], w)
  | S n' =>
      match runAutoMode w with
      | None => None
      | Some (_, w') =>
          let made := moves (calls_since w w') in
          if Bool.eqb (cadence_of w) (cadence_of w')
          then bursts n' (count + made) w'
          else match bursts n' made w' with
               | Some (l, wf) => Some ((cadence_of w, count) :: l, wf)
               | None => None
               end
      end
  end.

(** ** The effect of a part of a pass *)

(** [effect w w']: the global laser brightness is kept; the calls made are
    appended; the mode has advanced once per release handled; on valid
    inputs the servo calls made are within the limits and the inputs left
    are valid. *)
Definition effect (w w' : World) : Prop :=
  laser_brightness w' = laser_brightness w /\
  (valid_inputs w -> valid_inputs w') /\
  exists evs, out w' = out w ++ evs /\
              run_mode w' = Nat.iter (releases evs) next_mode (run_mode w) /\
              (valid_inputs w -> Forall servo_ok evs).

(** [quiet_effect k w w']: as [effect], with no servo call at all and
    exactly [k] releases handled. *)
Definition quiet_effect (k : nat) (w w' : World) : Prop :=
  laser_brightness w' = laser_brightness w /\
  (valid_inputs w -> valid_inputs w') /\
  exists evs, out w' = out w ++ evs /\
              releases evs = k /\ no_servo evs = true /\
              run_mode w' = Nat.iter k next_mode (run_mode w).

(** [keeps w w']: what [runAutoMode] leaves alone whatever it draws. *)
Definition keeps (w w' : World) : Prop :=
  laser_brightness w' = laser_brightness w /\
  run_mode w' = run_mode w /\
  pan_pot_in w' = pan_pot_in w /\ tilt_pot_in w' = tilt_pot_in w /\
  exists evs, out w' = out w ++ evs /\ releases evs = 0%nat.

(** [guards w w']: on valid raw draws, the draws left are valid and the
    calls made stay within the servo limits. *)
Definition guards (w w' : World) : Prop :=
  Forall valid_raw (random_in w) ->
  Forall valid_raw (random_in w') /\
  exists evs, out w' = out w ++ evs /\ Forall servo_ok evs.

(** ** Executions used as examples *)

(** A button pressed and released three times, with the sensors at rest,
    and the world after seven passes of the loop. *)
Definition three_presses : World :=
  power_on [0; 0; 200; 400; 600; 800; 1000; 1200; 1400; 1600; 1800; 2000;
            2200; 2400; 2600; 2800; 3000; 3200; 3400; 3600; 3800; 4000]
           [false; true; false; true; false; true]
           [512; 512; 512; 512; 512; 512]
           [512; 512; 512; 512; 512; 512]
           [7; 8; 9; 10; 11; 12; 13; 14; 15].

Definition after_three_presses : World :=
  match loops 7 three_presses with
  | Some (_, w) => w
  | None => three_presses
  end.

(** A world whose mode holds a value outside the enumeration. *)
Definition stray_mode : World := set_run_mode 7 (power_on [] [] [] [] []).

(** The button found down at the last poll and held for two more samples,
    and the world after the call of the button monitor. *)
Definition held_button : World :=
  set_button_was_pressed true
    (set_last_button_check (Some 0)
       (power_on [200; 300] [false; false; true] [] [512; 100] [])).

Definition after_held_button : World :=
  match checkButton held_button with
  | Some (_, w) => w
  | None => held_button
  end.

(** The raw draws that give the largest pan target and the largest tilt. *)
Definition top_draws : World := power_on [] [] [] [] [126; 12].

(** The clock advancing five seconds between readings, so that every call
    of Autonomous mode moves, and the world after thirty calls. *)
Definition sweep : World :=
  power_on (List.map (fun k => 5000 * Z.of_nat k) (seq 0 80)) [] [] []
           (List.map (fun k => 7 * Z.of_nat k + 3) (seq 0 120)).

Definition after_sweep : World :=
  match bursts 30 0 sweep with
  | Some (_, w) => w
  | None => sweep
  end.

(** The angles of a pass of Manual mode, in place before [updateServos],
    and the world after it. *)
Definition angles_set : World :=
  set_pan_pos 100 (set_tilt_pos 20 (power_on [] [] [] [] [])).

Definition after_update : World :=
  match updateServos angles_set with
  | Some (_, w) => w
  | None => angles_set
  end.

(** Two passes of Manual mode over an unmoved pair of sensors. *)
Definition unmoved_sensors : World := power_on [] [] [403; 403] [512; 512] [].

Definition after_first_pass : World :=
  match runNormalMode unmoved_sensors with
  | Some (_, w) => w
  | None => unmoved_sensors
  end.

Definition after_second_pass : World :=
  match runNormalMode after_first_pass with
  | Some (_, w) => w
  | None => after_first_pass
  end.

(** ** The calls of the button monitor *)

(** The calls of the release handler entered in mode [mode]; [color] is the
    colour of the snapshot it takes when it leaves Autonomous mode. *)
Definition release_calls (mode : Z) (color : Color) : list Event :=
  [Serial_println "Button pressed!"; Serial_println_int mode] ++
  (if mode =? MODE_NORMAL then
     [Serial_println "Entering auto mode"; digitalWrite LED true]
   else if mode =? MODE_AUTO then
     [Serial_println "Entering LED mode"; digitalWrite LED false]
       ++ wipe_calls color 40
   else if mode =? MODE_LED then
     [Serial_println "Entering normal mode"] ++ wipe_calls (Color_rgb 0 0 0) 40
   else [Serial_println "Invalid case"]).

(** What a call of the button monitor does to the record of calls, the mode
    and the sensor queues: nothing, or the laser writes of the hold loop
    followed by the calls of the release. *)
Definition button_step (w w' : World) : Prop :=
  (released w w' = false /\ out w' = out w /\ run_mode w' = run_mode w /\
   pan_pot_in w' = pan_pot_in w /\ tilt_pot_in w' = tilt_pot_in w) \/
  (released w w' = true /\
   exists (samples rest_t : list Z) (color : Color),
     tilt_pot_in w = samples ++ rest_t /\
     out w' = out w ++ List.map hold_call samples
                    ++ release_calls (run_mode w) color /\
     run_mode w' = next_mode (run_mode w) /\
     (run_mode w = MODE_AUTO ->
      exists p ps t ts,
        pan_pot_in w = p :: ps /\ rest_t = t :: ts /\ color = led_color p t /\
        pan_pot_in w' = ps /\ tilt_pot_in w' = ts) /\
     (run_mode w <> MODE_AUTO ->
      pan_pot_in w' = pan_pot_in w /\ tilt_pot_in w' = rest_t)).

(** A pin written by a call is one [setup] has made an output. *)
Definition pin_configured (noise : Z) (w : World) (e : Event) : Prop :=
  match e with
  | digitalWrite pin _ | analogWrite pin _ => In (pinMode pin OUTPUT) (setup noise w)
  | _ => True
  end.

(** ** What an execution leaves alone, and the calls it can make *)

(** [untouched f w w']: the part [f] of the world is the same at both ends. *)
Definition untouched {A} (f : World -> A) (w w' : World) : Prop := f w' = f w.

(** [only P w w']: calls were appended, and every one of them satisfies [P]. *)
Definition only (P : Event -> Prop) (w w' : World) : Prop :=
  exists evs, out w' = out w ++ evs /\ Forall P evs.

(** The calls Manual mode can make. *)
Definition manual_call (e : Event) : Prop :=
  match e with
  | Serial_print _ | Serial_print_int _ | Serial_println _ | Serial_println_int _
  | pan_write _ | tilt_write _ => True
  | delay ms => ms = 50
  | _ => False
  end.

(** The calls Autonomous mode can make. *)
Definition auto_call (e : Event) : Prop :=
  match e with
  | Serial_print _ | Serial_print_int _ | Serial_println_int _
  | pan_write _ | tilt_write _ => True
  | _ => False
  end.

(** The calls Ambient mode can make. *)
Definition ambient_call (e : Event) : Prop :=
  match e with
  | strip_setPixelColor i _ => 0 <= i < LED_COUNT
  | strip_show => True
  | delay ms => ms = 10
  | _ => False
  end.

(** The calls the button monitor can make. *)
Definition button_call (e : Event) : Prop :=
  match e with
  | Serial_println _ | Serial_println_int _ => True
  | digitalWrite pin _ => pin = LED
  | analogWrite pin _ => pin = LASER
  | strip_setPixelColor i _ => 0 <= i < LED_COUNT
  | strip_show => True
  | delay ms => ms = 40
  | _ => False
  end.

(** The bounds every call of a pass keeps: the pins written, the duty cycle
    of the laser, the cells of the ring addressed and the pauses made. *)
Definition pass_call (e : Event) : Prop :=
  match e with
  | digitalWrite pin _ => pin = LED
  | analogWrite pin v => pin = LASER /\ 0 <= v <= 255
  | strip_setPixelColor i _ => 0 <= i < LED_COUNT
  | delay ms => ms = 10 \/ ms = 40 \/ ms = 50
  | _ => True
  end.

(** ** Reading the record of calls, continued *)

Definition is_digitalWrite (e : Event) : bool :=
  match e with digitalWrite _ _ => true | _ => false end.

Definition is_strip_call (e : Event) : bool :=
  match e with
  | strip_setPixelColor _ _ | strip_show => true
  | _ => false
  end.

Definition is_delay (e : Event) : bool :=
  match e with delay _ => true | _ => false end.

(** The log line of the [default:] branch of the release handler. *)
Definition is_invalid_line (e : Event) : bool :=
  match e with
  | Serial_println s => String.eqb s "Invalid case"
  | _ => false
  end.

(** The level of the status LED after the calls [evs], from the level
    [lit]. *)
Definition status_led (lit : bool) (evs : list Event) : bool :=
  fold_left (fun lit e =>
               match e with
               | digitalWrite pin high => if pin =? LED then high else lit
               | _ => lit
               end) evs lit.

(** The light ring as the driver holds it: the colour set in RAM and the
    colour shown, cell by cell.  [strip.setPixelColor] sets a cell in RAM,
    [strip.show] makes the ring match the RAM.  The colours are kept as the
    sketch hands them over. *)
Record Ring : Type := mkRing { in_ram : Z -> Color; shown : Z -> Color }.

Definition ring_step (r : Ring) (e : Event) : Ring :=
  match e with
  | strip_setPixelColor i c =>
      mkRing (fun j => if j =? i then c else in_ram r j) (shown r)
  | strip_show => mkRing (in_ram r) (in_ram r)
  | _ => r
  end.

Definition ring_after (r : Ring) (evs : list Event) : Ring :=
  fold_left ring_step evs r.

(** Every cell of the ring holds and shows the colour [c]. *)
Definition uniform (c : Color) (r : Ring) : Prop :=
  forall i, 0 <= i < LED_COUNT -> in_ram r i = c /\ shown r i = c.

(** The ring is dark outside Ambient mode and of one colour, computed from
    a pair of readings, in Ambient mode. *)
Definition ring_matches_mode (r : Ring) (mode : Z) : Prop :=
  if mode =? MODE_LED then exists p t, uniform (led_color p t) r
  else uniform (Color_rgb 0 0 0) r.

(** The angles written to each servo among the calls [evs], in order. *)
Definition pan_writes (evs : list Event) : list Z :=
  flat_map (fun e => match e with pan_write a => [a] | _ => [] end) evs.

Definition tilt_writes (evs : list Event) : list Z :=
  flat_map (fun e => match e with tilt_write a => [a] | _ => [] end) evs.

(** The angles Manual mode computes from a reading, lines 209-210. *)
Definition manual_pan (reading : Z) : Z :=
  to_int (Arduino.map reading 0 1023 MAX_PAN MIN_PAN).

Definition manual_tilt (reading : Z) : Z :=
  to_int (Arduino.map reading 0 1023 MAX_TILT MIN_TILT).

(** The time spent in [delay] among the calls [evs], in milliseconds. *)
Definition pause (evs : list Event) : Z :=
  fold_right (fun e acc => match e with delay ms => ms + acc | _ => acc end) 0 evs.

(** ** Autonomous mode, continued *)

(** The interval drawn with a move is the one of the cadence in force. *)
Definition interval_drawn (s : AutoStatics) : Prop :=
  if rapid_mode s
  then MIN_RAPID_INTERVAL <= move_interval s <= MAX_RAPID_INTERVAL - 1
  else MIN_NORMAL_INTERVAL <= move_interval s <= MAX_NORMAL_INTERVAL - 1.

(** What a call of Autonomous mode comes to, on the clock reading [now] it
    starts with and from the statics [s]: when the interval has not elapsed
    it makes no call and keeps the time and the interval of the last move;
    when it has, it makes the calls of one move, draws the next interval and
    takes the time of the move from a second clock reading. *)
Definition auto_outcome (s : AutoStatics) (w w' : World) : Prop :=
  exists now rest s',
    millis_in w = now :: rest /\ auto_statics w' = Some s' /\
    if elapsed s now
    then exists t r1 r2,
           rest = t :: millis_in w' /\ valid_raw r1 /\ valid_raw r2 /\
           out w' = out w ++ move_calls (target_of r1 r2) /\
           last_move s' = to_long t /\ interval_drawn s'
    else millis_in w' = rest /\ out w' = out w /\
         last_move s' = last_move s /\ move_interval s' = move_interval s.

(** ** Further executions used as examples *)

(** The clock six milliseconds before its roll-over at the last poll, and
    read 50 ms later. *)
Definition near_rollover : World :=
  set_last_button_check (Some (-6)) (power_on [44] [] [] [] []).

(** The first call of the button monitor, its two clock readings one
    millisecond apart. *)
Definition first_poll : World := power_on [1000; 1001] [] [] [] [].

(** A poll past the window that finds the button down for the first time. *)
Definition button_goes_down : World :=
  set_last_button_check (Some 0) (power_on [200; 201] [false] [] [] []).

(** Two passes of Manual mode with the sensors moved in between, and the
    world after the first and after both. *)
Definition two_manual_passes : World :=
  power_on [0; 10; 20] [] [403; 100] [512; 900] [].

Definition after_one_manual_pass : World :=
  match loop two_manual_passes with
  | Some (_, w) => w
  | None => two_manual_passes
  end.

Definition after_two_manual_passes : World :=
  match loops 2 two_manual_passes with
  | Some (_, w) => w
  | None => two_manual_passes
  end.

(** The first two calls of Autonomous mode on the clock of [sweep]. *)
Definition after_first_move : World :=
  match runAutoMode sweep with
  | Some (_, w) => w
  | None => sweep
  end.

Definition after_second_move : World :=
  match runAutoMode after_first_move with
  | Some (_, w) => w
  | None => after_first_move
  end.

(** The statics a first move of the normal cadence at 10 s leaves. *)
Definition first_move_statics : AutoStatics := mkAuto false 10000 1017 13 3 0 1.

(** A ring whose RAM and cells are dark. *)
Definition dark_ring : Ring :=
  mkRing (fun _ => Color_rgb 0 0 0) (fun _ => Color_rgb 0 0 0).

(** The button pressed and released three times, from power-on and
    [setup]. *)
Definition booted_three_presses : World := after_setup 0 three_presses.

Definition after_booted_three_presses : World :=
  match loops 7 booted_three_presses with
  | Some (_, w) => w
  | None => booted_three_presses
  end.

(** * Reasoning about the sketch *)

(** ** Machine integers *)

Lemma to_int_small (z : Z) : -32768 <= z <= 32767 -> to_int z = z.
Proof.
  intros H. unfold to_int, wrap_signed.
  change (2 ^ (16 - 1)) with 32768. change (2 ^ 16) with 65536.
  rewrite Z.mod_small; lia.
Qed.

Lemma to_long_small (z : Z) : -2147483648 <= z <= 2147483647 -> to_long z = z.
Proof.
  intros H. unfold to_long, wrap_signed.
  change (2 ^ (32 - 1)) with 2147483648. change (2 ^ 32) with 4294967296.
  rewrite Z.mod_small; lia.
Qed.

(** Narrowing to [int] and reading the result as [uint16_t] keeps the value
    modulo [2^16]. *)
Lemma to_uint16_to_int (z : Z) : to_uint16 (to_int z) = z mod 65536.
Proof.
  unfold to_uint16, to_int, wrap_signed.
  change (2 ^ (16 - 1)) with 32768. change (2 ^ 16) with 65536.
  rewrite Zminus_mod, Zmod_mod, <- Zminus_mod.
  f_equal. lia.
Qed.

(** ** [map] on the ranges the sketch uses *)

(** Without overflow, [map] from [0 .. 1023] is the truncated quotient. *)
Lemma map_0_1023 (x lo hi : Z) :
  0 <= x <= 1023 -> -1000000 <= lo <= 1000000 -> -1000000 <= hi <= 1000000 ->
  Arduino.map x 0 1023 lo hi = x * (hi - lo) ÷ 1023 + lo.
Proof.
  intros Hx Hlo Hhi. unfold Arduino.map.
  rewrite Z.sub_0_r. change (1023 - 0) with 1023.
  rewrite (to_long_small x) by lia.
  rewrite (to_long_small (hi - lo)) by lia.
  rewrite (to_long_small 1023) by lia.
  assert (Hp : -2046000000 <= x * (hi - lo) <= 2046000000) by nia.
  rewrite (to_long_small (x * (hi - lo))) by lia.
  assert (Hq : -2046000000 <= x * (hi - lo) ÷ 1023 <= 2046000000).
  { destruct (Z_le_gt_dec 0 (x * (hi - lo))) as [Hs|Hs].
    - pose proof (Z.quot_pos (x * (hi - lo)) 1023 Hs ltac:(lia)).
      pose proof (Z.quot_le_upper_bound (x * (hi - lo)) 1023 2046000000 ltac:(lia) ltac:(lia)).
      lia.
    - pose proof (Z.quot_opp_l (x * (hi - lo)) 1023 ltac:(lia)) as Ho.
      pose proof (Z.quot_pos (- (x * (hi - lo))) 1023 ltac:(lia) ltac:(lia)).
      pose proof (Z.quot_le_upper_bound (- (x * (hi - lo))) 1023 2046000000 ltac:(lia) ltac:(lia)).
      lia. }
  rewrite (to_long_small (x * (hi - lo) ÷ 1023)) by lia.
  apply to_long_small. lia.
Qed.

(** [map] from [0 .. 1023] stays between its two output bounds, whichever is
    the larger. *)
Lemma map_between (x lo hi : Z) :
  0 <= x <= 1023 -> -1000000 <= lo <= 1000000 -> -1000000 <= hi <= 1000000 ->
  Z.min lo hi <= Arduino.map x 0 1023 lo hi <= Z.max lo hi.
Proof.
  intros Hx Hlo Hhi. rewrite map_0_1023 by assumption.
  destruct (Z_le_gt_dec lo hi) as [Hle|Hgt].
  - rewrite Z.min_l, Z.max_r by lia.
    assert (0 <= x * (hi - lo) ÷ 1023 <= hi - lo)
      by (Z.to_euclidean_division_equations; nia).
    lia.
  - rewrite Z.min_r, Z.max_l by lia.
    assert (hi - lo <= x * (hi - lo) ÷ 1023 <= 0)
      by (Z.to_euclidean_division_equations; nia).
    lia.
Qed.

(** The manual mapping of the pan sensor, as stored in [int pan_pos]. *)
Lemma manual_pan_range (x : Z) :
  0 <= x <= 1023 ->
  MIN_PAN <= to_int (Arduino.map x 0 1023 MAX_PAN MIN_PAN) <= MAX_PAN.
Proof.
  intros Hx. unfold MIN_PAN, MAX_PAN.
  pose proof (map_between x 150 23 Hx ltac:(lia) ltac:(lia)) as H.
  rewrite Z.min_r, Z.max_l in H by lia.
  rewrite to_int_small; lia.
Qed.

Lemma manual_tilt_range (x : Z) :
  0 <= x <= 1023 ->
  MIN_TILT <= to_int (Arduino.map x 0 1023 MAX_TILT MIN_TILT) <= MAX_TILT.
Proof.
  intros Hx. unfold MIN_TILT, MAX_TILT.
  pose proof (map_between x 37 2 Hx ltac:(lia) ltac:(lia)) as H.
  rewrite Z.min_r, Z.max_l in H by lia.
  rewrite to_int_small; lia.
Qed.

Lemma fade_val_range (x : Z) : 0 <= x <= 1023 -> 60 <= fade_val_of x <= 255.
Proof.
  intros Hx. unfold fade_val_of.
  pose proof (map_between x 60 255 Hx ltac:(lia) ltac:(lia)) as H.
  rewrite Z.min_l, Z.max_r in H by lia.
  rewrite to_int_small; lia.
Qed.

(** The brightness the hold loop forwards to the laser. *)
Lemma hold_brightness_range (x : Z) :
  0 <= x <= 1023 -> 0 <= to_int (Arduino.map x 0 1023 0 255) <= 255.
Proof.
  intros Hx.
  pose proof (map_between x 0 255 Hx ltac:(lia) ltac:(lia)) as H.
  rewrite Z.min_l, Z.max_r in H by lia.
  rewrite to_int_small; lia.
Qed.

(** The hue mapping runs up to 65536, which it reaches at the top reading
    only. *)
Lemma hue_map_range (x : Z) :
  0 <= x <= 1023 -> 0 <= Arduino.map x 0 1023 0 65536 <= 65536.
Proof.
  intros Hx.
  pose proof (map_between x 0 65536 Hx ltac:(lia) ltac:(lia)) as H.
  rewrite Z.min_l, Z.max_r in H by lia. exact H.
Qed.

Lemma hue_map_top (x : Z) :
  0 <= x <= 1023 -> (Arduino.map x 0 1023 0 65536 = 65536 <-> x = 1023).
Proof.
  intros Hx. rewrite map_0_1023 by lia. rewrite Z.sub_0_r, Z.add_0_r.
  split; intros H.
  - Z.to_euclidean_division_equations; nia.
  - subst x. reflexivity.
Qed.

(** ** [random] *)

Lemma random_upto_range (r d : Z) :
  valid_raw r -> 0 < d -> 0 <= Arduino.random_upto r d <= d - 1.
Proof.
  unfold valid_raw, Arduino.random_upto. intros Hr Hd.
  Z.to_euclidean_division_equations; nia.
Qed.

(** ** A weakest-precondition calculus for the monad

    [wp c Q w]: whenever [c] returns from [w], its result and final world
    satisfy [Q]. *)

Section WpRules.
Context {A B : Type}.

Lemma wp_ret (a : A) (Q : A -> World -> Prop) w : Q a w -> wp (ret a) Q w.
Proof. intros H a' w' E. inversion E; subst; exact H. Qed.

Lemma wp_bind (c : M A) (k : A -> M B) (Q : B -> World -> Prop) w :
  wp c (fun a w1 => wp (k a) Q w1) w -> wp (bind c k) Q w.
Proof.
  intros H b w' E. unfold bind in E.
  destruct (c w) as [[a w1]|] eqn:Ec; [|discriminate].
  exact (H a w1 Ec b w' E).
Qed.

Lemma wp_conseq (c : M A) (Q Q' : A -> World -> Prop) w :
  wp c Q w -> (forall a w', Q a w' -> Q' a w') -> wp c Q' w.
Proof. intros H HQ a w' E. apply HQ, (H a w' E). Qed.

Lemma wp_gets (f : World -> A) (Q : A -> World -> Prop) w :
  Q (f w) w -> wp (gets f) Q w.
Proof. intros H a w' E. inversion E; subst; exact H. Qed.

Lemma wp_if (b : bool) (c1 c2 : M A) (Q : A -> World -> Prop) w :
  (b = true -> wp c1 Q w) -> (b = false -> wp c2 Q w) ->
  wp (if b then c1 else c2) Q w.
Proof. destruct b; auto. Qed.
End WpRules.

Lemma wp_modify (f : World -> World) (Q : unit -> World -> Prop) w :
  Q tt (f w) -> wp (modify f) Q w.
Proof. intros H a w' E. inversion E; subst; exact H. Qed.

Lemma wp_emit (e : Event) (Q : unit -> World -> Prop) w :
  Q tt (set_out (out w ++ [e]) w) -> wp (emit e) Q w.
Proof. apply wp_modify. Qed.

Lemma wp_when (b : bool) (c : M unit) (Q : unit -> World -> Prop) w :
  (b = true -> wp c Q w) -> (b = false -> Q tt w) -> wp (when b c) Q w.
Proof.
  unfold when. intros H1 H2. apply wp_if; [exact H1|].
  intros Hb. apply wp_ret, H2, Hb.
Qed.

Lemma wp_millis (Q : Z -> World -> Prop) w :
  (forall t rest, millis_in w = t :: rest -> Q t (set_millis_in rest w)) ->
  wp millis Q w.
Proof.
  intros H a w' E. unfold millis in E.
  destruct (millis_in w) as [|t rest] eqn:Em; [discriminate|].
  inversion E; subst. apply H; reflexivity.
Qed.

Lemma wp_digitalRead_BUTTON (Q : bool -> World -> Prop) w :
  (forall b rest, button_in w = b :: rest -> Q b (set_button_in rest w)) ->
  wp digitalRead_BUTTON Q w.
Proof.
  intros H a w' E. unfold digitalRead_BUTTON in E.
  destruct (button_in w) as [|b rest] eqn:Em; [discriminate|].
  inversion E; subst. apply H; reflexivity.
Qed.

Lemma wp_analogRead_PAN (Q : Z -> World -> Prop) w :
  (forall v rest, pan_pot_in w = v :: rest -> Q v (set_pan_pot_in rest w)) ->
  wp (analogRead PAN_POT) Q w.
Proof.
  intros H a w' E. unfold analogRead in E.
  destruct (pan_pot_in w) as [|v rest] eqn:Em; [discriminate|].
  inversion E; subst. apply H; reflexivity.
Qed.

Lemma wp_analogRead_TILT (Q : Z -> World -> Prop) w :
  (forall v rest, tilt_pot_in w = v :: rest -> Q v (set_tilt_pot_in rest w)) ->
  wp (analogRead TILT_POT) Q w.
Proof.
  intros H a w' E. unfold analogRead in E.
  destruct (tilt_pot_in w) as [|v rest] eqn:Em; [discriminate|].
  inversion E; subst. apply H; reflexivity.
Qed.

Lemma wp_raw_random (Q : Z -> World -> Prop) w :
  (forall r rest, random_in w = r :: rest -> Q r (set_random_in rest w)) ->
  wp raw_random Q w.
Proof.
  intros H a w' E. unfold raw_random in E.
  destruct (random_in w) as [|r rest] eqn:Em; [discriminate|].
  inversion E; subst. apply H; reflexivity.
Qed.

(** [random(lo, hi)] on a proper range takes one raw draw [r] and returns
    [r % (hi - lo) + lo]. *)
Lemma wp_random (lo hi : Z) (Q : Z -> World -> Prop) w :
  lo < hi -> -1000000 <= lo -> hi <= 1000000 ->
  (forall r rest, random_in w = r :: rest ->
     Q (to_long (Z.rem r (hi - lo) + lo)) (set_random_in rest w)) ->
  wp (random lo hi) Q w.
Proof.
  intros Hlt Hlo Hhi H. unfold random.
  destruct (lo >=? hi) eqn:Ege; [lia|].
  rewrite (to_long_small (hi - lo)) by lia.
  destruct (hi - lo =? 0) eqn:Ez; [lia|].
  apply wp_bind, wp_raw_random. intros r rest Er.
  apply wp_ret. apply H, Er.
Qed.

(** What a proper [random(lo, hi)] returns on a valid raw draw. *)
Lemma random_value_range (r lo hi : Z) :
  valid_raw r -> lo < hi -> -1000000 <= lo -> hi <= 1000000 ->
  lo <= to_long (Z.rem r (hi - lo) + lo) <= hi - 1.
Proof.
  intros Hr Hlt Hlo Hhi.
  pose proof (random_upto_range r (hi - lo) Hr ltac:(lia)) as H.
  unfold Arduino.random_upto in H.
  rewrite to_long_small; lia.
Qed.

(** Projections commute with the setters by computation. *)
Ltac wsimpl :=
  cbn [tilt_pos pan_pos run_mode laser_brightness button_was_pressed
       last_button_check auto_statics old_pan_pos old_tilt_pos
       millis_in button_in pan_pot_in tilt_pot_in random_in out
       set_tilt_pos set_pan_pos set_run_mode set_button_was_pressed
       set_last_button_check set_auto_statics set_millis_in set_button_in
       set_pan_pot_in set_tilt_pot_in set_random_in set_out
       rapid_mode last_move move_interval rapid_move_max normal_move_max
       cur_rapid_moves cur_normal_moves
       set_rapid_mode set_last_move set_move_interval set_rapid_move_max
       set_normal_move_max set_cur_rapid_moves set_cur_normal_moves
       fst snd] in *.

(** One step of symbolic execution. *)
Ltac wp_step :=
  lazymatch goal with
  | |- wp (bind _ _) _ _ => apply wp_bind
  | |- wp (ret _) _ _ => apply wp_ret
  | |- wp (gets _) _ _ => apply wp_gets
  | |- wp (modify _) _ _ => apply wp_modify
  | |- wp (emit _) _ _ => apply wp_emit
  | |- wp millis _ _ => apply wp_millis; intros ? ? ?
  | |- wp digitalRead_BUTTON _ _ => apply wp_digitalRead_BUTTON; intros ? ? ?
  | |- wp (analogRead PAN_POT) _ _ => apply wp_analogRead_PAN; intros ? ? ?
  | |- wp (analogRead TILT_POT) _ _ => apply wp_analogRead_TILT; intros ? ? ?
  | |- wp (when true ?c) ?Q ?w => change (wp c Q w)
  | |- wp (when _ _) _ _ => apply wp_when; intros ?
  | |- wp (if _ then _ else _) _ _ => apply wp_if; intros ?
  end; wsimpl.

Ltac wp_run := repeat wp_step.

(** ** [updateServos] *)

(** The two statics of [updateServos] are read and never assigned. *)
Lemma updateServos_keeps_old (w w' : World) :
  updateServos w = Some (tt, w') ->
  old_pan_pos w' = old_pan_pos w /\ old_tilt_pos w' = old_tilt_pos w.
Proof.
  intros E.
  enough (H : wp updateServos
                (fun _ w1 => old_pan_pos w1 = old_pan_pos w /\
                             old_tilt_pos w1 = old_tilt_pos w) w)
    by exact (H tt w' E).
  unfold updateServos, POSITION_DEBUG. wp_run; auto.
Qed.

(** ** Running the monad by equations

    The counterparts of the [wp] rules for executions that return: each
    rewrites the first step of a sequence. *)

Lemma bind_assoc {A B C} (c : M A) (k1 : A -> M B) (k2 : B -> M C) (w : World) :
  bind (bind c k1) k2 w = bind c (fun a => bind (k1 a) k2) w.
Proof. unfold bind. destruct (c w) as [[a w1]|]; reflexivity. Qed.

Lemma bind_ret {A B} (a : A) (k : A -> M B) (w : World) :
  bind (ret a) k w = k a w.
Proof. reflexivity. Qed.

Lemma bind_gets {A B} (f : World -> A) (k : A -> M B) (w : World) :
  bind (gets f) k w = k (f w) w.
Proof. reflexivity. Qed.

Lemma bind_modify {B} (f : World -> World) (k : unit -> M B) (w : World) :
  bind (modify f) k w = k tt (f w).
Proof. reflexivity. Qed.

Lemma bind_emit {B} (e : Event) (k : unit -> M B) (w : World) :
  bind (emit e) k w = k tt (set_out (out w ++ [e]) w).
Proof. reflexivity. Qed.

Lemma emit_eq (e : Event) (w : World) :
  emit e w = Some (tt, set_out (out w ++ [e]) w).
Proof. reflexivity. Qed.

Lemma modify_eq (f : World -> World) (w : World) : modify f w = Some (tt, f w).
Proof. reflexivity. Qed.

Lemma bind_eq {A B} (c : M A) (k : A -> M B) (w w1 : World) (a : A) :
  c w = Some (a, w1) -> bind c k w = k a w1.
Proof. intros E. unfold bind. rewrite E. reflexivity. Qed.

Ltac run_step :=
  first [ rewrite bind_assoc
        | rewrite bind_ret
        | rewrite bind_gets
        | rewrite bind_modify
        | rewrite bind_emit
        | rewrite emit_eq
        | rewrite modify_eq ];
  wsimpl.

Ltac run := repeat run_step.

(** [updateServos] always returns, changes nothing but the record of calls,
    and makes exactly these calls. *)
Lemma updateServos_eq (w : World) :
  updateServos w =
  Some (tt, set_out (out w ++ pan_calls w ++ tilt_calls w ++ [Serial_println newline]) w).
Proof.
  unfold updateServos, pan_calls, tilt_calls, POSITION_DEBUG.
  run. fold (exceeds_dead_band (old_pan_pos w) (pan_pos w)).
  destruct (exceeds_dead_band (old_pan_pos w) (pan_pos w)); cbn [when]; run;
    fold (exceeds_dead_band (old_tilt_pos w) (tilt_pos w));
    destruct (exceeds_dead_band (old_tilt_pos w) (tilt_pos w)); cbn [when]; run;
    repeat rewrite <- app_assoc; reflexivity.
Qed.

(** On angles of the servo range the test is the dead-band of one degree
    around the remembered angle. *)
Lemma exceeds_dead_band_iff (old new : Z) :
  -1000 <= old <= 1000 -> -1000 <= new <= 1000 ->
  (exceeds_dead_band old new = true <-> 1 < Z.abs (old - new)).
Proof.
  intros Ho Hn. unfold exceeds_dead_band, Arduino.abs.
  rewrite (to_int_small (old - new)) by lia.
  destruct (old - new >? 0) eqn:E.
  - rewrite Z.gtb_lt. lia.
  - rewrite to_int_small by lia. rewrite Z.gtb_lt. lia.
Qed.

Lemma wp_updateServos (Q : unit -> World -> Prop) w :
  Q tt (set_out (out w ++ pan_calls w ++ tilt_calls w ++ [Serial_println newline]) w) ->
  wp updateServos Q w.
Proof.
  intros H a w' E. rewrite updateServos_eq in E. inversion E; subst.
  exact H.
Qed.

(** ** [colorWipe] and the pixel loop *)

(** Two worlds with the same fields are the same world. *)
Lemma world_ext (w1 w2 : World) :
  tilt_pos w1 = tilt_pos w2 -> pan_pos w1 = pan_pos w2 ->
  run_mode w1 = run_mode w2 -> laser_brightness w1 = laser_brightness w2 ->
  button_was_pressed w1 = button_was_pressed w2 ->
  last_button_check w1 = last_button_check w2 ->
  auto_statics w1 = auto_statics w2 ->
  old_pan_pos w1 = old_pan_pos w2 -> old_tilt_pos w1 = old_tilt_pos w2 ->
  millis_in w1 = millis_in w2 -> button_in w1 = button_in w2 ->
  pan_pot_in w1 = pan_pot_in w2 -> tilt_pot_in w1 = tilt_pot_in w2 ->
  random_in w1 = random_in w2 -> out w1 = out w2 ->
  w1 = w2.
Proof.
  destruct w1, w2. wsimpl. intros. subst. reflexivity.
Qed.

(** A loop whose body only makes calls returns, and appends them in order. *)
Lemma for_each_calls {A} (l : list A) (calls : A -> list Event) (body : A -> M unit) :
  (forall x w, body x w = Some (tt, set_out (out w ++ calls x) w)) ->
  forall w, for_each l body w = Some (tt, set_out (out w ++ flat_map calls l) w).
Proof.
  intros Hbody. induction l as [|x l IH]; intros w.
  - cbn [for_each flat_map]. unfold ret. rewrite app_nil_r.
    destruct w; reflexivity.
  - cbn [for_each flat_map]. unfold bind. rewrite Hbody, IH. wsimpl.
    rewrite <- app_assoc. reflexivity.
Qed.

Lemma colorWipe_eq (color : Color) (wait : Z) (w : World) :
  colorWipe color wait w = Some (tt, set_out (out w ++ wipe_calls color wait) w).
Proof.
  unfold colorWipe, wipe_calls. apply for_each_calls.
  intros i w0. unfold bind, emit, modify. wsimpl.
  repeat rewrite <- app_assoc. reflexivity.
Qed.

Lemma wp_colorWipe (color : Color) (wait : Z) (Q : unit -> World -> Prop) w :
  Q tt (set_out (out w ++ wipe_calls color wait) w) ->
  wp (colorWipe color wait) Q w.
Proof.
  intros H a w' E. rewrite colorWipe_eq in E. inversion E; subst.
  exact H.
Qed.

Lemma paint_eq (color : Color) (w : World) :
  for_each pixel_indices (fun i => emit (strip_setPixelColor i color)) w =
  Some (tt, set_out (out w ++ paint_calls color) w).
Proof.
  unfold paint_calls. apply for_each_calls. intros i w0. reflexivity.
Qed.

(** ** The hold loop *)

(** When the hold loop returns, it has taken as many samples of the tilt
    sensor as of the button, has forwarded each to the laser, has changed
    nothing else, and the button is up unless it was not down before. *)
Lemma wp_checkButton_hold (fuel : nat) (pressed was : bool)
      (Q : bool -> World -> Prop) w :
  (forall samples levels rest_t rest_b final,
      tilt_pot_in w = samples ++ rest_t ->
      button_in w = levels ++ rest_b ->
      List.length samples = List.length levels ->
      final && was = false ->
      (samples = [] -> final = pressed) ->
      Q final (set_button_in rest_b
                 (set_tilt_pot_in rest_t
                    (set_out (out w ++ List.map hold_call samples) w)))) ->
  wp (checkButton_hold fuel pressed was) Q w.
Proof.
  revert pressed Q w. induction fuel as [|fuel IH]; intros pressed Q w H.
  - cbn [checkButton_hold]. destruct (pressed && was) eqn:Ec.
    + intros a w' E. discriminate.
    + apply wp_ret.
      specialize (H [] [] (tilt_pot_in w) (button_in w) pressed
                    eq_refl eq_refl eq_refl Ec (fun _ => eq_refl)).
      cbn [List.map] in H. rewrite app_nil_r in H. destruct w; exact H.
  - cbn [checkButton_hold]. destruct (pressed && was) eqn:Ec.
    + apply wp_bind, wp_analogRead_TILT. intros v rest_t Et.
      apply wp_bind, wp_emit. apply wp_bind, wp_digitalRead_BUTTON.
      intros b rest_b Eb. wsimpl.
      apply IH. intros samples levels rest_t' rest_b' final Et' Eb' Hlen Hf _.
      wsimpl.
      specialize (H (v :: samples) (b :: levels) rest_t' rest_b' final).
      cbn [List.map app List.length] in H. rewrite <- app_assoc.
      apply H; try assumption.
      * rewrite Et, Et'. reflexivity.
      * rewrite Eb, Eb'. reflexivity.
      * f_equal. exact Hlen.
      * discriminate.
    + apply wp_ret.
      specialize (H [] [] (tilt_pot_in w) (button_in w) pressed
                    eq_refl eq_refl eq_refl Ec (fun _ => eq_refl)).
      cbn [List.map] in H. rewrite app_nil_r in H. destruct w; exact H.
Qed.

(** *** Readings, when the queue has one *)

Lemma analogRead_PAN_eq (w : World) (v : Z) (rest : list Z) :
  pan_pot_in w = v :: rest -> analogRead PAN_POT w = Some (v, set_pan_pot_in rest w).
Proof. intros H. unfold analogRead. rewrite H. reflexivity. Qed.

Lemma analogRead_TILT_eq (w : World) (v : Z) (rest : list Z) :
  tilt_pot_in w = v :: rest -> analogRead TILT_POT w = Some (v, set_tilt_pot_in rest w).
Proof. intros H. unfold analogRead. rewrite H. reflexivity. Qed.

Lemma raw_random_eq (w : World) (r : Z) (rest : list Z) :
  random_in w = r :: rest -> raw_random w = Some (r, set_random_in rest w).
Proof. intros H. unfold raw_random. rewrite H. reflexivity. Qed.

(** ** The transition made on release *)

Lemma release_from_normal (w : World) :
  run_mode w = MODE_NORMAL ->
  checkButton_release w =
  Some (tt, set_run_mode MODE_AUTO
              (set_out (out w ++ [Serial_println "Button pressed!";
                                  Serial_println_int MODE_NORMAL;
                                  Serial_println "Entering auto mode";
                                  digitalWrite LED true]) w)).
Proof.
  intros Hm. unfold checkButton_release. run.
  rewrite Hm. change (MODE_NORMAL =? MODE_NORMAL) with true. cbv iota. run.
  repeat rewrite <- app_assoc. reflexivity.
Qed.

Lemma release_from_auto (w : World) (p t : Z) (ps ts : list Z) :
  run_mode w = MODE_AUTO ->
  pan_pot_in w = p :: ps -> tilt_pot_in w = t :: ts ->
  checkButton_release w =
  Some (tt, set_run_mode MODE_LED
              (set_out (out w ++ [Serial_println "Button pressed!";
                                  Serial_println_int MODE_AUTO;
                                  Serial_println "Entering LED mode";
                                  digitalWrite LED false]
                              ++ wipe_calls (led_color p t) 40)
                 (set_tilt_pot_in ts (set_pan_pot_in ps w)))).
Proof.
  intros Hm Hp Ht.
  unfold checkButton_release. run.
  rewrite Hm. change (MODE_AUTO =? MODE_NORMAL) with false.
  change (MODE_AUTO =? MODE_AUTO) with true. cbv iota. run.
  erewrite bind_eq by (apply analogRead_PAN_eq; wsimpl; exact Hp). wsimpl.
  erewrite bind_eq by (apply analogRead_TILT_eq; wsimpl; exact Ht). wsimpl.
  erewrite bind_eq by apply colorWipe_eq. run.
  repeat rewrite <- app_assoc. reflexivity.
Qed.

Lemma release_from_led (w : World) :
  run_mode w = MODE_LED ->
  checkButton_release w =
  Some (tt, set_run_mode MODE_NORMAL
              (set_out (out w ++ [Serial_println "Button pressed!";
                                  Serial_println_int MODE_LED;
                                  Serial_println "Entering normal mode"]
                              ++ wipe_calls (Color_rgb 0 0 0) 40) w)).
Proof.
  intros Hm.
  unfold checkButton_release. run.
  rewrite Hm. change (MODE_LED =? MODE_NORMAL) with false.
  change (MODE_LED =? MODE_AUTO) with false.
  change (MODE_LED =? MODE_LED) with true. cbv iota. run.
  erewrite bind_eq by apply colorWipe_eq. run.
  repeat rewrite <- app_assoc. reflexivity.
Qed.

Lemma release_invalid (w : World) :
  ~ valid_mode (run_mode w) ->
  checkButton_release w =
  Some (tt, set_out (out w ++ [Serial_println "Button pressed!";
                               Serial_println_int (run_mode w);
                               Serial_println "Invalid case"]) w).
Proof.
  intros Hm. unfold valid_mode in Hm.
  unfold checkButton_release. run.
  destruct (run_mode w =? MODE_NORMAL) eqn:E0; [apply Z.eqb_eq in E0; tauto|].
  destruct (run_mode w =? MODE_AUTO) eqn:E1; [apply Z.eqb_eq in E1; tauto|].
  destruct (run_mode w =? MODE_LED) eqn:E2; [apply Z.eqb_eq in E2; tauto|].
  run. repeat rewrite <- app_assoc. reflexivity.
Qed.

(** ** What one part of a pass does to the world *)

Lemma releases_app (l1 l2 : list Event) :
  releases (l1 ++ l2) = (releases l1 + releases l2)%nat.
Proof. unfold releases. rewrite filter_app, length_app. reflexivity. Qed.

Lemma no_servo_ok (evs : list Event) :
  forallb (fun e => negb (is_servo_write e)) evs = true -> Forall servo_ok evs.
Proof.
  intros H. rewrite forallb_forall in H. apply Forall_forall. intros e He.
  specialize (H e He). destruct e; cbn in *; try exact I; discriminate.
Qed.

Lemma effect_refl (w : World) : effect w w.
Proof.
  split; [reflexivity|]. split; [auto|].
  exists []. rewrite app_nil_r. repeat split. intros _. constructor.
Qed.

Lemma effect_trans (w1 w2 w3 : World) : effect w1 w2 -> effect w2 w3 -> effect w1 w3.
Proof.
  intros (L1 & V1 & e1 & O1 & M1 & S1) (L2 & V2 & e2 & O2 & M2 & S2).
  split; [congruence|]. split; [auto|].
  exists (e1 ++ e2). split; [rewrite O2, O1, app_assoc; reflexivity|]. split.
  - rewrite releases_app, Nat.add_comm, Nat.iter_add, <- M1. exact M2.
  - intros Hv. apply Forall_app. auto.
Qed.

(** Sequencing two parts. *)
Lemma wp_bind_effect {A B} (c : M A) (k : A -> M B) (w0 w : World) :
  effect w0 w ->
  (forall w1, wp c (fun _ w2 => effect w1 w2) w1) ->
  (forall a w1, wp (k a) (fun _ w2 => effect w1 w2) w1) ->
  wp (bind c k) (fun _ w2 => effect w0 w2) w.
Proof.
  intros H0 Hc Hk. apply wp_bind. intros a w1 E1 b w2 E2.
  eapply effect_trans; [exact H0|].
  eapply effect_trans; [exact (Hc w a w1 E1)|exact (Hk a w1 b w2 E2)].
Qed.

Lemma pan_calls_ok (w : World) :
  MIN_PAN <= pan_pos w <= MAX_PAN -> Forall servo_ok (pan_calls w).
Proof.
  intros H. unfold pan_calls. destruct (exceeds_dead_band _ _).
  - constructor; [exact H|]. repeat (constructor; [exact I|]). constructor.
  - constructor.
Qed.

Lemma tilt_calls_ok (w : World) :
  MIN_TILT <= tilt_pos w <= MAX_TILT -> Forall servo_ok (tilt_calls w).
Proof.
  intros H. unfold tilt_calls. destruct (exceeds_dead_band _ _).
  - constructor; [exact H|]. repeat (constructor; [exact I|]). constructor.
  - constructor.
Qed.

Lemma pan_calls_quiet (w : World) : releases (pan_calls w) = 0%nat.
Proof. unfold pan_calls. destruct (exceeds_dead_band _ _); reflexivity. Qed.

Lemma tilt_calls_quiet (w : World) : releases (tilt_calls w) = 0%nat.
Proof. unfold tilt_calls. destruct (exceeds_dead_band _ _); reflexivity. Qed.

(** Taking the head of a valid queue leaves a valid queue. *)
Lemma Forall_tail {A} (P : A -> Prop) (l : list A) (x : A) (rest : list A) :
  l = x :: rest -> Forall P l -> P x /\ Forall P rest.
Proof. intros -> H. inversion H; subst; auto. Qed.

(** Taking the heads the execution has read off the valid queues. *)
Ltac use_heads :=
  repeat match goal with
         | H : ?q = _ :: _, F : Forall _ ?q |- _ =>
             apply (Forall_tail _ _ _ _ H) in F; destruct F
         end.

Lemma Forall_app_intro {A} (P : A -> Prop) (l1 l2 : list A) :
  Forall P l1 -> Forall P l2 -> Forall P (l1 ++ l2).
Proof. intros H1 H2. apply Forall_app. split; assumption. Qed.

(** Splits a record of calls into its parts and discharges the calls that
    are not servo calls. *)
Ltac split_calls :=
  repeat first [ apply Forall_nil
               | apply Forall_cons; [exact I|]
               | apply Forall_app_intro ].

Lemma runNormalMode_effect (w : World) :
  wp runNormalMode (fun _ w' => effect w w') w.
Proof.
  unfold runNormalMode, POSITION_DEBUG. wp_run.
  apply wp_updateServos. wsimpl. wp_run.
  split; [reflexivity|]. split.
  - intros (Hp & Ht & Hr). unfold valid_inputs. wsimpl. use_heads. tauto.
  - eexists. split; [repeat rewrite <- app_assoc; reflexivity|]. split.
    + repeat rewrite releases_app.
      rewrite pan_calls_quiet, tilt_calls_quiet. reflexivity.
    + intros (Hp & Ht & Hr). use_heads. split_calls.
      * apply pan_calls_ok. wsimpl. apply manual_pan_range. assumption.
      * apply tilt_calls_ok. wsimpl. apply manual_tilt_range. assumption.
Qed.

(** ** Parts that make no servo call *)

Lemma quiet_effect_effect (k : nat) (w w' : World) :
  quiet_effect k w w' -> effect w w'.
Proof.
  intros (L & V & evs & O & R & S & Md).
  split; [exact L|]. split; [exact V|].
  exists evs. split; [exact O|]. split; [rewrite R; exact Md|].
  intros _. apply no_servo_ok, S.
Qed.

Lemma quiet_effect_refl (w : World) : quiet_effect 0 w w.
Proof.
  split; [reflexivity|]. split; [auto|].
  exists []. rewrite app_nil_r. repeat split.
Qed.

Lemma quiet_effect_trans (k1 k2 : nat) (w1 w2 w3 : World) :
  quiet_effect k1 w1 w2 -> quiet_effect k2 w2 w3 ->
  quiet_effect (k1 + k2) w1 w3.
Proof.
  intros (L1 & V1 & e1 & O1 & R1 & S1 & M1) (L2 & V2 & e2 & O2 & R2 & S2 & M2).
  split; [congruence|]. split; [auto|].
  exists (e1 ++ e2). split; [rewrite O2, O1, app_assoc; reflexivity|].
  split; [rewrite releases_app; congruence|].
  split; [unfold no_servo in *; rewrite forallb_app, S1, S2; reflexivity|].
  rewrite Nat.add_comm, Nat.iter_add, <- M1. exact M2.
Qed.

Lemma hold_calls_quiet (samples : list Z) :
  releases (List.map hold_call samples) = 0%nat /\
  no_servo (List.map hold_call samples) = true.
Proof.
  induction samples as [|x l [IH1 IH2]]; [split; reflexivity|].
  split; [exact IH1|exact IH2].
Qed.

Lemma wp_of_eq {A} (c : M A) (a : A) (w w1 : World) (Q : A -> World -> Prop) :
  c w = Some (a, w1) -> Q a w1 -> wp c Q w.
Proof. intros E H a' w' E'. rewrite E in E'. inversion E'; subst. exact H. Qed.

Ltac wp_call :=
  lazymatch goal with
  | |- wp updateServos _ _ => apply wp_updateServos
  | |- wp (colorWipe _ _) _ _ => apply wp_colorWipe
  | |- wp (for_each pixel_indices (fun i => emit (strip_setPixelColor i _))) _ _ =>
      eapply wp_of_eq; [apply paint_eq|]
  end; wsimpl.

Ltac wp_go := repeat first [ wp_step | wp_call ].

Lemma runLEDMode_effect (w : World) :
  wp runLEDMode (fun _ w' => quiet_effect 0 w w') w.
Proof.
  unfold runLEDMode. wp_go.
  split; [reflexivity|]. split.
  - intros (Hp & Ht & Hr). unfold valid_inputs. wsimpl. use_heads. tauto.
  - eexists. split; [repeat rewrite <- app_assoc; reflexivity|].
    repeat split.
Qed.

(** ** [checkButton] *)

(** Handling a release keeps the statics and the button and clock queues,
    advances the mode once and makes no servo call. *)
Lemma checkButton_release_effect (w : World) :
  wp checkButton_release
     (fun _ w' => quiet_effect 1 w w' /\
                  button_was_pressed w' = button_was_pressed w /\
                  millis_in w' = millis_in w) w.
Proof.
  unfold checkButton_release. wp_go.
  - (* MODE_NORMAL *)
    apply Z.eqb_eq in H.
    split; [|split; reflexivity].
    split; [reflexivity|]. split; [auto|].
    eexists. split; [repeat rewrite <- app_assoc; reflexivity|].
    repeat split. wsimpl.
      change (Nat.iter 1 next_mode (run_mode w)) with (next_mode (run_mode w)).
      unfold next_mode. rewrite H. reflexivity.
  - (* MODE_AUTO *)
    apply Z.eqb_eq in H0.
    split; [|split; reflexivity].
    split; [reflexivity|]. split.
    + intros (Hp & Ht & Hr). unfold valid_inputs. wsimpl. use_heads. tauto.
    + eexists. split; [repeat rewrite <- app_assoc; reflexivity|].
      repeat split. wsimpl.
      change (Nat.iter 1 next_mode (run_mode w)) with (next_mode (run_mode w)).
      unfold next_mode. rewrite H0. reflexivity.
  - (* MODE_LED *)
    apply Z.eqb_eq in H1.
    split; [|split; reflexivity].
    split; [reflexivity|]. split; [auto|].
    eexists. split; [repeat rewrite <- app_assoc; reflexivity|].
    repeat split. wsimpl.
      change (Nat.iter 1 next_mode (run_mode w)) with (next_mode (run_mode w)).
      unfold next_mode. rewrite H1. reflexivity.
  - (* any other value *)
    split; [|split; reflexivity].
    split; [reflexivity|]. split; [auto|].
    eexists. split; [repeat rewrite <- app_assoc; reflexivity|].
    repeat split. wsimpl.
      change (Nat.iter 1 next_mode (run_mode w)) with (next_mode (run_mode w)).
      unfold next_mode. rewrite H, H0, H1. reflexivity.
Qed.

Lemma checkButton_effect (w : World) :
  wp checkButton
     (fun _ w' => quiet_effect (if released w w' then 1 else 0) w w') w.
Proof.
  unfold checkButton.
  apply wp_bind.
  apply (wp_conseq _ (fun last w1 =>
           quiet_effect 0 w w1 /\ button_was_pressed w1 = button_was_pressed w)).
  { unfold checkButton_statics. wp_go.
    destruct (last_button_check w) as [t|].
    - wp_go. split; [apply quiet_effect_refl|reflexivity].
    - wp_go. split; [|reflexivity].
      split; [reflexivity|]. split; [auto|].
      exists []. rewrite app_nil_r. repeat split. }
  intros last w1 [Q1 B1].
  cut (wp (now <- millis ;;
           (if to_ulong (now - last) >? BUTTON_CHECK_INTERVAL
            then
              level <- digitalRead_BUTTON ;;
              was_pressed <- gets button_was_pressed ;;
              fuel <- gets (fun w => List.length (button_in w)) ;;
              button_pressed <- checkButton_hold fuel (negb level) was_pressed ;;
              when (negb button_pressed && was_pressed) checkButton_release ;;
              t <- millis ;;
              modify (set_last_button_check (Some (to_long t))) ;;
              modify (set_button_was_pressed button_pressed)
            else ret tt))
          (fun _ w' => quiet_effect (if released w1 w' then 1 else 0) w1 w') w1).
  { intros H a w' E. specialize (H a w' E). cbv beta in H.
    unfold released in *. rewrite B1 in H.
    apply (quiet_effect_trans 0 _ _ _ _ Q1 H). }
  clear w Q1 B1. rename w1 into w.
  apply wp_bind, wp_millis. intros now rest Hnow.
  apply wp_if; intros Hel.
  - apply wp_bind, wp_digitalRead_BUTTON. intros level restb Hb. wsimpl.
    apply wp_bind, wp_gets. wsimpl. apply wp_bind, wp_gets. wsimpl.
    apply wp_bind, wp_checkButton_hold.
    intros samples levels rest_t rest_b final Et Eb Hlen Hfinal _. wsimpl.
    assert (Hhold : quiet_effect 0 w
              (set_button_in rest_b
                 (set_tilt_pot_in rest_t
                    (set_out (out w ++ List.map hold_call samples)
                       (set_button_in restb (set_millis_in rest w)))))).
    { split; [reflexivity|]. split.
      - intros (Hp & Ht & Hr). unfold valid_inputs. wsimpl.
        rewrite Et in Ht. apply Forall_app in Ht. tauto.
      - eexists. split; [reflexivity|].
        destruct (hold_calls_quiet samples) as [R S]. repeat split; assumption. }
    set (w1 := set_button_in rest_b _) in *.
    assert (Bw1 : button_was_pressed w1 = button_was_pressed w) by reflexivity.
    clearbody w1.
    apply wp_bind. apply wp_when; intros Hrel.
    + (* a release is handled *)
      eapply wp_conseq; [apply checkButton_release_effect|].
      intros _ w2 (Q2 & B2 & M2). cbv beta.
      wp_go.
      apply andb_prop in Hrel. destruct Hrel as [Hup Hwas].
      apply negb_true_iff in Hup. subst final.
      unfold released. wsimpl. rewrite Hwas. cbn [negb andb].
      apply (quiet_effect_trans 0 1 _ _ _ Hhold).
      apply (quiet_effect_trans 1 0 _ _ _ Q2).
      split; [reflexivity|]. split; [auto|].
      exists []. wsimpl. rewrite app_nil_r. repeat split.
    + (* no release *)
      wp_go.
      assert (Hno : released w
                (set_button_was_pressed final
                   (set_last_button_check (Some (to_long t))
                      (set_millis_in rest0 w1))) = false).
      { unfold released. wsimpl.
        destruct (button_was_pressed w), final; cbn in *; congruence. }
      rewrite Hno.
      apply (quiet_effect_trans 0 0 _ _ _ Hhold).
      split; [reflexivity|]. split; [auto|].
      exists []. wsimpl. rewrite app_nil_r. repeat split.
  - (* the window has not elapsed *)
    apply wp_ret.
    assert (Hno : released w (set_millis_in rest w) = false).
    { unfold released. wsimpl. destruct (button_was_pressed w); reflexivity. }
    rewrite Hno.
    split; [reflexivity|]. split; [auto|].
    exists []. wsimpl. rewrite app_nil_r. repeat split.
Qed.

(** ** [runAutoMode]: the draw of the target *)

Lemma random_eq (lo hi : Z) (w : World) (r : Z) (rest : list Z) :
  lo < hi -> -1000000 <= lo -> hi <= 1000000 ->
  random_in w = r :: rest ->
  random lo hi w = Some (to_long (Z.rem r (hi - lo) + lo), set_random_in rest w).
Proof.
  intros Hlt Hlo Hhi Hq. unfold random.
  destruct (lo >=? hi) eqn:Ege; [lia|].
  rewrite (to_long_small (hi - lo)) by lia.
  destruct (hi - lo =? 0) eqn:Ez; [lia|].
  erewrite bind_eq by (apply raw_random_eq; exact Hq). reflexivity.
Qed.

Lemma runAutoMode_target_eq (w : World) (r1 r2 : Z) (rest : list Z) :
  random_in w = r1 :: r2 :: rest -> valid_raw r1 -> valid_raw r2 ->
  runAutoMode_target w = Some (target_of r1 r2, set_random_in rest w).
Proof.
  intros Hq H1 H2.
  pose proof (random_value_range r1 23 150 H1 ltac:(lia) ltac:(lia) ltac:(lia)) as Hp.
  pose proof (random_value_range r2 24 37 H2 ltac:(lia) ltac:(lia) ltac:(lia)) as Ha.
  pose proof (random_value_range r2 12 37 H2 ltac:(lia) ltac:(lia) ltac:(lia)) as Hb.
  pose proof (random_value_range r2 2 37 H2 ltac:(lia) ltac:(lia) ltac:(lia)) as Hc.
  pose proof (random_upto_range r1 127 H1 ltac:(lia)) as Bp.
  pose proof (random_upto_range r2 13 H2 ltac:(lia)) as Ba.
  pose proof (random_upto_range r2 25 H2 ltac:(lia)) as Bb.
  pose proof (random_upto_range r2 35 H2 ltac:(lia)) as Bc.
  unfold Arduino.random_upto in *.
  unfold runAutoMode_target, target_of, MIN_PAN, MAX_PAN, MIN_TILT, MAX_TILT.
  erewrite bind_eq by (apply random_eq; [lia|lia|lia|exact Hq]).
  change (150 - 23) with 127.
  rewrite (to_long_small (Z.rem r1 127 + 23)) by lia.
  rewrite (to_int_small (Z.rem r1 127 + 23)) by lia.
  destruct (Z.rem r1 127 + 23 >=? 144);
    [|destruct (Z.rem r1 127 + 23 <=? 54)].
  - erewrite bind_eq by (apply random_eq; [lia|lia|lia|reflexivity]).
    change (37 - 24) with 13. rewrite to_long_small, to_int_small by lia.
    reflexivity.
  - erewrite bind_eq by (apply random_eq; [lia|lia|lia|reflexivity]).
    change (37 - 12) with 25. rewrite to_long_small, to_int_small by lia.
    reflexivity.
  - erewrite bind_eq by (apply random_eq; [lia|lia|lia|reflexivity]).
    change (37 - 2) with 35. rewrite to_long_small, to_int_small by lia.
    reflexivity.
Qed.

(** The ranges the target falls in: the pan target in [23 .. 149], the tilt
    target in the part of [2 .. 36] that the pan target selects. *)
Lemma target_of_range (r1 r2 : Z) :
  valid_raw r1 -> valid_raw r2 ->
  let (p, t) := target_of r1 r2 in
  MIN_PAN <= p <= MAX_PAN - 1 /\
  (144 <= p -> 24 <= t <= MAX_TILT - 1) /\
  (p <= 54 -> 12 <= t <= MAX_TILT - 1) /\
  (54 < p < 144 -> MIN_TILT <= t <= MAX_TILT - 1).
Proof.
  intros H1 H2. unfold target_of, MIN_PAN, MAX_PAN, MIN_TILT, MAX_TILT.
  pose proof (random_upto_range r1 127 H1 ltac:(lia)) as Bp.
  pose proof (random_upto_range r2 13 H2 ltac:(lia)) as Ba.
  pose proof (random_upto_range r2 25 H2 ltac:(lia)) as Bb.
  pose proof (random_upto_range r2 35 H2 ltac:(lia)) as Bc.
  unfold Arduino.random_upto in *.
  destruct (Z.rem r1 127 + 23 >=? 144) eqn:E1;
    [|destruct (Z.rem r1 127 + 23 <=? 54) eqn:E2]; lia.
Qed.

Lemma wp_runAutoMode_target (Q : Z * Z -> World -> Prop) w :
  Forall valid_raw (random_in w) ->
  (forall r1 r2 rest, random_in w = r1 :: r2 :: rest ->
     valid_raw r1 -> valid_raw r2 -> Forall valid_raw rest ->
     Q (target_of r1 r2) (set_random_in rest w)) ->
  wp runAutoMode_target Q w.
Proof.
  intros Hv H a w' E.
  destruct (random_in w) as [|r1 [|r2 rest]] eqn:Hq.
  - unfold runAutoMode_target, random, bind, raw_random in E.
    cbn in E. rewrite Hq in E. discriminate.
  - exfalso. inversion Hv as [|? ? H1 _]; subst.
    pose proof (random_value_range r1 23 150 H1 ltac:(lia) ltac:(lia) ltac:(lia)) as Hp.
    unfold runAutoMode_target, random, bind, ret, raw_random,
      MIN_PAN, MAX_PAN, MIN_TILT, MAX_TILT in E.
    cbn in E. rewrite Hq in E. wsimpl.
    destruct (_ >=? 144) in E; [|destruct (_ <=? 54) in E]; cbn in E; discriminate.
  - inversion Hv as [|? ? H1 Hv']; subst. inversion Hv' as [|? ? H2 Hv'']; subst.
    rewrite (runAutoMode_target_eq w r1 r2 rest Hq H1 H2) in E.
    inversion E; subst. apply H; auto.
Qed.

(** ** [runAutoMode]: bursts *)

Lemma flipped_inv (s : AutoStatics) (r : Z) :
  burst_inv s -> valid_raw r ->
  burst_inv (flipped s r) /\ burst_count (flipped s r) = 0 /\
  rapid_mode (flipped s r) = negb (rapid_mode s) /\
  burst_count (flipped s r) < burst_ceiling (flipped s r).
Proof.
  intros (C & I & B) Hr.
  pose proof (random_upto_range r 5 Hr ltac:(lia)) as Hd.
  unfold Arduino.random_upto in Hd.
  unfold burst_inv, ceilings_ok, burst_count, burst_ceiling, idle_count, flipped,
    MIN_RAPID_MOVES, MAX_RAPID_MOVES, MIN_NORMAL_MOVES, MAX_NORMAL_MOVES in *.
  destruct (rapid_mode s) eqn:Em; wsimpl; repeat split; lia.
Qed.

(** The quota tests: nothing happens while the burst is short of its
    ceiling; at the ceiling one raw draw is taken and the cadence flips. *)
Lemma wp_runAutoMode_quota (s : AutoStatics) (Q : AutoStatics -> World -> Prop) w :
  burst_inv s -> Forall valid_raw (random_in w) ->
  (burst_count s < burst_ceiling s -> Q s w) ->
  (forall r rest, burst_count s = burst_ceiling s ->
     random_in w = r :: rest -> valid_raw r -> Forall valid_raw rest ->
     Q (flipped s r) (set_random_in rest w)) ->
  wp (runAutoMode_quota s) Q w.
Proof.
  intros (C & I & B) Hv Hstay Hflip.
  unfold burst_inv, ceilings_ok, burst_count, burst_ceiling, idle_count, flipped,
    MIN_RAPID_MOVES, MAX_RAPID_MOVES, MIN_NORMAL_MOVES, MAX_NORMAL_MOVES in *.
  unfold runAutoMode_quota, MIN_RAPID_MOVES, MAX_RAPID_MOVES,
    MIN_NORMAL_MOVES, MAX_NORMAL_MOVES.
  destruct (rapid_mode s) eqn:Em.
  - (* rapid cadence *)
    apply wp_bind. apply wp_if; intros Hq.
    + apply wp_bind. apply wp_random; [lia|lia|lia|]. intros r rest Hr.
      pose proof (Forall_tail _ _ _ _ Hr Hv) as [Hr1 Hr2].
      pose proof (random_upto_range r 5 Hr1 ltac:(lia)) as Hd.
      unfold Arduino.random_upto in Hd.
      change (15 - 10) with 5 in *.
      rewrite (to_long_small (Z.rem r 5 + 10)) by lia.
      rewrite (to_int_small (Z.rem r 5 + 10)) by lia.
      apply wp_ret. wsimpl.
      destruct (cur_normal_moves s >=? normal_move_max s) eqn:Hn; [lia|].
      apply wp_ret. apply Hflip; auto. lia.
    + apply wp_ret. wsimpl.
      destruct (cur_normal_moves s >=? normal_move_max s) eqn:Hn; [lia|].
      apply wp_ret. apply Hstay. lia.
  - (* normal cadence *)
    apply wp_bind. apply wp_if; intros Hq; [lia|].
    apply wp_ret. apply wp_if; intros Hn.
    + apply wp_bind. apply wp_random; [lia|lia|lia|]. intros r rest Hr.
      pose proof (Forall_tail _ _ _ _ Hr Hv) as [Hr1 Hr2].
      pose proof (random_upto_range r 5 Hr1 ltac:(lia)) as Hd.
      unfold Arduino.random_upto in Hd.
      change (8 - 3) with 5 in *.
      rewrite (to_long_small (Z.rem r 5 + 3)) by lia.
      rewrite (to_int_small (Z.rem r 5 + 3)) by lia.
      apply wp_ret. apply Hflip; auto. lia.
    + apply wp_ret. apply Hstay. lia.
Qed.

Lemma moved_inv (s : AutoStatics) (r : Z) :
  burst_inv s -> burst_count s < burst_ceiling s ->
  burst_inv (moved s r) /\
  rapid_mode (moved s r) = rapid_mode s /\
  burst_count (moved s r) = burst_count s + 1 /\
  burst_ceiling (moved s r) = burst_ceiling s.
Proof.
  intros (C & I & B) Hlt.
  unfold burst_inv, ceilings_ok, burst_count, burst_ceiling, idle_count, moved in *.
  destruct (rapid_mode s) eqn:Em; wsimpl; rewrite Em; repeat split; tauto || lia.
Qed.

(** The move: one clock reading when the interval has not elapsed; when it
    has, a raw draw for the next interval, two for the target, the six
    calls, and a second clock reading. *)
Lemma wp_runAutoMode_move (s : AutoStatics) (Q : AutoStatics -> World -> Prop) w :
  burst_inv s -> burst_count s < burst_ceiling s ->
  Forall valid_raw (random_in w) ->
  (forall now rest, millis_in w = now :: rest -> elapsed s now = false ->
     Q s (set_millis_in rest w)) ->
  (forall now t restm r0 r1 r2 restr,
     millis_in w = now :: t :: restm -> elapsed s now = true ->
     random_in w = r0 :: r1 :: r2 :: restr ->
     valid_raw r0 -> valid_raw r1 -> valid_raw r2 -> Forall valid_raw restr ->
     Q (set_last_move (to_long t) (moved s r0))
       (set_millis_in restm
          (set_random_in restr
             (set_out (out w ++ move_calls (target_of r1 r2)) w)))) ->
  wp (runAutoMode_move s) Q w.
Proof.
  intros Hinv Hlt Hv Hidle Hmove.
  pose proof Hinv as (C & I & B).
  unfold runAutoMode_move. apply wp_bind, wp_millis. intros now rest Hnow.
  fold (elapsed s now). apply wp_if; intros Hel.
  2:{ apply wp_ret. apply (Hidle now rest Hnow Hel). }
  apply wp_bind.
  apply (wp_conseq _ (fun s1 w1 =>
           exists r0 rest0, random_in w = r0 :: rest0 /\ valid_raw r0 /\
                            Forall valid_raw rest0 /\ s1 = moved s r0 /\
                            w1 = set_random_in rest0 (set_millis_in rest w))).
  { unfold burst_inv, ceilings_ok, burst_count, burst_ceiling, idle_count, moved,
      MIN_RAPID_MOVES, MAX_RAPID_MOVES, MIN_NORMAL_MOVES, MAX_NORMAL_MOVES,
      MIN_RAPID_INTERVAL, MAX_RAPID_INTERVAL, MIN_NORMAL_INTERVAL,
      MAX_NORMAL_INTERVAL in *.
    destruct (rapid_mode s) eqn:Em.
    - apply wp_bind. apply wp_random; [lia|lia|lia|]. intros r0 rest0 Hr0. wsimpl.
      pose proof (Forall_tail _ _ _ _ Hr0 Hv) as [V0 Vrest].
      pose proof (random_upto_range r0 700 V0 ltac:(lia)) as Hd.
      unfold Arduino.random_upto in Hd. change (800 - 100) with 700.
      apply wp_ret. exists r0, rest0.
      rewrite (to_long_small (Z.rem r0 700 + 100)) by lia.
      rewrite (to_int_small (Z.rem r0 700 + 100)) by lia.
      rewrite (to_int_small (cur_rapid_moves s + 1)) by lia.
      repeat (split; [assumption|]). split; reflexivity.
    - apply wp_bind. apply wp_random; [lia|lia|lia|]. intros r0 rest0 Hr0. wsimpl.
      pose proof (Forall_tail _ _ _ _ Hr0 Hv) as [V0 Vrest].
      pose proof (random_upto_range r0 3000 V0 ltac:(lia)) as Hd.
      unfold Arduino.random_upto in Hd. change (4000 - 1000) with 3000.
      apply wp_ret. exists r0, rest0.
      rewrite (to_long_small (Z.rem r0 3000 + 1000)) by lia.
      rewrite (to_int_small (Z.rem r0 3000 + 1000)) by lia.
      rewrite (to_int_small (cur_normal_moves s + 1)) by lia.
      repeat (split; [assumption|]). split; reflexivity. }
  intros s1 w1 (r0 & rest0 & Hr0 & V0 & Vrest & -> & ->).
  apply wp_bind. apply wp_runAutoMode_target; [exact Vrest|].
  intros r1 r2 restr Hq V1 V2 Vr. wsimpl.
  wp_run. rename t into t1.
  specialize (Hmove now t1 rest1 r0 r1 r2 restr).
  unfold move_calls in Hmove.
  match goal with
  | |- Q _ ?W =>
      replace W with
        (set_millis_in rest1
           (set_random_in restr
              (set_out (out w ++ [pan_write (fst (target_of r1 r2));
                                  tilt_write (snd (target_of r1 r2));
                                  Serial_print "Pan: ";
                                  Serial_print_int (fst (target_of r1 r2));
                                  Serial_print " Tilt: ";
                                  Serial_println_int (snd (target_of r1 r2))]) w)))
  end.
  - apply Hmove; try assumption.
    + rewrite Hnow. f_equal. assumption.
    + rewrite Hr0. f_equal. assumption.
  - apply world_ext; wsimpl; try reflexivity.
    repeat rewrite <- app_assoc. reflexivity.
Qed.

(** ** [runAutoMode]: one call *)

Lemma auto_step_from (rapid : bool) (n : Z) (w w1 w' : World) :
  laser_brightness w1 = laser_brightness w -> run_mode w1 = run_mode w ->
  pan_pot_in w1 = pan_pot_in w -> tilt_pot_in w1 = tilt_pot_in w ->
  out w1 = out w ->
  auto_step rapid n w1 w' -> auto_step rapid n w w'.
Proof.
  intros L M P T O (s' & A & I & V & L' & M' & P' & T' & evs & made & O' & R).
  exists s'. repeat (split; [congruence|]).
  exists evs, made. split; [congruence|exact R].
Qed.

(** The call after the statics are in hand. *)
Lemma runAutoMode_body (s : AutoStatics) (w : World) :
  burst_inv s -> Forall valid_raw (random_in w) ->
  wp (s1 <- runAutoMode_quota s ;;
      s2 <- runAutoMode_move s1 ;;
      modify (set_auto_statics (Some s2)))
     (fun _ w' => auto_step (rapid_mode s) (burst_count s) w w') w.
Proof.
  intros Hinv Hv.
  apply wp_bind. apply wp_runAutoMode_quota; [exact Hinv|exact Hv| |].
  - (* the burst goes on *)
    intros Hlt. apply wp_bind.
    apply wp_runAutoMode_move; [exact Hinv|exact Hlt|exact Hv| |].
    + intros now rest Hnow _. apply wp_modify.
      exists s. wsimpl. repeat (split; [assumption || reflexivity|]).
      exists [], 0. rewrite app_nil_r. split; [reflexivity|].
      split; [left; auto|]. rewrite Bool.eqb_reflx. lia.
    + intros now t restm r0 r1 r2 restr Hm _ Hr V0 V1 V2 Vr. apply wp_modify.
      destruct (moved_inv s r0 Hinv Hlt) as (I' & Em & Ec & _).
      exists (set_last_move (to_long t) (moved s r0)). wsimpl.
      split; [reflexivity|]. split; [exact I'|].
      repeat (split; [assumption || reflexivity|]).
      exists (move_calls (target_of r1 r2)), 1. split; [reflexivity|].
      split; [right; exists r1, r2; auto|].
      change (rapid_mode (set_last_move (to_long t) (moved s r0)))
        with (rapid_mode (moved s r0)).
      rewrite Em, Bool.eqb_reflx. exact Ec.
  - (* the burst has reached its quota *)
    intros r rest Hfull Hr Vr Vrest.
    destruct (flipped_inv s r Hinv Vr) as (If & Cf & Ef & Hlt).
    assert (Hquota : quota_drawn (rapid_mode s) (burst_count s)).
    { destruct Hinv as ((C1 & C2) & _ & _). rewrite Hfull.
      unfold quota_drawn, burst_ceiling. destruct (rapid_mode s); assumption. }
    assert (Hne : Bool.eqb (rapid_mode s) (rapid_mode (flipped s r)) = false).
    { rewrite Ef. destruct (rapid_mode s); reflexivity. }
    apply wp_bind.
    apply wp_runAutoMode_move; [exact If|exact Hlt|exact Vrest| |].
    + intros now rest' Hnow _. apply wp_modify.
      exists (flipped s r). wsimpl.
      repeat (split; [assumption || reflexivity|]).
      exists [], 0. rewrite app_nil_r. split; [reflexivity|].
      split; [left; auto|]. rewrite Hne. split; assumption.
    + intros now t restm r0 r1 r2 restr Hm _ Hr' V0 V1 V2 Vr'. apply wp_modify.
      destruct (moved_inv (flipped s r) r0 If Hlt) as (I' & Em & Ec & _).
      exists (set_last_move (to_long t) (moved (flipped s r) r0)). wsimpl.
      split; [reflexivity|]. split; [exact I'|].
      repeat (split; [assumption || reflexivity|]).
      exists (move_calls (target_of r1 r2)), 1. split; [reflexivity|].
      split; [right; exists r1, r2; auto|].
      change (rapid_mode (set_last_move (to_long t) (moved (flipped s r) r0)))
        with (rapid_mode (moved (flipped s r) r0)).
      rewrite Em, Hne. split; [exact Hquota|].
      change (burst_count (set_last_move (to_long t) (moved (flipped s r) r0)))
        with (burst_count (moved (flipped s r) r0)).
      lia.
Qed.

Lemma runAutoMode_call (w : World) :
  statics_inv w -> Forall valid_raw (random_in w) ->
  wp runAutoMode (fun _ w' => auto_step (cadence_of w) (count_of w) w w') w.
Proof.
  unfold statics_inv, cadence_of, count_of, runAutoMode. intros Hinv Hv.
  apply wp_bind. unfold runAutoMode_statics. apply wp_bind, wp_gets.
  destruct (auto_statics w) as [s|] eqn:Es.
  - apply wp_ret. apply runAutoMode_body; assumption.
  - apply wp_bind, wp_millis. intros t restm Ht.
    apply wp_bind. unfold MIN_RAPID_MOVES, MAX_RAPID_MOVES.
    apply wp_random; [lia|lia|lia|]. intros r1 rest1 Hr1. wsimpl.
    apply wp_bind. unfold MIN_NORMAL_MOVES, MAX_NORMAL_MOVES.
    apply wp_random; [lia|lia|lia|]. intros r2 rest2 Hr2. wsimpl.
    pose proof (Forall_tail _ _ _ _ Hr1 Hv) as [V1 Vrest1].
    pose proof (Forall_tail _ _ _ _ Hr2 Vrest1) as [V2 Vrest2].
    pose proof (random_upto_range r1 5 V1 ltac:(lia)) as B1.
    pose proof (random_upto_range r2 5 V2 ltac:(lia)) as B2.
    unfold Arduino.random_upto in B1, B2.
    change (15 - 10) with 5. change (8 - 3) with 5.
    rewrite (to_long_small (Z.rem r1 5 + 10)) by lia.
    rewrite (to_long_small (Z.rem r2 5 + 3)) by lia.
    rewrite (to_int_small (Z.rem r1 5 + 10)) by lia.
    rewrite (to_int_small (Z.rem r2 5 + 3)) by lia.
    apply wp_ret.
    set (s0 := mkAuto false (to_long t) 0 (Z.rem r1 5 + 10) (Z.rem r2 5 + 3) 0 0).
    assert (I0 : burst_inv s0).
    { unfold burst_inv, ceilings_ok, idle_count, burst_count, burst_ceiling, s0,
        MIN_RAPID_MOVES, MAX_RAPID_MOVES, MIN_NORMAL_MOVES, MAX_NORMAL_MOVES.
      wsimpl. lia. }
    eapply wp_conseq.
    + apply (runAutoMode_body s0); [exact I0|wsimpl; exact Vrest2].
    + intros u w' Hstep. cbv beta in Hstep.
      apply (auto_step_from _ _ w _ w') in Hstep; try reflexivity.
      exact Hstep.
Qed.

(** In Autonomous mode the servo calls are within the limits. *)
Lemma move_calls_ok (r1 r2 : Z) :
  valid_raw r1 -> valid_raw r2 -> Forall servo_ok (move_calls (target_of r1 r2)).
Proof.
  intros V1 V2. pose proof (target_of_range r1 r2 V1 V2) as H.
  destruct (target_of r1 r2) as [p t]. destruct H as (Hp & Ha & Hb & Hc).
  unfold move_calls. cbn [fst snd].
  assert (Ht : MIN_TILT <= t <= MAX_TILT)
    by (unfold MIN_PAN, MAX_PAN, MIN_TILT, MAX_TILT in *; lia).
  assert (Hp' : MIN_PAN <= p <= MAX_PAN) by lia.
  constructor; [exact Hp'|]. constructor; [exact Ht|].
  repeat (constructor; [exact I|]). constructor.
Qed.

(** ** Relations kept by every step *)

Section Stable.
Variable R : World -> World -> Prop.
Hypothesis R_refl : forall w, R w w.
Hypothesis R_trans : forall w1 w2 w3, R w1 w2 -> R w2 w3 -> R w1 w3.

Lemma stable_ret {A} (a : A) : stable R (ret a).
Proof. intros w. apply wp_ret, R_refl. Qed.

Lemma stable_gets {A} (f : World -> A) : stable R (gets f).
Proof. intros w. apply wp_gets, R_refl. Qed.

Lemma stable_bind {A B} (c : M A) (k : A -> M B) :
  stable R c -> (forall a, stable R (k a)) -> stable R (bind c k).
Proof.
  intros Hc Hk w. apply wp_bind. intros a w1 E1 b w2 E2.
  exact (R_trans _ _ _ (Hc w a w1 E1) (Hk a w1 b w2 E2)).
Qed.

Lemma stable_if {A} (b : bool) (c1 c2 : M A) :
  stable R c1 -> stable R c2 -> stable R (if b then c1 else c2).
Proof. destruct b; auto. Qed.

End Stable.

Lemma keeps_refl (w : World) : keeps w w.
Proof.
  repeat (split; [reflexivity|]). exists []. rewrite app_nil_r. split; reflexivity.
Qed.

Lemma keeps_trans (w1 w2 w3 : World) : keeps w1 w2 -> keeps w2 w3 -> keeps w1 w3.
Proof.
  intros (L1 & M1 & P1 & T1 & e1 & O1 & R1) (L2 & M2 & P2 & T2 & e2 & O2 & R2).
  repeat (split; [congruence|]).
  exists (e1 ++ e2). split; [rewrite O2, O1, app_assoc; reflexivity|].
  rewrite releases_app, R1, R2. reflexivity.
Qed.

Lemma keeps_inputs (w w' : World) :
  laser_brightness w' = laser_brightness w -> run_mode w' = run_mode w ->
  pan_pot_in w' = pan_pot_in w -> tilt_pot_in w' = tilt_pot_in w ->
  out w' = out w -> keeps w w'.
Proof.
  intros L Md P T O. repeat (split; [assumption|]).
  exists []. rewrite app_nil_r. split; [exact O|reflexivity].
Qed.

Lemma millis_keeps : stable keeps millis.
Proof.
  intros w. apply wp_millis. intros t rest _. apply keeps_inputs; reflexivity.
Qed.

Lemma raw_random_keeps : stable keeps raw_random.
Proof.
  intros w. apply wp_raw_random. intros t rest _. apply keeps_inputs; reflexivity.
Qed.

Lemma emit_keeps (e : Event) : is_release_line e = false -> stable keeps (emit e).
Proof.
  intros He w. apply wp_emit. repeat (split; [reflexivity|]).
  exists [e]. split; [reflexivity|]. unfold releases. cbn [filter].
  rewrite He. reflexivity.
Qed.

Lemma random_keeps (lo hi : Z) : stable keeps (random lo hi).
Proof.
  unfold random. apply stable_if; [apply stable_ret; exact keeps_refl|].
  cbv zeta. apply stable_if; [apply stable_ret; exact keeps_refl|].
  apply stable_bind; [exact keeps_trans|exact raw_random_keeps|].
  intros r. apply stable_ret; exact keeps_refl.
Qed.

Ltac keeps_go :=
  repeat lazymatch goal with
    | |- stable keeps (bind _ _) => apply stable_bind; [exact keeps_trans| |intros ?]
    | |- stable keeps (random _ _) => apply random_keeps
    | |- stable keeps millis => apply millis_keeps
    | |- stable keeps (emit _) => apply emit_keeps; reflexivity
    | |- stable keeps (ret _) => apply stable_ret; exact keeps_refl
    | |- stable keeps (gets _) => apply stable_gets; exact keeps_refl
    | |- stable keeps (if _ then _ else _) => apply stable_if
    end.

Lemma runAutoMode_quota_keeps (s : AutoStatics) : stable keeps (runAutoMode_quota s).
Proof. unfold runAutoMode_quota. keeps_go. Qed.

Lemma runAutoMode_target_keeps : stable keeps runAutoMode_target.
Proof. unfold runAutoMode_target. keeps_go. Qed.

Lemma runAutoMode_move_keeps (s : AutoStatics) : stable keeps (runAutoMode_move s).
Proof.
  unfold runAutoMode_move. keeps_go. apply runAutoMode_target_keeps.
Qed.

Lemma runAutoMode_keeps : stable keeps runAutoMode.
Proof.
  unfold runAutoMode.
  apply stable_bind; [exact keeps_trans| |intros s0].
  { unfold runAutoMode_statics.
    apply stable_bind; [exact keeps_trans|apply stable_gets; exact keeps_refl|].
    intros [s|]; keeps_go. }
  apply stable_bind; [exact keeps_trans|apply runAutoMode_quota_keeps|intros s1].
  apply stable_bind; [exact keeps_trans|apply runAutoMode_move_keeps|intros s2].
  intros w. apply wp_modify. apply keeps_inputs; reflexivity.
Qed.

Lemma guards_refl (w : World) : guards w w.
Proof.
  intros Hv. split; [exact Hv|]. exists []. rewrite app_nil_r.
  split; [reflexivity|constructor].
Qed.

Lemma guards_trans (w1 w2 w3 : World) : guards w1 w2 -> guards w2 w3 -> guards w1 w3.
Proof.
  intros H12 H23 Hv. destruct (H12 Hv) as (V2 & e1 & O1 & S1).
  destruct (H23 V2) as (V3 & e2 & O2 & S2). split; [exact V3|].
  exists (e1 ++ e2). split; [rewrite O2, O1, app_assoc; reflexivity|].
  apply Forall_app_intro; assumption.
Qed.

Lemma guards_inputs (w w' : World) :
  random_in w' = random_in w -> out w' = out w -> guards w w'.
Proof.
  intros Hr Ho Hv. split; [rewrite Hr; exact Hv|].
  exists []. rewrite app_nil_r. split; [exact Ho|constructor].
Qed.

Lemma millis_guards : stable guards millis.
Proof.
  intros w. apply wp_millis. intros t rest _. apply guards_inputs; reflexivity.
Qed.

Lemma raw_random_guards : stable guards raw_random.
Proof.
  intros w. apply wp_raw_random. intros r rest Hq Hv.
  apply (Forall_tail _ _ _ _ Hq) in Hv. split; [apply Hv|].
  exists []. wsimpl. rewrite app_nil_r. split; [reflexivity|constructor].
Qed.

Lemma emit_guards (e : Event) : is_servo_write e = false -> stable guards (emit e).
Proof.
  intros He w. apply wp_emit. intros Hv. split; [exact Hv|].
  exists [e]. split; [reflexivity|].
  constructor; [destruct e; try exact I; discriminate|constructor].
Qed.

Lemma random_guards (lo hi : Z) : stable guards (random lo hi).
Proof.
  unfold random. apply stable_if; [apply stable_ret; exact guards_refl|].
  cbv zeta. apply stable_if; [apply stable_ret; exact guards_refl|].
  apply stable_bind; [exact guards_trans|exact raw_random_guards|].
  intros r. apply stable_ret; exact guards_refl.
Qed.

Ltac guards_go :=
  repeat lazymatch goal with
    | |- stable guards (bind _ _) => apply stable_bind; [exact guards_trans| |intros ?]
    | |- stable guards (random _ _) => apply random_guards
    | |- stable guards millis => apply millis_guards
    | |- stable guards (emit _) => apply emit_guards; reflexivity
    | |- stable guards (ret _) => apply stable_ret; exact guards_refl
    | |- stable guards (gets _) => apply stable_gets; exact guards_refl
    | |- stable guards (if _ then _ else _) => apply stable_if
    end.

Lemma runAutoMode_quota_guards (s : AutoStatics) : stable guards (runAutoMode_quota s).
Proof. unfold runAutoMode_quota. guards_go. Qed.

(** The draw of the target followed by the two servo calls. *)
Lemma target_then_write_guards {A} (k : Z * Z -> M A) :
  (forall target, stable guards (k target)) ->
  stable guards (target <- runAutoMode_target ;;
                 emit (pan_write (fst target)) ;;
                 emit (tilt_write (snd target)) ;; k target).
Proof.
  intros Hk w a w' E Hv. revert a w' E.
  change (wp (target <- runAutoMode_target ;;
              emit (pan_write (fst target)) ;;
              emit (tilt_write (snd target)) ;; k target)
             (fun _ w' => Forall valid_raw (random_in w') /\
                          exists evs, out w' = out w ++ evs /\ Forall servo_ok evs) w).
  apply wp_bind. apply wp_runAutoMode_target; [exact Hv|].
  intros r1 r2 rest Hq V1 V2 Vr.
  pose proof (move_calls_ok r1 r2 V1 V2) as Hok. unfold move_calls in Hok.
  inversion Hok as [|? ? Hpan Hok1]; subst. inversion Hok1 as [|? ? Htilt _]; subst.
  wp_run. intros a w' E.
  destruct (Hk _ _ a w' E) as (V' & evs & O & S); [wsimpl; exact Vr|].
  split; [exact V'|]. wsimpl.
  exists ([pan_write (fst (target_of r1 r2))] ++
          [tilt_write (snd (target_of r1 r2))] ++ evs).
  split; [rewrite O; repeat rewrite <- app_assoc; reflexivity|].
  constructor; [exact Hpan|]. constructor; [exact Htilt|exact S].
Qed.

Lemma runAutoMode_move_guards (s : AutoStatics) : stable guards (runAutoMode_move s).
Proof.
  unfold runAutoMode_move.
  apply stable_bind; [exact guards_trans|apply millis_guards|intros now].
  apply stable_if; [|apply stable_ret; exact guards_refl].
  apply stable_bind; [exact guards_trans| |intros s1].
  { guards_go. }
  apply target_then_write_guards. intros target. guards_go.
Qed.

Lemma runAutoMode_guards : stable guards runAutoMode.
Proof.
  unfold runAutoMode.
  apply stable_bind; [exact guards_trans| |intros s0].
  { unfold runAutoMode_statics.
    apply stable_bind; [exact guards_trans|apply stable_gets; exact guards_refl|].
    intros [s|]; guards_go. }
  apply stable_bind; [exact guards_trans|apply runAutoMode_quota_guards|intros s1].
  apply stable_bind; [exact guards_trans|apply runAutoMode_move_guards|intros s2].
  intros w. apply wp_modify. apply guards_inputs; reflexivity.
Qed.

(** ** The effect of a pass of the loop *)

Lemma runAutoMode_effect (w : World) :
  wp runAutoMode (fun _ w' => effect w w') w.
Proof.
  intros a w' E.
  destruct (runAutoMode_keeps w a w' E) as (L & Md & P & T & evs & O & R).
  pose proof (runAutoMode_guards w a w' E) as G. cbv beta in G.
  split; [exact L|]. split.
  - intros (Hp & Ht & Hr). destruct (G Hr) as (V & _).
    unfold valid_inputs. rewrite P, T. auto.
  - exists evs. split; [exact O|]. split; [rewrite R; exact Md|].
    intros (_ & _ & Hr). destruct (G Hr) as (_ & evs' & O' & S).
    assert (evs' = evs) by (eapply app_inv_head; rewrite <- O, <- O'; reflexivity).
    subst evs'. exact S.
Qed.

(** The [switch (run_mode)] of [loop] runs the behaviour of the mode. *)
Lemma loop_effect (w : World) : wp loop (fun _ w' => effect w w') w.
Proof.
  unfold loop. apply wp_bind_effect; [apply effect_refl| |].
  - intros w1 a w2 E. eapply quiet_effect_effect.
    exact (checkButton_effect w1 a w2 E).
  - intros _ w1. apply wp_bind, wp_gets.
    repeat (apply wp_if; intros ?).
    + apply runNormalMode_effect.
    + apply runAutoMode_effect.
    + intros a w2 E. eapply quiet_effect_effect.
      exact (runLEDMode_effect w1 a w2 E).
    + apply wp_ret, effect_refl.
Qed.

Lemma loops_effect (n : nat) (w : World) : wp (loops n) (fun _ w' => effect w w') w.
Proof.
  revert w. induction n as [|n IH]; intros w; cbn [loops].
  - apply wp_ret, effect_refl.
  - apply wp_bind_effect; [apply effect_refl| |].
    + intros w1. apply loop_effect.
    + intros _ w1. apply IH.
Qed.

(** ** Bursts, counted on the record of calls *)

Lemma calls_since_app (w w' : World) (evs : list Event) :
  out w' = out w ++ evs -> calls_since w w' = evs.
Proof.
  intros O. unfold calls_since. rewrite O.
  rewrite skipn_app, skipn_all, Nat.sub_diag. reflexivity.
Qed.

Lemma moves_made (evs : list Event) (made : Z) : made_by evs made -> moves evs = made.
Proof.
  intros [[-> ->]|(r1 & r2 & _ & _ & -> & ->)]; reflexivity.
Qed.

(** Every burst that ends has made exactly a drawn quota of moves. *)
Lemma bursts_quota (n : nat) :
  forall (w wf : World) (count : Z) (l : list (bool * Z)),
    statics_inv w -> Forall valid_raw (random_in w) -> count = count_of w ->
    bursts n count w = Some (l, wf) ->
    Forall (fun b => quota_drawn (fst b) (snd b)) l.
Proof.
  induction n as [|n IH]; intros w wf count l Hinv Hv Hc Hb; cbn [bursts] in Hb.
  - inversion Hb; subst. constructor.
  - destruct (runAutoMode w) as [[u w']|] eqn:E; [|discriminate].
    destruct (runAutoMode_call w Hinv Hv u w' E)
      as (s' & A & I & V & _ & _ & _ & _ & evs & made & O & Mk & Hcase).
    rewrite (calls_since_app w w' evs O), (moves_made evs made Mk) in Hb.
    assert (Hinv' : statics_inv w') by (unfold statics_inv; rewrite A; exact I).
    assert (Hcad : cadence_of w' = rapid_mode s') by (unfold cadence_of; rewrite A; reflexivity).
    assert (Hcnt : count_of w' = burst_count s') by (unfold count_of; rewrite A; reflexivity).
    rewrite Hcad in Hb.
    destruct (Bool.eqb (cadence_of w) (rapid_mode s')).
    + apply (IH w' wf (count + made) l Hinv' V); [|exact Hb].
      rewrite Hcnt, Hcase, Hc. reflexivity.
    + destruct Hcase as [Hq Hm].
      destruct (bursts n made w') as [[l' wf']|] eqn:Eb; [|discriminate].
      injection Hb as <- <-. constructor.
      * cbn [fst snd]. rewrite Hc. exact Hq.
      * apply (IH w' wf' made l' Hinv' V); [|exact Eb].
        rewrite Hcnt. symmetry. exact Hm.
Qed.

Lemma runAutoMode_quota_cases (s s' : AutoStatics) (w w' : World) :
  burst_inv s -> Forall valid_raw (random_in w) ->
  runAutoMode_quota s w = Some (s', w') ->
  (burst_count s < burst_ceiling s /\ s' = s /\ w' = w) \/
  (burst_count s = burst_ceiling s /\
   exists r rest, random_in w = r :: rest /\ valid_raw r /\
                  s' = flipped s r /\ w' = set_random_in rest w).
Proof.
  intros Hinv Hv E. revert s' w' E.
  change (wp (runAutoMode_quota s)
             (fun s' w' =>
                (burst_count s < burst_ceiling s /\ s' = s /\ w' = w) \/
                (burst_count s = burst_ceiling s /\
                 exists r rest, random_in w = r :: rest /\ valid_raw r /\
                                s' = flipped s r /\ w' = set_random_in rest w)) w).
  apply wp_runAutoMode_quota; [exact Hinv|exact Hv| |].
  - intros Hlt. left. auto.
  - intros r rest Hfull Hq Vr _. right. split; [exact Hfull|].
    exists r, rest. auto.
Qed.

Lemma runNormalMode_keeps_mode (w w' : World) :
  runNormalMode w = Some (tt, w') -> run_mode w' = run_mode w.
Proof.
  intros E.
  enough (H : wp runNormalMode (fun _ w1 => run_mode w1 = run_mode w) w)
    by exact (H tt w' E).
  unfold runNormalMode, POSITION_DEBUG. wp_go. reflexivity.
Qed.

Lemma next_mode_invalid (m : Z) (k : nat) :
  ~ valid_mode m -> Nat.iter k next_mode m = m.
Proof.
  intros Hm. induction k as [|k IH]; [reflexivity|].
  cbn [Nat.iter nat_rect]. change (nat_rect _ m (fun _ => next_mode) k)
    with (Nat.iter k next_mode m). rewrite IH.
  unfold valid_mode in Hm. unfold next_mode.
  destruct (m =? MODE_NORMAL) eqn:E0; [apply Z.eqb_eq in E0; tauto|].
  destruct (m =? MODE_AUTO) eqn:E1; [apply Z.eqb_eq in E1; tauto|].
  destruct (m =? MODE_LED) eqn:E2; [apply Z.eqb_eq in E2; tauto|].
  reflexivity.
Qed.

(** With a mode out of range no behaviour runs: the pass is the button
    monitor alone. *)
Lemma loop_invalid_mode (w : World) :
  ~ valid_mode (run_mode w) -> loop w = checkButton w.
Proof.
  intros Hm. unfold loop, bind.
  destruct (checkButton w) as [[u w1]|] eqn:E; [|reflexivity].
  destruct (checkButton_effect w u w1 E) as (_ & _ & evs & _ & _ & _ & Md).
  rewrite (next_mode_invalid _ _ Hm) in Md.
  unfold valid_mode in Hm. rewrite <- Md in Hm. unfold gets.
  destruct (run_mode w1 =? MODE_NORMAL) eqn:E0; [apply Z.eqb_eq in E0; tauto|].
  destruct (run_mode w1 =? MODE_AUTO) eqn:E1; [apply Z.eqb_eq in E1; tauto|].
  destruct (run_mode w1 =? MODE_LED) eqn:E2; [apply Z.eqb_eq in E2; tauto|].
  destruct u. reflexivity.
Qed.

(** ** Lemmas for the properties *)

Lemma runLEDMode_eq (w : World) (p t : Z) (ps ts : list Z) :
  pan_pot_in w = p :: ps -> tilt_pot_in w = t :: ts ->
  runLEDMode w =
  Some (tt, set_out (out w ++ List.map (fun i => strip_setPixelColor i (led_color p t))
                                       pixel_indices
                           ++ [strip_show; delay 10])
              (set_tilt_pot_in ts (set_pan_pot_in ps w))).
Proof.
  intros Hp Ht. unfold runLEDMode.
  erewrite bind_eq by (apply analogRead_PAN_eq; exact Hp).
  erewrite bind_eq by (apply analogRead_TILT_eq; wsimpl; exact Ht).
  erewrite bind_eq by apply paint_eq. run.
  apply f_equal. apply f_equal. apply world_ext; wsimpl; try reflexivity.
  repeat rewrite <- app_assoc. reflexivity.
Qed.

(** The colour conversion of the ring receives the mapped hue modulo 2^16. *)
Lemma led_color_eq (pan_raw tilt_raw : Z) :
  0 <= pan_raw <= 1023 ->
  led_color pan_raw tilt_raw =
  gamma32_ColorHSV (Arduino.map tilt_raw 0 1023 0 65536 mod 65536) 255
                   (fade_val_of pan_raw).
Proof.
  intros Hp. unfold led_color, pixel_hue_of.
  rewrite to_uint16_to_int.
  pose proof (fade_val_range pan_raw Hp) as Hf.
  unfold to_uint8. change (2 ^ 8) with 256.
  rewrite (Z.mod_small (fade_val_of pan_raw)) by lia. reflexivity.
Qed.

(** The remembered angles stay at their initial zero, and every manual angle
    is more than one degree away from zero: the test never holds a write
    back. *)
Lemma dead_band_never_holds_back (x : Z) :
  0 <= x <= 1023 ->
  exceeds_dead_band 0 (to_int (Arduino.map x 0 1023 MAX_PAN MIN_PAN)) = true /\
  exceeds_dead_band 0 (to_int (Arduino.map x 0 1023 MAX_TILT MIN_TILT)) = true.
Proof.
  intros Hx.
  pose proof (manual_pan_range x Hx) as Hp.
  pose proof (manual_tilt_range x Hx) as Ht.
  unfold MIN_PAN, MAX_PAN, MIN_TILT, MAX_TILT in *.
  split; apply exceeds_dead_band_iff; lia.
Qed.

Lemma manual_always_writes (w w' : World) :
  old_pan_pos w = 0 -> old_tilt_pos w = 0 -> valid_inputs w ->
  runNormalMode w = Some (tt, w') ->
  old_pan_pos w' = 0 /\ old_tilt_pos w' = 0 /\
  exists evs, out w' = out w ++ evs /\
              In (pan_write (pan_pos w')) evs /\ In (tilt_write (tilt_pos w')) evs.
Proof.
  intros Hop Hot (Hp & Ht & _) E. revert E.
  enough (H : wp runNormalMode
                (fun _ w1 =>
                   old_pan_pos w1 = 0 /\ old_tilt_pos w1 = 0 /\
                   exists evs, out w1 = out w ++ evs /\
                               In (pan_write (pan_pos w1)) evs /\
                               In (tilt_write (tilt_pos w1)) evs) w)
    by exact (H tt w').
  unfold runNormalMode, POSITION_DEBUG. wp_go. use_heads.
  split; [exact Hop|]. split; [exact Hot|].
  unfold pan_calls, tilt_calls. wsimpl. rewrite Hop, Hot.
  match goal with
  | Hv : reading_ok ?v, Hv0 : reading_ok ?v0 |- _ =>
      destruct (dead_band_never_holds_back v Hv) as [-> _] ||
      destruct (dead_band_never_holds_back v0 Hv0) as [-> _]
  end.
  match goal with
  | Hv : reading_ok ?v, Hv0 : reading_ok ?v0 |- _ =>
      destruct (dead_band_never_holds_back v Hv) as [_ ->] ||
      destruct (dead_band_never_holds_back v0 Hv0) as [_ ->]
  end.
  eexists. split; [repeat rewrite <- app_assoc; reflexivity|].
  cbn [app In]. split; auto 20.
Qed.

(** * The properties *)

(** C1. The mode advances through the cycle Manual, Autonomous, Ambient,
    Manual: over any number of passes of the loop the mode reached is the
    starting mode advanced once per release handled (every release writes
    its log line, and nothing else writes that line); without a release the
    mode is unchanged, and three releases from Manual lead back to Manual.
    The button monitor handles a release exactly on the release edge of the
    debounced button, and no behaviour changes the mode. *)
Theorem C1_mode_cycle (n : nat) (w w' : World)
        (H : loops n w = Some (tt, w')) :
  (next_mode MODE_NORMAL = MODE_AUTO /\
   next_mode MODE_AUTO = MODE_LED /\
   next_mode MODE_LED = MODE_NORMAL) /\
  (exists evs,
      out w' = out w ++ evs /\
      run_mode w' = Nat.iter (releases evs) next_mode (run_mode w) /\
      (releases evs = 0%nat -> run_mode w' = run_mode w) /\
      (run_mode w = MODE_NORMAL -> releases evs = 3%nat ->
       run_mode w' = MODE_NORMAL)) /\
  (forall w1 w2, checkButton w1 = Some (tt, w2) ->
     exists evs,
       out w2 = out w1 ++ evs /\
       releases evs = (if released w1 w2 then 1 else 0)%nat /\
       run_mode w2 = if released w1 w2 then next_mode (run_mode w1)
                     else run_mode w1) /\
  (forall w1 w2,
     runNormalMode w1 = Some (tt, w2) \/ runAutoMode w1 = Some (tt, w2) \/
     runLEDMode w1 = Some (tt, w2) ->
     run_mode w2 = run_mode w1).
Proof.
  split; [repeat split|]. split; [|split].
  - destruct (loops_effect n w tt w' H) as (_ & _ & evs & O & Md & _).
    exists evs. split; [exact O|]. split; [exact Md|]. split.
    + intros R. rewrite R in Md. exact Md.
    + intros Hm R. rewrite R, Hm in Md. exact Md.
  - intros w1 w2 E.
    destruct (checkButton_effect w1 tt w2 E) as (_ & _ & evs & O & R & _ & Md).
    exists evs. split; [exact O|]. split; [exact R|].
    destruct (released w1 w2); exact Md.
  - intros w1 w2 [E|[E|E]].
    + apply runNormalMode_keeps_mode, E.
    + destruct (runAutoMode_keeps w1 tt w2 E) as (_ & Md & _). exact Md.
    + destruct (runLEDMode_effect w1 tt w2 E) as (_ & _ & evs & _ & _ & _ & Md).
      exact Md.
Qed.

Lemma C1_mode_cycle_witness :
  loops 7 three_presses = Some (tt, after_three_presses) /\
  run_mode three_presses = MODE_NORMAL /\
  run_mode after_three_presses = MODE_NORMAL.
Proof.
  assert (H : loops 7 three_presses = Some (tt, after_three_presses))
    by (vm_compute; reflexivity).
  split; [exact H|]. split; [reflexivity|].
  destruct (C1_mode_cycle 7 three_presses after_three_presses H)
    as (_ & (evs & O & _ & _ & Hthree) & _).
  apply Hthree; [reflexivity|].
  assert (E : evs = out after_three_presses)
    by (change (out three_presses) with (@nil Event) in O; exact (eq_sym O)).
  rewrite E. vm_compute. reflexivity.
Defined.

(** C2 on the sketch.  Two passes of Manual mode over unmoved sensors: the
    first writes pan 100 and tilt 20; the second computes the same angles
    and writes both again, although neither differs from the angle last
    written. *)
Theorem C2_unchanged_angle_written_again :
  runNormalMode unmoved_sensors = Some (tt, after_first_pass) /\
  runNormalMode after_first_pass = Some (tt, after_second_pass) /\
  last_pan_write (out after_first_pass) = Some 100 /\
  last_tilt_write (out after_first_pass) = Some 20 /\
  pan_pos after_second_pass = 100 /\ tilt_pos after_second_pass = 20 /\
  calls_since after_first_pass after_second_pass =
    [Serial_print_int 403; Serial_print ", "; Serial_println_int 512;
     pan_write 100; Serial_print "Pan: "; Serial_print_int 100;
     Serial_print " ";
     tilt_write 20; Serial_print "Tilt: "; Serial_print_int 20;
     Serial_println newline; delay 50].
Proof.
  split; [vm_compute; reflexivity|].
  split; [vm_compute; reflexivity|].
  split; [vm_compute; reflexivity|].
  split; [vm_compute; reflexivity|].
  split; [vm_compute; reflexivity|].
  split; vm_compute; reflexivity.
Qed.

(** C3 on the sketch.  [updateServos] writes pan 100 and tilt 20 here and
    leaves both remembered angles at 0, not at the angles written. *)
Theorem C3_write_is_not_remembered :
  updateServos angles_set = Some (tt, after_update) /\
  out after_update =
    [pan_write 100; Serial_print "Pan: "; Serial_print_int 100; Serial_print " ";
     tilt_write 20; Serial_print "Tilt: "; Serial_print_int 20;
     Serial_println newline] /\
  old_pan_pos after_update = 0 /\ old_tilt_pos after_update = 0 /\
  last_pan_write (out after_update) = Some 100 /\
  last_tilt_write (out after_update) = Some 20.
Proof.
  split; [vm_compute; reflexivity|].
  split; [vm_compute; reflexivity|].
  split; [vm_compute; reflexivity|].
  split; [vm_compute; reflexivity|].
  split; vm_compute; reflexivity.
Qed.

(** C4. From power-on, over any number of calls of Autonomous mode, every
    burst that ends has made a number of moves within the bounds of its
    cadence: 10 to 15 for a rapid burst, 3 to 8 for a normal one, counted on
    the servo calls.  The quota tests leave the statics alone while the
    burst is short of its ceiling; at the ceiling they flip the cadence,
    reset the counter of the burst to zero and redraw its ceiling from one
    raw draw. *)
Theorem C4_burst_quota (n : nat) (w wf : World) (l : list (bool * Z))
        (Hfresh : auto_statics w = None)
        (Hv : Forall valid_raw (random_in w))
        (H : bursts n 0 w = Some (l, wf)) :
  (MIN_RAPID_MOVES = 10 /\ MAX_RAPID_MOVES = 15 /\
   MIN_NORMAL_MOVES = 3 /\ MAX_NORMAL_MOVES = 8) /\
  Forall (fun b : bool * Z =>
            if fst b
            then MIN_RAPID_MOVES <= snd b <= MAX_RAPID_MOVES
            else MIN_NORMAL_MOVES <= snd b <= MAX_NORMAL_MOVES) l /\
  (forall s s' w1 w2,
      burst_inv s -> Forall valid_raw (random_in w1) ->
      runAutoMode_quota s w1 = Some (s', w2) ->
      (burst_count s < burst_ceiling s /\ s' = s) \/
      (burst_count s = burst_ceiling s /\
       exists r rest,
         random_in w1 = r :: rest /\
         if rapid_mode s
         then rapid_mode s' = false /\ cur_rapid_moves s' = 0 /\
              rapid_move_max s' = Z.rem r 5 + MIN_RAPID_MOVES
         else rapid_mode s' = true /\ cur_normal_moves s' = 0 /\
              normal_move_max s' = Z.rem r 5 + MIN_NORMAL_MOVES)).
Proof.
  split; [repeat split|]. split.
  - assert (Hq : Forall (fun b => quota_drawn (fst b) (snd b)) l).
    { apply (bursts_quota n w wf 0 l); try assumption.
      - unfold statics_inv. rewrite Hfresh. exact I.
      - unfold count_of. rewrite Hfresh. reflexivity. }
    eapply Forall_impl; [|exact Hq].
    intros [c k]. unfold quota_drawn. cbn [fst snd].
    destruct c; lia.
  - intros s s' w1 w2 Hinv Hv1 E.
    destruct (runAutoMode_quota_cases s s' w1 w2 Hinv Hv1 E)
      as [(Hlt & -> & _)|(Hfull & r & rest & Hq & _ & -> & _)].
    + left. auto.
    + right. split; [exact Hfull|]. exists r, rest. split; [exact Hq|].
      unfold flipped. destruct (rapid_mode s); repeat split.
Qed.

Lemma C4_burst_quota_witness :
  bursts 30 0 sweep =
    Some ([(false, 3); (true, 13); (false, 3); (true, 10)], after_sweep) /\
  Forall (fun b : bool * Z =>
            if fst b
            then MIN_RAPID_MOVES <= snd b <= MAX_RAPID_MOVES
            else MIN_NORMAL_MOVES <= snd b <= MAX_NORMAL_MOVES)
         [(false, 3); (true, 13); (false, 3); (true, 10)].
Proof.
  assert (Hv : Forall valid_raw (random_in sweep)).
  { apply Forall_forall. intros r Hr. unfold sweep, power_on in Hr. wsimpl.
    apply in_map_iff in Hr. destruct Hr as (k & <- & Hk). apply in_seq in Hk.
    unfold valid_raw, Arduino.RANDOM_MAX. lia. }
  assert (Hfresh : auto_statics sweep = None) by reflexivity.
  assert (H : bursts 30 0 sweep =
              Some ([(false, 3); (true, 13); (false, 3); (true, 10)], after_sweep))
    by (vm_compute; reflexivity).
  split; [exact H|].
  pose proof (C4_burst_quota 30 sweep after_sweep
                [(false, 3); (true, 13); (false, 3); (true, 10)] Hfresh Hv H) as C.
  exact (proj1 (proj2 C)).
Defined.

(** C5 on the sketch.  The pan target is [raw % 127 + 23]: every value of
    23..149 is drawn by some raw draw, and 150 by none. *)
Theorem C5_pan_target_range (w w' : World) (p t : Z)
        (Hv : Forall valid_raw (random_in w))
        (H : runAutoMode_target w = Some ((p, t), w')) :
  (exists r1 r2 rest, random_in w = r1 :: r2 :: rest /\ p = Z.rem r1 127 + MIN_PAN) /\
  MIN_PAN <= p <= MAX_PAN - 1 /\
  p <> MAX_PAN /\
  (forall v, MIN_PAN <= v <= MAX_PAN - 1 ->
     valid_raw (v - MIN_PAN) /\ fst (target_of (v - MIN_PAN) 0) = v).
Proof.
  assert (Hwp : wp runAutoMode_target
                   (fun pt _ =>
                      (exists r1 r2 rest, random_in w = r1 :: r2 :: rest /\
                                          fst pt = Z.rem r1 127 + MIN_PAN) /\
                      MIN_PAN <= fst pt <= MAX_PAN - 1) w).
  { apply wp_runAutoMode_target; [exact Hv|].
    intros r1 r2 rest Hq V1 V2 _. split.
    - exists r1, r2, rest. split; [exact Hq|reflexivity].
    - pose proof (target_of_range r1 r2 V1 V2) as R.
      destruct (target_of r1 r2) as [p0 t0]. apply R. }
  destruct (Hwp (p, t) w' H) as [Hdraw Hrange]. cbn [fst] in *.
  split; [exact Hdraw|]. split; [exact Hrange|]. split; [lia|].
  intros v Hvr. unfold MIN_PAN, MAX_PAN, valid_raw, Arduino.RANDOM_MAX in *.
  split; [lia|]. unfold target_of. cbn [fst].
  rewrite Z.rem_small by lia. lia.
Qed.

Lemma C5_pan_target_range_witness :
  runAutoMode_target top_draws = Some ((149, 36), power_on [] [] [] [] []) /\
  149 <> MAX_PAN.
Proof.
  assert (Hv : Forall valid_raw (random_in top_draws)).
  { unfold top_draws, power_on, valid_raw, Arduino.RANDOM_MAX. wsimpl.
    repeat (constructor; [lia|]). constructor. }
  assert (H : runAutoMode_target top_draws = Some ((149, 36), power_on [] [] [] [] []))
    by (vm_compute; reflexivity).
  split; [exact H|].
  exact (proj1 (proj2 (proj2 (C5_pan_target_range top_draws _ 149 36 Hv H)))).
Defined.

(** C6. Every drawn tilt target lies in the sub-range its pan target
    selects: in [24, 37] from pan 144 up, in [12, 37] up to pan 54, and in
    [2, 37] in between. *)
Theorem C6_tilt_target_range (w w' : World) (p t : Z)
        (Hv : Forall valid_raw (random_in w))
        (H : runAutoMode_target w = Some ((p, t), w')) :
  MAX_TILT = 37 /\ MIN_TILT = 2 /\
  (144 <= p -> 24 <= t <= MAX_TILT) /\
  (p <= 54 -> 12 <= t <= MAX_TILT) /\
  (54 < p < 144 -> MIN_TILT <= t <= MAX_TILT).
Proof.
  assert (Hwp : wp runAutoMode_target
                   (fun pt _ =>
                      (144 <= fst pt -> 24 <= snd pt <= MAX_TILT - 1) /\
                      (fst pt <= 54 -> 12 <= snd pt <= MAX_TILT - 1) /\
                      (54 < fst pt < 144 -> MIN_TILT <= snd pt <= MAX_TILT - 1)) w).
  { apply wp_runAutoMode_target; [exact Hv|].
    intros r1 r2 rest Hq V1 V2 _.
    pose proof (target_of_range r1 r2 V1 V2) as R.
    destruct (target_of r1 r2) as [p0 t0]. apply R. }
  destruct (Hwp (p, t) w' H) as (Ha & Hb & Hc). cbn [fst snd] in *.
  split; [reflexivity|]. split; [reflexivity|].
  split; [intros Hp; specialize (Ha Hp); lia|].
  split; [intros Hp; specialize (Hb Hp); lia|].
  intros Hp. specialize (Hc Hp). lia.
Qed.

Lemma C6_tilt_target_range_witness :
  runAutoMode_target top_draws = Some ((149, 36), power_on [] [] [] [] []) /\
  24 <= 36 <= MAX_TILT.
Proof.
  assert (Hv : Forall valid_raw (random_in top_draws)).
  { unfold top_draws, power_on, valid_raw, Arduino.RANDOM_MAX. wsimpl.
    repeat (constructor; [lia|]). constructor. }
  assert (H : runAutoMode_target top_draws = Some ((149, 36), power_on [] [] [] [] []))
    by (vm_compute; reflexivity).
  split; [exact H|].
  apply (proj1 (proj2 (proj2 (C6_tilt_target_range top_draws _ 149 36 Hv H)))).
  lia.
Defined.

(** C7. On valid readings and raw draws, every angle handed to a servo over
    any number of passes of the loop lies within the limits, pan in
    [23, 150] and tilt in [2, 37]; so does every angle handed over by one
    pass of Manual mode and by one call of Autonomous mode.  The manual
    mapping is inverted: reading 0 gives the upper limit and reading 1023
    the lower one, and every reading gives an angle between them. *)
Theorem C7_servo_angles_within_limits (n : nat) (w w' : World)
        (Hv : valid_inputs w) (H : loops n w = Some (tt, w')) :
  (MIN_PAN = 23 /\ MAX_PAN = 150 /\ MIN_TILT = 2 /\ MAX_TILT = 37) /\
  (exists evs, out w' = out w ++ evs /\ Forall servo_ok evs) /\
  (forall w1 w2, valid_inputs w1 -> runNormalMode w1 = Some (tt, w2) ->
     exists evs, out w2 = out w1 ++ evs /\ Forall servo_ok evs) /\
  (forall w1 w2, valid_inputs w1 -> runAutoMode w1 = Some (tt, w2) ->
     exists evs, out w2 = out w1 ++ evs /\ Forall servo_ok evs) /\
  (forall x, 0 <= x <= 1023 ->
     MIN_PAN <= to_int (Arduino.map x 0 1023 MAX_PAN MIN_PAN) <= MAX_PAN /\
     MIN_TILT <= to_int (Arduino.map x 0 1023 MAX_TILT MIN_TILT) <= MAX_TILT) /\
  (to_int (Arduino.map 0 0 1023 MAX_PAN MIN_PAN) = MAX_PAN /\
   to_int (Arduino.map 1023 0 1023 MAX_PAN MIN_PAN) = MIN_PAN /\
   to_int (Arduino.map 0 0 1023 MAX_TILT MIN_TILT) = MAX_TILT /\
   to_int (Arduino.map 1023 0 1023 MAX_TILT MIN_TILT) = MIN_TILT).
Proof.
  split; [repeat split|]. split; [|split; [|split; [|split]]].
  - destruct (loops_effect n w tt w' H) as (_ & _ & evs & O & _ & S).
    exists evs. split; [exact O|apply S, Hv].
  - intros w1 w2 Hv1 E.
    destruct (runNormalMode_effect w1 tt w2 E) as (_ & _ & evs & O & _ & S).
    exists evs. split; [exact O|apply S, Hv1].
  - intros w1 w2 Hv1 E.
    destruct (runAutoMode_effect w1 tt w2 E) as (_ & _ & evs & O & _ & S).
    exists evs. split; [exact O|apply S, Hv1].
  - intros x Hx. split; [apply manual_pan_range, Hx|apply manual_tilt_range, Hx].
  - repeat split; reflexivity.
Qed.

Lemma C7_servo_angles_within_limits_witness :
  valid_inputs three_presses /\
  loops 7 three_presses = Some (tt, after_three_presses) /\
  Forall servo_ok (out after_three_presses).
Proof.
  assert (Hv : valid_inputs three_presses).
  { unfold valid_inputs, three_presses, power_on, reading_ok, valid_raw,
      Arduino.RANDOM_MAX. wsimpl.
    split; [|split]; repeat (constructor; [lia|]); constructor. }
  assert (H : loops 7 three_presses = Some (tt, after_three_presses))
    by (vm_compute; reflexivity).
  split; [exact Hv|]. split; [exact H|].
  destruct (C7_servo_angles_within_limits 7 three_presses after_three_presses Hv H)
    as (_ & (evs & O & S) & _).
  change (out three_presses) with (@nil Event) in O. rewrite O. exact S.
Defined.

(** C8 as the sketch has it.  For readings in 0..1023 the brightness lies in
    [60, 255]; the hue mapping yields a value in [0, 65536], and 65536 at
    reading 1023 only; the ring's colour conversion receives that value
    modulo 65536, which lies in [0, 65535]; saturation is 255.  One pass of
    Ambient mode returns, sets every cell of the ring to this one colour,
    shows the ring and pauses 10 ms; the calls depend on the two readings
    alone. *)
Theorem C8_ambient_colour (pan_raw tilt_raw : Z)
        (Hp : 0 <= pan_raw <= 1023) (Ht : 0 <= tilt_raw <= 1023) :
  60 <= fade_val_of pan_raw <= 255 /\
  0 <= Arduino.map tilt_raw 0 1023 0 65536 <= 65536 /\
  (Arduino.map tilt_raw 0 1023 0 65536 = 65536 <-> tilt_raw = 1023) /\
  led_color pan_raw tilt_raw =
    gamma32_ColorHSV (Arduino.map tilt_raw 0 1023 0 65536 mod 65536) 255
                     (fade_val_of pan_raw) /\
  0 <= Arduino.map tilt_raw 0 1023 0 65536 mod 65536 <= 65535 /\
  (forall w ps ts,
      pan_pot_in w = pan_raw :: ps -> tilt_pot_in w = tilt_raw :: ts ->
      runLEDMode w =
      Some (tt, set_out (out w ++ List.map (fun i => strip_setPixelColor i
                                                       (led_color pan_raw tilt_raw))
                                           pixel_indices
                               ++ [strip_show; delay 10])
                  (set_tilt_pot_in ts (set_pan_pot_in ps w)))) /\
  pixel_indices = [0; 1; 2; 3; 4; 5; 6; 7; 8; 9; 10; 11; 12; 13; 14; 15].
Proof.
  split; [apply fade_val_range, Hp|].
  split; [apply hue_map_range, Ht|].
  split; [apply hue_map_top, Ht|].
  split; [apply led_color_eq, Hp|].
  split; [pose proof (Z.mod_pos_bound (Arduino.map tilt_raw 0 1023 0 65536) 65536
                                       ltac:(lia)); lia|].
  split; [|reflexivity].
  intros w ps ts Hpq Htq. apply runLEDMode_eq; assumption.
Qed.

Lemma C8_ambient_colour_witness :
  led_color 512 512 = gamma32_ColorHSV 32800 255 157 /\
  led_color 0 1023 = gamma32_ColorHSV 0 255 60.
Proof.
  split.
  - rewrite (proj1 (proj2 (proj2 (proj2
               (C8_ambient_colour 512 512 ltac:(lia) ltac:(lia)))))).
    reflexivity.
  - rewrite (proj1 (proj2 (proj2 (proj2
               (C8_ambient_colour 0 1023 ltac:(lia) ltac:(lia)))))).
    reflexivity.
Defined.

(** C8 as stated fails: at the top reading the hue mapping yields 65536,
    and the [int] that holds the mapped hue is negative from the middle
    reading on. *)
Lemma C8_hue_leaves_range :
  Arduino.map 1023 0 1023 0 65536 = 65536 /\
  pixel_hue_of 512 = -32736 /\
  ~ (forall tilt_raw, 0 <= tilt_raw <= 1023 ->
       0 <= Arduino.map tilt_raw 0 1023 0 65536 <= 65535) /\
  ~ (forall tilt_raw, 0 <= tilt_raw <= 1023 ->
       0 <= pixel_hue_of tilt_raw <= 65535).
Proof.
  split; [reflexivity|]. split; [reflexivity|]. split.
  - intros H. specialize (H 1023 ltac:(lia)).
    change (Arduino.map 1023 0 1023 0 65536) with 65536 in H. lia.
  - intros H. specialize (H 512 ltac:(lia)).
    change (pixel_hue_of 512) with (-32736) in H. lia.
Qed.

(** C9. On a release with the mode out of range the handler returns, having
    written the two release log lines and the diagnostic and changed nothing
    else: the mode, every other variable and the input queues are as
    before, and no actuator or ring call is made.  The pass of the loop
    then runs no behaviour and leaves the mode as it is. *)
Theorem C9_invalid_mode_is_logged_noop (w : World)
        (H : ~ valid_mode (run_mode w)) :
  checkButton_release w =
    Some (tt, set_out (out w ++ [Serial_println "Button pressed!";
                                 Serial_println_int (run_mode w);
                                 Serial_println "Invalid case"]) w) /\
  loop w = checkButton w /\
  (forall w', loop w = Some (tt, w') ->
     run_mode w' = run_mode w /\
     exists evs, out w' = out w ++ evs /\ no_servo evs = true).
Proof.
  split; [apply release_invalid, H|]. split; [apply loop_invalid_mode, H|].
  intros w' E. rewrite (loop_invalid_mode w H) in E.
  destruct (checkButton_effect w tt w' E) as (_ & _ & evs & O & _ & S & Md).
  rewrite (next_mode_invalid _ _ H) in Md.
  split; [exact Md|]. exists evs. split; assumption.
Qed.

Lemma C9_invalid_mode_is_logged_noop_witness :
  ~ valid_mode (run_mode stray_mode) /\
  checkButton_release stray_mode =
    Some (tt, set_out [Serial_println "Button pressed!";
                       Serial_println_int 7;
                       Serial_println "Invalid case"] stray_mode).
Proof.
  assert (H : ~ valid_mode (run_mode stray_mode)).
  { unfold valid_mode. cbn. intros [E|[E|E]]; discriminate. }
  split; [exact H|].
  exact (proj1 (C9_invalid_mode_is_logged_noop stray_mode H)).
Defined.

(** C10. No execution of the button monitor changes the global laser
    brightness.  The hold loop in particular leaves it alone: it takes
    samples of the tilt sensor and hands each, mapped to 0..255, to the
    laser through a local variable, so that when it returns the calls it
    made are exactly the laser writes of the samples it took. *)
Theorem C10_laser_brightness_kept (w w' : World)
        (H : checkButton w = Some (tt, w')) :
  laser_brightness w' = laser_brightness w /\
  (forall fuel pressed was w1 final w2,
      checkButton_hold fuel pressed was w1 = Some (final, w2) ->
      laser_brightness w2 = laser_brightness w1 /\
      exists samples,
        tilt_pot_in w1 = samples ++ tilt_pot_in w2 /\
        out w2 = out w1 ++ List.map hold_call samples) /\
  (forall reading, 0 <= reading <= 1023 ->
      exists b, hold_call reading = analogWrite LASER b /\ 0 <= b <= 255).
Proof.
  split; [|split].
  - destruct (checkButton_effect w tt w' H) as (L & _). exact L.
  - intros fuel pressed was w1 final w2 E. revert final w2 E.
    change (wp (checkButton_hold fuel pressed was)
               (fun _ w2 =>
                  laser_brightness w2 = laser_brightness w1 /\
                  exists samples,
                    tilt_pot_in w1 = samples ++ tilt_pot_in w2 /\
                    out w2 = out w1 ++ List.map hold_call samples) w1).
    apply wp_checkButton_hold.
    intros samples levels rest_t rest_b final Et _ _ _ _. wsimpl.
    split; [reflexivity|]. exists samples. split; [exact Et|reflexivity].
  - intros reading Hr. eexists. split; [reflexivity|].
    apply hold_brightness_range, Hr.
Qed.

Lemma C10_laser_brightness_kept_witness :
  checkButton held_button = Some (tt, after_held_button) /\
  laser_brightness after_held_button = 255 /\
  out after_held_button =
    [analogWrite LASER 127; analogWrite LASER 24;
     Serial_println "Button pressed!"; Serial_println_int 0;
     Serial_println "Entering auto mode"; digitalWrite LED true].
Proof.
  assert (H : checkButton held_button = Some (tt, after_held_button))
    by (vm_compute; reflexivity).
  split; [exact H|]. split.
  - rewrite (proj1 (C10_laser_brightness_kept held_button after_held_button H)).
    reflexivity.
  - vm_compute. reflexivity.
Defined.

(** * Further reasoning about the sketch *)

(** ** The mappings of the sensors *)

(** [map] from 0..1023 follows the order of its output range. *)
Lemma map_monotone (x y lo hi : Z) :
  0 <= x <= y -> y <= 1023 ->
  -1000000 <= lo <= 1000000 -> -1000000 <= hi <= 1000000 ->
  (lo <= hi -> Arduino.map x 0 1023 lo hi <= Arduino.map y 0 1023 lo hi) /\
  (hi <= lo -> Arduino.map y 0 1023 lo hi <= Arduino.map x 0 1023 lo hi).
Proof.
  intros Hx Hy Hlo Hhi.
  rewrite (map_0_1023 x lo hi) by lia. rewrite (map_0_1023 y lo hi) by lia.
  split; intros Hd.
  - assert (H : x * (hi - lo) <= y * (hi - lo)) by nia.
    pose proof (Z.quot_le_mono (x * (hi - lo)) (y * (hi - lo)) 1023 ltac:(lia) H).
    lia.
  - assert (H : y * (hi - lo) <= x * (hi - lo)) by nia.
    pose proof (Z.quot_le_mono (y * (hi - lo)) (x * (hi - lo)) 1023 ltac:(lia) H).
    lia.
Qed.

Lemma manual_pan_eq (x : Z) :
  0 <= x <= 1023 -> manual_pan x = 150 + (x * -127) ÷ 1023.
Proof.
  intros Hx. unfold manual_pan, MAX_PAN, MIN_PAN.
  rewrite map_0_1023 by lia.
  rewrite to_int_small by (Z.to_euclidean_division_equations; nia).
  change (23 - 150) with (-127). lia.
Qed.

Lemma manual_tilt_eq (x : Z) :
  0 <= x <= 1023 -> manual_tilt x = 37 + (x * -35) ÷ 1023.
Proof.
  intros Hx. unfold manual_tilt, MAX_TILT, MIN_TILT.
  rewrite map_0_1023 by lia.
  rewrite to_int_small by (Z.to_euclidean_division_equations; nia).
  change (2 - 37) with (-35). lia.
Qed.

(** The difference of two clock readings, taken as [unsigned long], is the
    time between them whether or not the clock has rolled over. *)
Lemma rollover (t0 d : Z) :
  0 <= t0 < 2 ^ 32 -> 0 <= d < 2 ^ 32 ->
  to_ulong ((t0 + d) mod 2 ^ 32 - to_long t0) = d.
Proof.
  unfold to_ulong, to_long, wrap_signed.
  change (2 ^ (32 - 1)) with 2147483648. change (2 ^ 32) with 4294967296.
  intros H0 Hd. Z.to_euclidean_division_equations. lia.
Qed.

(** ** The button monitor, step by step *)

Lemma digitalRead_BUTTON_eq (w : World) (b : bool) (rest : list bool) :
  button_in w = b :: rest -> digitalRead_BUTTON w = Some (b, set_button_in rest w).
Proof. intros H. unfold digitalRead_BUTTON. rewrite H. reflexivity. Qed.

Lemma millis_eq (w : World) (t : Z) (rest : list Z) :
  millis_in w = t :: rest -> millis w = Some (t, set_millis_in rest w).
Proof. intros H. unfold millis. rewrite H. reflexivity. Qed.

Lemma checkButton_split (w : World) :
  checkButton w = (last <- checkButton_statics ;; checkButton_poll last) w.
Proof. reflexivity. Qed.

Lemma checkButton_statics_saved (w : World) (last : Z) :
  last_button_check w = Some last -> checkButton_statics w = Some (last, w).
Proof. intros H. unfold checkButton_statics. rewrite bind_gets, H. reflexivity. Qed.

Lemma checkButton_saved (w : World) (last : Z) :
  last_button_check w = Some last -> checkButton w = checkButton_poll last w.
Proof.
  intros H. rewrite checkButton_split.
  apply bind_eq, checkButton_statics_saved, H.
Qed.

Lemma checkButton_poll_inside (w : World) (last now : Z) (rest : list Z) :
  millis_in w = now :: rest ->
  to_ulong (now - last) <= BUTTON_CHECK_INTERVAL ->
  checkButton_poll last w = Some (tt, set_millis_in rest w).
Proof.
  intros Hm Hin. unfold checkButton_poll.
  erewrite bind_eq by (apply millis_eq; exact Hm).
  destruct (to_ulong (now - last) >? BUTTON_CHECK_INTERVAL) eqn:E; [lia|].
  reflexivity.
Qed.

(** The hold loop does not run unless the button is down and was down. *)
Lemma checkButton_hold_skip (fuel : nat) (pressed was : bool) (w : World) :
  pressed && was = false ->
  checkButton_hold fuel pressed was w = Some (pressed, w).
Proof. intros H. destruct fuel; cbn [checkButton_hold]; rewrite H; reflexivity. Qed.

(** Held for [k] more samples and then released, the hold loop returns
    after [k + 1] laser writes. *)
Lemma checkButton_hold_returns (k : nat) :
  forall (samples : list Z) (rest_t : list Z) (rest_b : list bool)
         (fuel : nat) (w : World),
    List.length samples = S k ->
    tilt_pot_in w = samples ++ rest_t ->
    button_in w = repeat false k ++ true :: rest_b ->
    (S k <= fuel)%nat ->
    checkButton_hold fuel true true w =
    Some (false, set_button_in rest_b
                   (set_tilt_pot_in rest_t
                      (set_out (out w ++ List.map hold_call samples) w))).
Proof.
  induction k as [|k IH]; intros samples rest_t rest_b fuel w Hlen Ht Hb Hf.
  - destruct samples as [|s [|s' l]]; try discriminate.
    destruct fuel as [|fuel]; [lia|]. cbn [checkButton_hold andb].
    cbn [app] in Ht. cbn [repeat app] in Hb.
    erewrite bind_eq by (apply analogRead_TILT_eq; exact Ht). run.
    unfold hold_call at 1. run.
    erewrite bind_eq by (apply digitalRead_BUTTON_eq; wsimpl; exact Hb).
    destruct fuel; cbn [checkButton_hold negb andb]; unfold ret;
      apply f_equal, f_equal; apply world_ext; wsimpl; reflexivity.
  - destruct samples as [|s l]; [discriminate|].
    destruct fuel as [|fuel]; [lia|]. cbn [checkButton_hold andb].
    cbn [app] in Ht. cbn [repeat app] in Hb.
    erewrite bind_eq by (apply analogRead_TILT_eq; exact Ht). run.
    erewrite bind_eq by (apply digitalRead_BUTTON_eq; wsimpl; exact Hb).
    cbn [negb].
    rewrite (IH l rest_t rest_b fuel); wsimpl; try reflexivity.
    + apply f_equal, f_equal; apply world_ext; wsimpl; try reflexivity.
      rewrite <- app_assoc. reflexivity.
    + cbn [List.length] in Hlen. lia.
    + lia.
Qed.

(** The hold loop returns only on a sample that finds the button up, after
    one laser write for each sample taken. *)
Lemma checkButton_hold_cases (fuel : nat) :
  forall (pressed was final : bool) (w w' : World),
    checkButton_hold fuel pressed was w = Some (final, w') ->
    (pressed && was = false /\ final = pressed /\ w' = w) \/
    (pressed && was = true /\ final = false /\
     exists (k : nat) (samples rest_t : list Z) (rest_b : list bool),
       List.length samples = S k /\
       tilt_pot_in w = samples ++ rest_t /\
       button_in w = repeat false k ++ true :: rest_b /\
       w' = set_button_in rest_b
              (set_tilt_pot_in rest_t
                 (set_out (out w ++ List.map hold_call samples) w))).
Proof.
  induction fuel as [|fuel IH]; intros pressed was final w w' E;
    cbn [checkButton_hold] in E; destruct (pressed && was) eqn:Ec.
  - discriminate.
  - left. inversion E; subst. auto.
  - right. split; [reflexivity|].
    apply andb_prop in Ec. destruct Ec as [-> ->].
    revert E. unfold bind at 1.
    destruct (analogRead TILT_POT w) as [[v w1]|] eqn:Ev; [|discriminate].
    unfold analogRead in Ev.
    destruct (tilt_pot_in w) as [|v' ts] eqn:Et; [discriminate|].
    injection Ev as <- <-. rewrite bind_emit. unfold bind at 1.
    unfold digitalRead_BUTTON at 1. wsimpl.
    destruct (button_in w) as [|b bs] eqn:Eb; [discriminate|].
    intros E. apply IH in E. wsimpl.
    destruct E as [(Hc & -> & ->)|(Hc & -> & k & samples & rest_t & rest_b & Hl & Ht & Hb & ->)].
    + rewrite andb_true_r in Hc. apply negb_false_iff in Hc. subst b.
      split; [reflexivity|].
      exists 0%nat, [v'], ts, bs. repeat split.
    + rewrite andb_true_r in Hc. apply negb_true_iff in Hc. subst b.
      wsimpl. split; [reflexivity|].
      exists (S k), (v' :: samples), rest_t, rest_b.
      split; [cbn [List.length]; rewrite Hl; reflexivity|].
      split; [rewrite Ht; reflexivity|].
      split; [rewrite Hb; reflexivity|].
      apply world_ext; wsimpl; try reflexivity.
      rewrite <- app_assoc. reflexivity.
  - left. inversion E; subst. auto.
Qed.

(** The release handler: its calls, the mode it leaves, and the readings it
    takes, which are none unless it leaves Autonomous mode. *)
Lemma wp_checkButton_release (Q : unit -> World -> Prop) (w : World) :
  (run_mode w <> MODE_AUTO ->
   forall color,
     Q tt (set_run_mode (next_mode (run_mode w))
             (set_out (out w ++ release_calls (run_mode w) color) w))) ->
  (run_mode w = MODE_AUTO ->
   forall p ps t ts,
     pan_pot_in w = p :: ps -> tilt_pot_in w = t :: ts ->
     Q tt (set_run_mode MODE_LED
             (set_out (out w ++ release_calls MODE_AUTO (led_color p t))
                (set_tilt_pot_in ts (set_pan_pot_in ps w))))) ->
  wp checkButton_release Q w.
Proof.
  intros Hother Hauto a w' E. destruct a.
  destruct (Z.eq_dec (run_mode w) MODE_NORMAL) as [E0|N0].
  { rewrite (release_from_normal w E0) in E. injection E as <-.
    specialize (Hother ltac:(rewrite E0; discriminate) (Color_rgb 0 0 0)).
    rewrite E0 in Hother. exact Hother. }
  destruct (Z.eq_dec (run_mode w) MODE_AUTO) as [E1|N1].
  { enough (Hwp : wp checkButton_release Q w) by exact (Hwp tt w' E).
    clear E. unfold checkButton_release.
    apply wp_bind, wp_emit. apply wp_bind, wp_gets. apply wp_bind, wp_emit.
    wsimpl. rewrite E1.
    change (MODE_AUTO =? MODE_NORMAL) with false.
    change (MODE_AUTO =? MODE_AUTO) with true. cbv iota.
    wp_go.
    specialize (Hauto E1 v rest v0 rest0 H H0).
    match goal with
    | |- Q tt ?W => replace W with
        (set_run_mode MODE_LED
           (set_out (out w ++ release_calls MODE_AUTO (led_color v v0))
              (set_tilt_pot_in rest0 (set_pan_pot_in rest w))))
    end; [exact Hauto|].
    apply world_ext; wsimpl; try reflexivity.
    unfold release_calls.
    change (MODE_AUTO =? MODE_NORMAL) with false.
    change (MODE_AUTO =? MODE_AUTO) with true. cbv iota.
    repeat rewrite <- app_assoc. reflexivity. }
  destruct (Z.eq_dec (run_mode w) MODE_LED) as [E2|N2].
  { rewrite (release_from_led w E2) in E. injection E as <-.
    specialize (Hother N1 (Color_rgb 0 0 0)).
    rewrite E2 in Hother. exact Hother. }
  assert (Hinv : ~ valid_mode (run_mode w)) by (unfold valid_mode; tauto).
  rewrite (release_invalid w Hinv) in E. injection E as <-.
  specialize (Hother N1 (Color_rgb 0 0 0)).
  unfold next_mode, release_calls in Hother.
  apply Z.eqb_neq in N0, N1, N2. rewrite N0, N1, N2 in Hother.
  replace (set_run_mode (run_mode w) _) with
    (set_out (out w ++ [Serial_println "Button pressed!";
                        Serial_println_int (run_mode w);
                        Serial_println "Invalid case"]) w) in Hother;
    [exact Hother|].
  apply world_ext; wsimpl; reflexivity.
Qed.

(** The release handler returns whenever the two sensors have a reading to
    give, which it asks for only when leaving Autonomous mode; it reads
    neither the clock nor the button. *)
Lemma checkButton_release_returns (w : World) :
  (run_mode w = MODE_AUTO -> pan_pot_in w <> [] /\ tilt_pot_in w <> []) ->
  exists w2, checkButton_release w = Some (tt, w2) /\
             millis_in w2 = millis_in w /\ button_in w2 = button_in w.
Proof.
  intros Hpots.
  destruct (Z.eq_dec (run_mode w) MODE_NORMAL) as [E0|N0].
  { rewrite (release_from_normal w E0). eexists. split; [reflexivity|]. split; reflexivity. }
  destruct (Z.eq_dec (run_mode w) MODE_AUTO) as [E1|N1].
  { destruct (Hpots E1) as [Hp Ht].
    destruct (pan_pot_in w) as [|p ps] eqn:Ep; [contradiction|].
    destruct (tilt_pot_in w) as [|t ts] eqn:Et; [contradiction|].
    rewrite (release_from_auto w p t ps ts E1 Ep Et).
    eexists. split; [reflexivity|]. split; reflexivity. }
  destruct (Z.eq_dec (run_mode w) MODE_LED) as [E2|N2].
  { rewrite (release_from_led w E2). eexists. split; [reflexivity|]. split; reflexivity. }
  assert (Hinv : ~ valid_mode (run_mode w)) by (unfold valid_mode; tauto).
  rewrite (release_invalid w Hinv). eexists. split; [reflexivity|]. split; reflexivity.
Qed.

(** One call of the button monitor after its statics are in hand: inside
    the window it reads the clock and returns; past the window, with the
    button not down at the last poll, it takes one sample and records it;
    with the button down at the last poll it returns once a sample finds
    the button up, having written the laser once for every sample that
    found it down, and handles the release. *)
Lemma wp_checkButton_poll (last : Z) (Q : unit -> World -> Prop) (w : World) :
  (forall now rest,
     millis_in w = now :: rest ->
     to_ulong (now - last) <= BUTTON_CHECK_INTERVAL ->
     Q tt (set_millis_in rest w)) ->
  (forall now t rest level restb,
     millis_in w = now :: t :: rest ->
     BUTTON_CHECK_INTERVAL < to_ulong (now - last) ->
     button_was_pressed w = false ->
     button_in w = level :: restb ->
     Q tt (set_button_was_pressed (negb level)
             (set_last_button_check (Some (to_long t))
                (set_millis_in rest (set_button_in restb w))))) ->
  (forall now rest samples rest_t rest_b w2 t rest',
     millis_in w = now :: rest ->
     BUTTON_CHECK_INTERVAL < to_ulong (now - last) ->
     button_was_pressed w = true ->
     button_in w = repeat false (List.length samples) ++ true :: rest_b ->
     tilt_pot_in w = samples ++ rest_t ->
     checkButton_release
       (set_button_in rest_b
          (set_tilt_pot_in rest_t
             (set_out (out w ++ List.map hold_call samples)
                (set_millis_in rest w)))) = Some (tt, w2) ->
     millis_in w2 = t :: rest' ->
     Q tt (set_button_was_pressed false
             (set_last_button_check (Some (to_long t))
                (set_millis_in rest' w2)))) ->
  wp (checkButton_poll last) Q w.
Proof.
  intros Hin Hidle Hrel. unfold checkButton_poll.
  apply wp_bind, wp_millis. intros now rest Hnow.
  apply wp_if; intros Hel.
  2:{ apply wp_ret. apply (Hin now rest Hnow). lia. }
  apply Z.gtb_lt in Hel.
  apply wp_bind, wp_digitalRead_BUTTON. intros level restb Hb. wsimpl.
  apply wp_bind, wp_gets. wsimpl. apply wp_bind, wp_gets. wsimpl.
  destruct (button_was_pressed w) eqn:Hwas.
  - (* down at the last poll *)
    apply wp_bind. intros final w1 Ehold.
    apply checkButton_hold_cases in Ehold. wsimpl.
    assert (Hcase : final = false /\
              exists samples rest_t rest_b,
                button_in w = repeat false (List.length samples) ++ true :: rest_b /\
                tilt_pot_in w = samples ++ rest_t /\
                w1 = set_button_in rest_b
                       (set_tilt_pot_in rest_t
                          (set_out (out w ++ List.map hold_call samples)
                             (set_millis_in rest w)))).
    { destruct Ehold as [(Hc & -> & ->)|(Hc & -> & k & samples & rest_t & rest_b & Hl & Ht & Hbb & ->)].
      - rewrite andb_true_r in Hc. apply negb_false_iff in Hc. subst level.
        split; [reflexivity|]. exists [], (tilt_pot_in w), restb.
        split; [exact Hb|]. split; [reflexivity|].
        apply world_ext; wsimpl; try reflexivity. rewrite app_nil_r. reflexivity.
      - rewrite andb_true_r in Hc. apply negb_true_iff in Hc. subst level.
        split; [reflexivity|]. exists samples, rest_t, rest_b.
        split; [rewrite Hb, Hbb, Hl; reflexivity|]. split; [exact Ht|].
        apply world_ext; wsimpl; reflexivity. }
    destruct Hcase as (-> & samples & rest_t & rest_b & Hbb & Ht & ->).
    cbn [negb andb when].
    apply wp_bind. intros u w2 Erel. destruct u.
    apply wp_bind, wp_millis. intros t rest' Ht'.
    apply wp_bind, wp_modify. apply wp_modify.
    exact (Hrel now rest samples rest_t rest_b w2 t rest' Hnow Hel eq_refl Hbb Ht Erel Ht').
  - (* not down at the last poll *)
    apply wp_bind.
    eapply wp_of_eq; [apply checkButton_hold_skip; apply andb_false_r|].
    rewrite andb_false_r. cbn [when].
    apply wp_bind, wp_ret. apply wp_bind, wp_millis. intros t rest' Ht'.
    apply wp_bind, wp_modify. apply wp_modify. wsimpl.
    replace (set_button_was_pressed (negb level) _)
      with (set_button_was_pressed (negb level)
              (set_last_button_check (Some (to_long t))
                 (set_millis_in rest' (set_button_in restb w))));
      [apply (Hidle now t rest' level restb); auto;
       rewrite Hnow; f_equal; exact Ht'|].
    apply world_ext; wsimpl; reflexivity.
Qed.

(** The release handler run from the world the hold loop leaves. *)
Lemma release_after_hold (w w2 : World) (samples rest_t : list Z)
      (rest_b : list bool) (rest : list Z) :
  tilt_pot_in w = samples ++ rest_t ->
  checkButton_release
    (set_button_in rest_b
       (set_tilt_pot_in rest_t
          (set_out (out w ++ List.map hold_call samples)
             (set_millis_in rest w)))) = Some (tt, w2) ->
  button_in w2 = rest_b /\ millis_in w2 = rest /\
  button_was_pressed w2 = button_was_pressed w /\
  run_mode w2 = next_mode (run_mode w) /\
  exists color,
    out w2 = out w ++ List.map hold_call samples
                   ++ release_calls (run_mode w) color /\
    (run_mode w = MODE_AUTO ->
     exists p ps t ts,
       pan_pot_in w = p :: ps /\ rest_t = t :: ts /\ color = led_color p t /\
       pan_pot_in w2 = ps /\ tilt_pot_in w2 = ts) /\
    (run_mode w <> MODE_AUTO ->
     pan_pot_in w2 = pan_pot_in w /\ tilt_pot_in w2 = rest_t).
Proof.
  intros Ht Erel. revert Erel. generalize tt at 1. intros u Erel.
  revert u w2 Erel.
  match goal with
  | |- forall u w2, checkButton_release ?W = _ -> @?P u w2 =>
      change (wp checkButton_release P W)
  end.
  apply wp_checkButton_release; wsimpl.
  - intros Hmode color.
    repeat (split; [reflexivity|]).
    exists color. split; [rewrite <- app_assoc; reflexivity|].
    split; [intros Ha; contradiction|]. intros _. split; reflexivity.
  - intros Hmode p ps t0 ts Hp Ht0.
    repeat (split; [reflexivity|]).
    split; [rewrite Hmode; reflexivity|].
    exists (led_color p t0). split; [rewrite Hmode, <- app_assoc; reflexivity|].
    split; [|intros Hn; contradiction].
    intros _. exists p, ps, t0, ts. auto.
Qed.

Lemma checkButton_statics_frame (w w0 : World) (last : Z) :
  checkButton_statics w = Some (last, w0) ->
  out w0 = out w /\ run_mode w0 = run_mode w /\
  button_was_pressed w0 = button_was_pressed w /\
  pan_pot_in w0 = pan_pot_in w /\ tilt_pot_in w0 = tilt_pot_in w.
Proof.
  intros E.
  enough (H : wp checkButton_statics
                (fun _ w1 =>
                   out w1 = out w /\ run_mode w1 = run_mode w /\
                   button_was_pressed w1 = button_was_pressed w /\
                   pan_pot_in w1 = pan_pot_in w /\ tilt_pot_in w1 = tilt_pot_in w) w)
    by exact (H last w0 E).
  unfold checkButton_statics. apply wp_bind, wp_gets.
  destruct (last_button_check w) as [t|]; wp_go; repeat split.
Qed.

Lemma checkButton_poll_shape (last : Z) (w : World) :
  wp (checkButton_poll last) (fun _ w' => button_step w w') w.
Proof.
  apply wp_checkButton_poll.
  - intros now rest Hm Hin. left. unfold released. wsimpl.
    rewrite andb_negb_r. repeat split.
  - intros now t rest level restb Hm Hpast Hwas Hb. left.
    unfold released. wsimpl. rewrite Hwas. repeat split.
  - intros now rest samples rest_t rest_b w2 t rest' Hm Hpast Hwas Hb Ht Erel Hm2.
    right. unfold released. wsimpl. rewrite Hwas. split; [reflexivity|].
    destruct (release_after_hold w w2 samples rest_t rest_b rest Ht Erel)
      as (_ & _ & _ & Md & color & O & Ha & Hn).
    exists samples, rest_t, color. auto.
Qed.

Lemma checkButton_shape (w w' : World) :
  checkButton w = Some (tt, w') -> button_step w w'.
Proof.
  intros E. rewrite checkButton_split in E. unfold bind in E.
  destruct (checkButton_statics w) as [[last w0]|] eqn:Es; [|discriminate].
  destruct (checkButton_statics_frame w w0 last Es) as (O & Md & B & P & T).
  pose proof (checkButton_poll_shape last w0 tt w' E) as H.
  unfold button_step, released in *. rewrite O, Md, B, P, T in H. exact H.
Qed.

(** ** What an execution leaves alone, and the calls it can make *)

Lemma untouched_refl {A} (f : World -> A) (w : World) : untouched f w w.
Proof. reflexivity. Qed.

Lemma untouched_trans {A} (f : World -> A) (w1 w2 w3 : World) :
  untouched f w1 w2 -> untouched f w2 w3 -> untouched f w1 w3.
Proof. unfold untouched. congruence. Qed.

Lemma only_refl (P : Event -> Prop) (w : World) : only P w w.
Proof. exists []. rewrite app_nil_r. split; [reflexivity|constructor]. Qed.

Lemma only_trans (P : Event -> Prop) (w1 w2 w3 : World) :
  only P w1 w2 -> only P w2 w3 -> only P w1 w3.
Proof.
  intros (e1 & O1 & F1) (e2 & O2 & F2). exists (e1 ++ e2).
  split; [rewrite O2, O1, app_assoc; reflexivity|].
  apply Forall_app_intro; assumption.
Qed.

Lemma only_silent (P : Event -> Prop) (w w' : World) : out w' = out w -> only P w w'.
Proof. intros O. exists []. rewrite app_nil_r. split; [exact O|constructor]. Qed.

Lemma only_emit (P : Event -> Prop) (e : Event) : P e -> stable (only P) (emit e).
Proof.
  intros He w. apply wp_emit. exists [e]. split; [reflexivity|].
  constructor; [exact He|constructor].
Qed.

Lemma only_weaken (P Q : Event -> Prop) (w w' : World) :
  (forall e, P e -> Q e) -> only P w w' -> only Q w w'.
Proof.
  intros HPQ (evs & O & F). exists evs. split; [exact O|].
  eapply Forall_impl; [exact HPQ|exact F].
Qed.

Lemma for_each_stable (R : World -> World -> Prop) {A} (l : list A) (body : A -> M unit) :
  (forall w, R w w) -> (forall w1 w2 w3, R w1 w2 -> R w2 w3 -> R w1 w3) ->
  (forall x, In x l -> stable R (body x)) -> stable R (for_each l body).
Proof.
  intros Hrefl Htrans. induction l as [|x l IH]; intros Hbody; cbn [for_each].
  - apply stable_ret, Hrefl.
  - apply stable_bind; [exact Htrans|apply Hbody; left; reflexivity|].
    intros _. apply IH. intros y Hy. apply Hbody. right. exact Hy.
Qed.

Lemma checkButton_hold_stable (R : World -> World -> Prop) :
  (forall w, R w w) -> (forall w1 w2 w3, R w1 w2 -> R w2 w3 -> R w1 w3) ->
  stable R (analogRead TILT_POT) -> stable R digitalRead_BUTTON ->
  (forall v, stable R (emit (hold_call v))) ->
  forall fuel pressed was, stable R (checkButton_hold fuel pressed was).
Proof.
  intros Hrefl Htrans Hread Hbutton Hemit.
  induction fuel as [|fuel IH]; intros pressed was; cbn [checkButton_hold];
    destruct (pressed && was).
  - intros w a w' E. discriminate.
  - apply stable_ret, Hrefl.
  - apply stable_bind; [exact Htrans|exact Hread|intros v].
    apply stable_bind; [exact Htrans|apply Hemit|intros _].
    apply stable_bind; [exact Htrans|exact Hbutton|intros level].
    apply IH.
  - apply stable_ret, Hrefl.
Qed.

Lemma loops_stable (R : World -> World -> Prop) :
  (forall w, R w w) -> (forall w1 w2 w3, R w1 w2 -> R w2 w3 -> R w1 w3) ->
  stable R loop -> forall n, stable R (loops n).
Proof.
  intros Hrefl Htrans Hloop. induction n as [|n IH]; cbn [loops].
  - apply stable_ret, Hrefl.
  - apply stable_bind; [exact Htrans|exact Hloop|intros _; exact IH].
Qed.

Lemma pixel_indices_range (i : Z) : In i pixel_indices -> 0 <= i < LED_COUNT.
Proof.
  unfold pixel_indices, strip_numPixels, LED_COUNT. intros H.
  apply in_map_iff in H. destruct H as (k & <- & Hk).
  apply in_seq in Hk. lia.
Qed.

(** One step of a proof that a relation is kept: the structure of the
    program is followed down to its primitive steps. *)
Ltac stable_step refl trans :=
  lazymatch goal with
  | |- stable _ (bind _ _) => apply stable_bind; [trans| |intros ?]
  | |- stable _ (ret _) => apply stable_ret; refl
  | |- stable _ (gets _) => apply stable_gets; refl
  | |- stable _ (when _ _) => unfold when
  | |- stable _ (if _ then _ else _) => apply stable_if
  | |- stable _ (match ?x with Some _ => _ | None => _ end) => destruct x
  | |- stable _ (random _ _) => unfold random; cbv zeta
  | |- stable _ (for_each _ _) =>
      apply for_each_stable; [refl|trans|intros ? ?]
  | |- stable _ (checkButton_hold _ _ _) =>
      apply checkButton_hold_stable; [refl|trans| | |intros ?]
  end.

Ltac untouched_prim :=
  lazymatch goal with
  | |- stable (untouched _) (emit _) => intros ?; apply wp_emit; reflexivity
  | |- stable (untouched _) (modify _) => intros ?; apply wp_modify; reflexivity
  | |- stable (untouched _) millis => intros ?; apply wp_millis; intros; reflexivity
  | |- stable (untouched _) digitalRead_BUTTON =>
      intros ?; apply wp_digitalRead_BUTTON; intros; reflexivity
  | |- stable (untouched _) (analogRead PAN_POT) =>
      intros ?; apply wp_analogRead_PAN; intros; reflexivity
  | |- stable (untouched _) (analogRead TILT_POT) =>
      intros ?; apply wp_analogRead_TILT; intros; reflexivity
  | |- stable (untouched _) raw_random =>
      intros ?; apply wp_raw_random; intros; reflexivity
  end.

Ltac untouched_go :=
  repeat first [ stable_step ltac:(apply untouched_refl) ltac:(apply untouched_trans)
               | untouched_prim ].

Ltac only_prim :=
  lazymatch goal with
  | |- stable (only _) (emit _) =>
      apply only_emit; cbn;
      first [ exact I | reflexivity | apply pixel_indices_range; assumption
            | solve [auto 12] ]
  | |- stable (only _) (modify _) =>
      intros ?; apply wp_modify; apply only_silent; reflexivity
  | |- stable (only _) millis =>
      intros ?; apply wp_millis; intros; apply only_silent; reflexivity
  | |- stable (only _) digitalRead_BUTTON =>
      intros ?; apply wp_digitalRead_BUTTON; intros; apply only_silent; reflexivity
  | |- stable (only _) (analogRead PAN_POT) =>
      intros ?; apply wp_analogRead_PAN; intros; apply only_silent; reflexivity
  | |- stable (only _) (analogRead TILT_POT) =>
      intros ?; apply wp_analogRead_TILT; intros; apply only_silent; reflexivity
  | |- stable (only _) raw_random =>
      intros ?; apply wp_raw_random; intros; apply only_silent; reflexivity
  end.

Ltac only_go :=
  repeat first [ stable_step ltac:(apply only_refl) ltac:(apply only_trans)
               | only_prim ].

(** Every function of the sketch down to the calls it makes. *)
Ltac unfold_sketch :=
  unfold loop, checkButton, checkButton_statics, checkButton_release, colorWipe,
    runNormalMode, updateServos, runAutoMode, runAutoMode_statics,
    runAutoMode_quota, runAutoMode_move, runAutoMode_target, runLEDMode,
    POSITION_DEBUG.

Lemma loop_keeps_old_pan : stable (untouched old_pan_pos) loop.
Proof. unfold_sketch. untouched_go. Qed.

Lemma loop_keeps_old_tilt : stable (untouched old_tilt_pos) loop.
Proof. unfold_sketch. untouched_go. Qed.

Lemma checkButton_keeps_old (w w' : World) :
  checkButton w = Some (tt, w') ->
  old_pan_pos w' = old_pan_pos w /\ old_tilt_pos w' = old_tilt_pos w.
Proof.
  intros E.
  assert (S1 : stable (untouched old_pan_pos) checkButton)
    by (unfold_sketch; untouched_go).
  assert (S2 : stable (untouched old_tilt_pos) checkButton)
    by (unfold_sketch; untouched_go).
  split; [exact (S1 w tt w' E)|exact (S2 w tt w' E)].
Qed.

Lemma runNormalMode_calls : stable (only manual_call) runNormalMode.
Proof. unfold_sketch. only_go. Qed.

Lemma runAutoMode_calls : stable (only auto_call) runAutoMode.
Proof. unfold_sketch. only_go. Qed.

Lemma runLEDMode_calls : stable (only ambient_call) runLEDMode.
Proof. unfold_sketch. only_go. Qed.

Lemma checkButton_calls : stable (only button_call) checkButton.
Proof. unfold_sketch. only_go. Qed.

Lemma runLEDMode_keeps_mode (w w' : World) :
  runLEDMode w = Some (tt, w') -> run_mode w' = run_mode w.
Proof.
  intros E. destruct (runLEDMode_effect w tt w' E) as (_ & _ & evs & _ & _ & _ & Md).
  exact Md.
Qed.

Lemma runAutoMode_keeps_mode (w w' : World) :
  runAutoMode w = Some (tt, w') -> run_mode w' = run_mode w.
Proof.
  intros E. destruct (runAutoMode_keeps w tt w' E) as (_ & Md & _). exact Md.
Qed.

(** ** The passes of the loop *)

(** A pass of the loop is the button monitor followed by the behaviour of
    the mode it leaves. *)
Lemma loop_cases (w w' : World) :
  loop w = Some (tt, w') ->
  exists w1, checkButton w = Some (tt, w1) /\
    ((run_mode w1 = MODE_NORMAL /\ runNormalMode w1 = Some (tt, w')) \/
     (run_mode w1 = MODE_AUTO /\ runAutoMode w1 = Some (tt, w')) \/
     (run_mode w1 = MODE_LED /\ runLEDMode w1 = Some (tt, w')) \/
     (~ valid_mode (run_mode w1) /\ w' = w1)).
Proof.
  unfold loop. intros E. unfold bind at 1 in E.
  destruct (checkButton w) as [[[] w1]|] eqn:Eb; [|discriminate].
  exists w1. split; [reflexivity|]. rewrite bind_gets in E.
  destruct (run_mode w1 =? MODE_NORMAL) eqn:E0;
    [apply Z.eqb_eq in E0; left; auto|].
  destruct (run_mode w1 =? MODE_AUTO) eqn:E1;
    [apply Z.eqb_eq in E1; right; left; auto|].
  destruct (run_mode w1 =? MODE_LED) eqn:E2;
    [apply Z.eqb_eq in E2; right; right; left; auto|].
  right. right. right. apply Z.eqb_neq in E0, E1, E2.
  split; [unfold valid_mode; tauto|]. inversion E. reflexivity.
Qed.

(** A property kept by the button monitor and by each behaviour in its own
    mode is kept by any number of passes. *)
Lemma loops_invariant (I : World -> Prop) :
  (forall w w', I w -> checkButton w = Some (tt, w') -> I w') ->
  (forall w w', I w -> run_mode w = MODE_NORMAL ->
                runNormalMode w = Some (tt, w') -> I w') ->
  (forall w w', I w -> run_mode w = MODE_AUTO ->
                runAutoMode w = Some (tt, w') -> I w') ->
  (forall w w', I w -> run_mode w = MODE_LED ->
                runLEDMode w = Some (tt, w') -> I w') ->
  forall n w w', I w -> loops n w = Some (tt, w') -> I w'.
Proof.
  intros Hb Hn Ha Hl. induction n as [|n IH]; intros w w' Hw E; cbn [loops] in E.
  - inversion E; subst. exact Hw.
  - unfold bind in E. destruct (loop w) as [[[] w1]|] eqn:El; [|discriminate].
    apply (IH w1 w'); [|exact E].
    destruct (loop_cases w w1 El) as (w0 & Eb & [[Hm Er]|[[Hm Er]|[[Hm Er]|[Hm ->]]]]).
    + exact (Hn w0 w1 (Hb w w0 Hw Eb) Hm Er).
    + exact (Ha w0 w1 (Hb w w0 Hw Eb) Hm Er).
    + exact (Hl w0 w1 (Hb w w0 Hw Eb) Hm Er).
    + exact (Hb w w0 Hw Eb).
Qed.

Lemma hold_calls_Forall (P : Event -> Prop) (samples : list Z) :
  Forall (fun v => P (hold_call v)) samples -> Forall P (List.map hold_call samples).
Proof. intros H. induction H; constructor; assumption. Qed.

Lemma wipe_calls_Forall (P : Event -> Prop) (color : Color) (wait : Z) :
  (forall i, 0 <= i < LED_COUNT -> P (strip_setPixelColor i color)) ->
  P strip_show -> P (delay wait) -> Forall P (wipe_calls color wait).
Proof.
  intros Hset Hshow Hdelay. unfold wipe_calls.
  apply Forall_flat_map. apply Forall_forall. intros i Hi.
  apply pixel_indices_range in Hi.
  constructor; [apply Hset, Hi|]. constructor; [exact Hshow|].
  constructor; [exact Hdelay|constructor].
Qed.

(** ** The status LED *)

Lemma status_led_app (lit : bool) (l1 l2 : list Event) :
  status_led lit (l1 ++ l2) = status_led (status_led lit l1) l2.
Proof. unfold status_led. apply fold_left_app. Qed.

Lemma status_led_quiet (lit : bool) (evs : list Event) :
  Forall (fun e => is_digitalWrite e = false) evs -> status_led lit evs = lit.
Proof.
  intros H. induction H as [|e l He _ IH]; [reflexivity|].
  cbn [status_led fold_left]. destruct e; try discriminate; exact IH.
Qed.

Lemma status_led_release (lit : bool) (mode : Z) (color : Color) :
  status_led lit (release_calls mode color) =
  if mode =? MODE_NORMAL then true
  else if mode =? MODE_AUTO then false
  else lit.
Proof.
  unfold release_calls. rewrite status_led_app.
  change (status_led lit [Serial_println "Button pressed!"; Serial_println_int mode])
    with lit.
  destruct (mode =? MODE_NORMAL); [reflexivity|].
  destruct (mode =? MODE_AUTO).
  - rewrite status_led_app.
    change (status_led lit [Serial_println "Entering LED mode"; digitalWrite LED false])
      with false.
    apply status_led_quiet. apply wipe_calls_Forall; reflexivity.
  - destruct (mode =? MODE_LED); [|reflexivity].
    rewrite status_led_app. apply status_led_quiet.
    apply wipe_calls_Forall; reflexivity.
Qed.

(** ** The light ring *)

Lemma ring_after_app (r : Ring) (l1 l2 : list Event) :
  ring_after r (l1 ++ l2) = ring_after (ring_after r l1) l2.
Proof. unfold ring_after. apply fold_left_app. Qed.

Lemma ring_after_quiet (r : Ring) (evs : list Event) :
  Forall (fun e => is_strip_call e = false) evs -> ring_after r evs = r.
Proof.
  intros H. induction H as [|e l He _ IH]; [reflexivity|].
  cbn [ring_after fold_left]. destruct e; try discriminate; exact IH.
Qed.

Lemma pixel_index_cases (i : Z) :
  0 <= i < LED_COUNT ->
  i = 0 \/ i = 1 \/ i = 2 \/ i = 3 \/ i = 4 \/ i = 5 \/ i = 6 \/ i = 7 \/
  i = 8 \/ i = 9 \/ i = 10 \/ i = 11 \/ i = 12 \/ i = 13 \/ i = 14 \/ i = 15.
Proof. unfold LED_COUNT. lia. Qed.

(** [colorWipe] leaves the whole ring showing its colour. *)
Lemma wipe_uniform (r : Ring) (color : Color) (wait : Z) :
  uniform color (ring_after r (wipe_calls color wait)).
Proof.
  intros i Hi. apply pixel_index_cases in Hi.
  repeat (destruct Hi as [->|Hi]); [..|subst i]; split; reflexivity.
Qed.

(** The pixel loop of Ambient mode followed by [strip.show] does the same. *)
Lemma paint_uniform (r : Ring) (color : Color) (evs : list Event) :
  Forall (fun e => is_strip_call e = false) evs ->
  uniform color (ring_after r (paint_calls color ++ strip_show :: evs)).
Proof.
  intros Hq. rewrite ring_after_app.
  change (strip_show :: evs) with ([strip_show] ++ evs).
  rewrite ring_after_app, (ring_after_quiet _ evs Hq).
  intros i Hi. apply pixel_index_cases in Hi.
  repeat (destruct Hi as [->|Hi]); [..|subst i]; split; reflexivity.
Qed.

Lemma ring_after_release (r : Ring) (mode : Z) (color : Color) :
  (mode = MODE_AUTO -> uniform color (ring_after r (release_calls mode color))) /\
  (mode = MODE_LED ->
   uniform (Color_rgb 0 0 0) (ring_after r (release_calls mode color))) /\
  (mode <> MODE_AUTO -> mode <> MODE_LED ->
   ring_after r (release_calls mode color) = r).
Proof.
  unfold release_calls. split; [|split].
  - intros ->. cbn [Z.eqb MODE_AUTO MODE_NORMAL]. cbv iota.
    repeat rewrite ring_after_app. apply wipe_uniform.
  - intros ->. cbn [Z.eqb MODE_LED MODE_AUTO MODE_NORMAL Pos.eqb]. cbv iota.
    repeat rewrite ring_after_app. apply wipe_uniform.
  - intros N1 N2. apply Z.eqb_neq in N1, N2. rewrite N1, N2.
    destruct (mode =? MODE_NORMAL); reflexivity.
Qed.

(** ** The mode and the log *)

Lemma next_mode_valid (m : Z) : valid_mode m -> valid_mode (next_mode m).
Proof.
  unfold valid_mode. intros [-> | [-> | ->]]; cbn; auto.
Qed.

Lemma release_calls_valid (mode : Z) (color : Color) :
  valid_mode mode ->
  Forall (fun e => is_invalid_line e = false) (release_calls mode color).
Proof.
  unfold release_calls.
  intros [-> | [-> | ->]]; cbn [Z.eqb MODE_NORMAL MODE_AUTO MODE_LED Pos.eqb]; cbv iota;
    repeat first [ apply Forall_nil
                 | apply Forall_cons; [reflexivity|]
                 | apply Forall_app_intro
                 | apply wipe_calls_Forall; reflexivity ].
Qed.

Lemma release_calls_bounds (mode : Z) (color : Color) :
  Forall pass_call (release_calls mode color).
Proof.
  unfold release_calls.
  apply Forall_cons; [exact I|]. apply Forall_cons; [exact I|].
  destruct (mode =? MODE_NORMAL); [repeat constructor|].
  destruct (mode =? MODE_AUTO).
  { apply Forall_cons; [exact I|]. apply Forall_cons; [reflexivity|].
    apply wipe_calls_Forall; cbn; auto. }
  destruct (mode =? MODE_LED); [|repeat constructor].
  apply Forall_cons; [exact I|]. apply wipe_calls_Forall; cbn; auto.
Qed.

Lemma releases_release_calls (mode : Z) (color : Color) (evs : list Event) :
  releases (release_calls mode color ++ evs) <> 0%nat.
Proof.
  unfold release_calls. rewrite <- app_assoc. cbn [app].
  unfold releases. cbn [filter is_release_line].
  change (String.eqb "Button pressed!" "Button pressed!") with true.
  cbv iota. cbn [List.length]. discriminate.
Qed.

(** ** The servo writes of Manual mode *)

Lemma pan_writes_app (l1 l2 : list Event) :
  pan_writes (l1 ++ l2) = pan_writes l1 ++ pan_writes l2.
Proof. unfold pan_writes. apply flat_map_app. Qed.

Lemma tilt_writes_app (l1 l2 : list Event) :
  tilt_writes (l1 ++ l2) = tilt_writes l1 ++ tilt_writes l2.
Proof. unfold tilt_writes. apply flat_map_app. Qed.

(** One pass of Manual mode with the remembered angles at zero: one reading
    of each sensor is taken and its angle written. *)
Lemma runNormalMode_writes (w w' : World) :
  old_pan_pos w = 0 -> old_tilt_pos w = 0 -> valid_inputs w ->
  runNormalMode w = Some (tt, w') ->
  exists p t evs,
    pan_pot_in w = p :: pan_pot_in w' /\ tilt_pot_in w = t :: tilt_pot_in w' /\
    out w' = out w ++ evs /\ releases evs = 0%nat /\
    pan_writes evs = [manual_pan p] /\ tilt_writes evs = [manual_tilt t] /\
    pan_pos w' = manual_pan p /\ tilt_pos w' = manual_tilt t.
Proof.
  intros Hop Hot (Hp & Ht & _) E. revert E. generalize tt at 1.
  intros u E. revert u w' E.
  change (wp runNormalMode
            (fun _ w' =>
               exists p t evs,
                 pan_pot_in w = p :: pan_pot_in w' /\
                 tilt_pot_in w = t :: tilt_pot_in w' /\
                 out w' = out w ++ evs /\ releases evs = 0%nat /\
                 pan_writes evs = [manual_pan p] /\
                 tilt_writes evs = [manual_tilt t] /\
                 pan_pos w' = manual_pan p /\ tilt_pos w' = manual_tilt t) w).
  unfold runNormalMode, POSITION_DEBUG. wp_go. use_heads.
  exists v, v0. eexists.
  split; [assumption|]. split; [assumption|].
  split; [repeat rewrite <- app_assoc; reflexivity|].
  unfold pan_calls, tilt_calls. wsimpl. rewrite Hop, Hot.
  match goal with
  | Hv : reading_ok v |- _ =>
      destruct (dead_band_never_holds_back v Hv) as [-> _]
  end.
  match goal with
  | Hv : reading_ok v0 |- _ =>
      destruct (dead_band_never_holds_back v0 Hv) as [_ ->]
  end.
  unfold manual_pan, manual_tilt.
  generalize (to_int (Arduino.map v 0 1023 MAX_PAN MIN_PAN))
             (to_int (Arduino.map v0 0 1023 MAX_TILT MIN_TILT)).
  intros a b. cbn [app].
  split; [reflexivity|]. split; [reflexivity|]. split; [reflexivity|].
  split; reflexivity.
Qed.

(** ** The pauses *)

Lemma pause_app (l1 l2 : list Event) : pause (l1 ++ l2) = pause l1 + pause l2.
Proof.
  induction l1 as [|e l1 IH]; [reflexivity|].
  cbn [app pause fold_right]. fold (pause (l1 ++ l2)). fold (pause l1).
  rewrite IH. destruct e; lia.
Qed.

Lemma pause_quiet (evs : list Event) :
  Forall (fun e => is_delay e = false) evs -> pause evs = 0.
Proof.
  intros H. induction H as [|e l He _ IH]; [reflexivity|].
  cbn [pause fold_right]. fold (pause l). destruct e; try discriminate; exact IH.
Qed.

(** [colorWipe] pauses once per cell. *)
Lemma pause_wipe (color : Color) (wait : Z) :
  pause (wipe_calls color wait) = LED_COUNT * wait.
Proof.
  unfold wipe_calls, LED_COUNT.
  change pixel_indices with [0; 1; 2; 3; 4; 5; 6; 7; 8; 9; 10; 11; 12; 13; 14; 15].
  cbn [flat_map app pause fold_right]. lia.
Qed.

Lemma pause_release (mode : Z) (color : Color) :
  pause (release_calls mode color) =
  if (mode =? MODE_AUTO) || (mode =? MODE_LED) then LED_COUNT * 40 else 0.
Proof.
  unfold release_calls. rewrite pause_app.
  change (pause [Serial_println "Button pressed!"; Serial_println_int mode]) with 0.
  destruct (mode =? MODE_NORMAL) eqn:E0.
  { apply Z.eqb_eq in E0. subst mode. reflexivity. }
  destruct (mode =? MODE_AUTO) eqn:E1.
  { rewrite pause_app, pause_wipe. reflexivity. }
  destruct (mode =? MODE_LED) eqn:E2.
  { rewrite pause_app, pause_wipe. reflexivity. }
  reflexivity.
Qed.

Lemma pause_hold (samples : list Z) : pause (List.map hold_call samples) = 0.
Proof.
  apply pause_quiet. induction samples; constructor; [reflexivity|assumption].
Qed.

Lemma runNormalMode_pause (w w' : World) :
  runNormalMode w = Some (tt, w') -> pause (calls_since w w') = 50.
Proof.
  intros E. revert E. generalize tt at 1. intros u E. revert u w' E.
  change (wp runNormalMode (fun _ w' => pause (calls_since w w') = 50) w).
  unfold runNormalMode, POSITION_DEBUG. wp_go.
  erewrite calls_since_app by (wsimpl; repeat rewrite <- app_assoc; reflexivity).
  repeat rewrite pause_app.
  assert (Hp : forall w0, pause (pan_calls w0) = 0)
    by (intros w0; unfold pan_calls; destruct (exceeds_dead_band _ _); reflexivity).
  assert (Ht : forall w0, pause (tilt_calls w0) = 0)
    by (intros w0; unfold tilt_calls; destruct (exceeds_dead_band _ _); reflexivity).
  rewrite Hp, Ht. reflexivity.
Qed.

Lemma runAutoMode_pause (w w' : World) :
  runAutoMode w = Some (tt, w') -> pause (calls_since w w') = 0.
Proof.
  intros E. destruct (runAutoMode_calls w tt w' E) as (evs & O & F).
  rewrite (calls_since_app w w' evs O). apply pause_quiet.
  eapply Forall_impl; [|exact F].
  intros e He. destruct e; try reflexivity; contradiction.
Qed.

Lemma runLEDMode_pause (w w' : World) :
  runLEDMode w = Some (tt, w') -> pause (calls_since w w') = 10.
Proof.
  intros E. revert E. generalize tt at 1. intros u E. revert u w' E.
  change (wp runLEDMode (fun _ w' => pause (calls_since w w') = 10) w).
  unfold runLEDMode. wp_go.
  erewrite calls_since_app by (wsimpl; repeat rewrite <- app_assoc; reflexivity).
  rewrite pause_app. unfold paint_calls.
  change pixel_indices with [0; 1; 2; 3; 4; 5; 6; 7; 8; 9; 10; 11; 12; 13; 14; 15].
  reflexivity.
Qed.

(** ** Autonomous mode: when it moves *)

Lemma moved_interval (s : AutoStatics) (r : Z) :
  valid_raw r -> interval_drawn (moved s r).
Proof.
  intros Hr. unfold interval_drawn, moved,
    MIN_RAPID_INTERVAL, MAX_RAPID_INTERVAL, MIN_NORMAL_INTERVAL, MAX_NORMAL_INTERVAL.
  pose proof (random_upto_range r 700 Hr ltac:(lia)) as H1.
  pose proof (random_upto_range r 3000 Hr ltac:(lia)) as H2.
  unfold Arduino.random_upto in *.
  destruct (rapid_mode s) eqn:E; wsimpl; rewrite E; lia.
Qed.

Lemma runAutoMode_move_outcome (s0 s : AutoStatics) (w0 w : World) :
  burst_inv s -> burst_count s < burst_ceiling s ->
  Forall valid_raw (random_in w) ->
  last_move s = last_move s0 -> move_interval s = move_interval s0 ->
  millis_in w = millis_in w0 -> out w = out w0 ->
  wp (s2 <- runAutoMode_move s ;; modify (set_auto_statics (Some s2)))
     (fun _ w' => auto_outcome s0 w0 w') w.
Proof.
  intros Hinv Hlt Hv Hl Hi Hm Ho.
  assert (Hel : forall now, elapsed s now = elapsed s0 now)
    by (intros now; unfold elapsed; rewrite Hl, Hi; reflexivity).
  apply wp_bind. apply wp_runAutoMode_move; [exact Hinv|exact Hlt|exact Hv| |].
  - intros now rest Hnow Hidle. apply wp_modify.
    exists now, rest, s. rewrite <- Hm, <- (Hel now), Hidle, <- Ho. wsimpl.
    repeat split; assumption.
  - intros now t restm r0 r1 r2 restr Hnow Hdue Hr V0 V1 V2 Vr. apply wp_modify.
    exists now, (t :: restm), (set_last_move (to_long t) (moved s r0)).
    rewrite <- Hm, <- (Hel now), Hdue, <- Ho. wsimpl.
    split; [exact Hnow|]. split; [reflexivity|].
    exists t, r1, r2. repeat (split; [assumption || reflexivity|]).
    exact (moved_interval s r0 V0).
Qed.

Lemma runAutoMode_body_outcome (s : AutoStatics) (w0 w : World) :
  burst_inv s -> Forall valid_raw (random_in w) ->
  millis_in w = millis_in w0 -> out w = out w0 ->
  wp (s1 <- runAutoMode_quota s ;;
      s2 <- runAutoMode_move s1 ;;
      modify (set_auto_statics (Some s2)))
     (fun _ w' => auto_outcome s w0 w') w.
Proof.
  intros Hinv Hv Hm Ho.
  apply wp_bind. apply wp_runAutoMode_quota; [exact Hinv|exact Hv| |].
  - intros Hlt. apply runAutoMode_move_outcome; auto.
  - intros r rest Hfull Hr Vr Vrest.
    destruct (flipped_inv s r Hinv Vr) as (If & _ & _ & Hlt).
    apply runAutoMode_move_outcome; auto.
    + unfold flipped. destruct (rapid_mode s); reflexivity.
    + unfold flipped. destruct (rapid_mode s); reflexivity.
Qed.

(** ** Two facts of arithmetic *)

Lemma to_int_map (x lo hi : Z) :
  0 <= x <= 1023 -> -1000 <= lo <= 1000 -> -1000 <= hi <= 1000 ->
  to_int (Arduino.map x 0 1023 lo hi) = Arduino.map x 0 1023 lo hi.
Proof.
  intros Hx Hlo Hhi.
  pose proof (map_between x lo hi Hx ltac:(lia) ltac:(lia)) as H.
  apply to_int_small. lia.
Qed.

(** The test of [updateServos] as a comparison of the distance. *)
Lemma exceeds_dead_band_ltb (old new : Z) :
  -1000 <= old <= 1000 -> -1000 <= new <= 1000 ->
  exceeds_dead_band old new = (1 <? Z.abs (old - new)).
Proof.
  intros Ho Hn. pose proof (exceeds_dead_band_iff old new Ho Hn) as H.
  destruct (1 <? Z.abs (old - new)) eqn:C.
  - apply H. apply Z.ltb_lt, C.
  - apply not_true_is_false. intros E. apply H in E. apply Z.ltb_ge in C. lia.
Qed.

(** * Further properties *)

(** X1. The mappings of the sensors keep the order of the readings or
    reverse it: a larger reading never gives a larger pan or tilt angle in
    Manual mode, and never a smaller ring brightness or a smaller laser
    brightness in the hold loop. *)
Theorem X1_sensor_mappings_monotone (x y : Z)
        (Hx : 0 <= x <= y) (Hy : y <= 1023) :
  manual_pan y <= manual_pan x /\
  manual_tilt y <= manual_tilt x /\
  fade_val_of x <= fade_val_of y /\
  exists a b, hold_call x = analogWrite LASER a /\
              hold_call y = analogWrite LASER b /\ a <= b.
Proof.
  unfold manual_pan, manual_tilt, fade_val_of, hold_call,
    MAX_PAN, MIN_PAN, MAX_TILT, MIN_TILT.
  rewrite !to_int_map by lia.
  split; [apply (map_monotone x y 150 23); lia|].
  split; [apply (map_monotone x y 37 2); lia|].
  split; [apply (map_monotone x y 60 255); lia|].
  eexists. eexists. split; [reflexivity|]. split; [reflexivity|].
  apply (map_monotone x y 0 255); lia.
Qed.

Lemma X1_sensor_mappings_monotone_witness :
  manual_pan 1023 <= manual_pan 0 /\ fade_val_of 0 <= fade_val_of 1023.
Proof.
  pose proof (X1_sensor_mappings_monotone 0 1023 ltac:(lia) ltac:(lia)) as C.
  split; [exact (proj1 C)|exact (proj1 (proj2 (proj2 C)))].
Defined.

(** X2. In Manual mode every angle within the limits of an axis is reached
    by some reading of its sensor. *)
Theorem X2_manual_angles_onto (a b : Z)
        (Ha : MIN_PAN <= a <= MAX_PAN) (Hb : MIN_TILT <= b <= MAX_TILT) :
  exists x y, reading_ok x /\ reading_ok y /\
              manual_pan x = a /\ manual_tilt y = b.
Proof.
  unfold MIN_PAN, MAX_PAN, MIN_TILT, MAX_TILT, reading_ok in *.
  exists (((150 - a) * 1023 + 126) ÷ 127), (((37 - b) * 1023 + 34) ÷ 35).
  assert (Hx : 0 <= ((150 - a) * 1023 + 126) ÷ 127 <= 1023)
    by (Z.to_euclidean_division_equations; nia).
  assert (Hy : 0 <= ((37 - b) * 1023 + 34) ÷ 35 <= 1023)
    by (Z.to_euclidean_division_equations; nia).
  split; [exact Hx|]. split; [exact Hy|].
  rewrite manual_pan_eq by exact Hx. rewrite manual_tilt_eq by exact Hy.
  split; Z.to_euclidean_division_equations; nia.
Qed.

Lemma X2_manual_angles_onto_witness :
  exists x y, reading_ok x /\ reading_ok y /\
              manual_pan x = 150 /\ manual_tilt y = 2.
Proof.
  apply (X2_manual_angles_onto 150 2);
    unfold MIN_PAN, MAX_PAN, MIN_TILT, MAX_TILT; lia.
Defined.

(** X3. Debounce.  Within [BUTTON_CHECK_INTERVAL] of the last poll the
    button monitor only reads the clock: it takes no sample of the button,
    makes no call and assigns no variable.  The time since the last poll is
    measured correctly across the roll-over of the 32-bit clock. *)
Theorem X3_debounce_window (w : World) (t0 d : Z) (rest : list Z)
        (Ht0 : 0 <= t0 < 2 ^ 32) (Hd : 0 <= d <= BUTTON_CHECK_INTERVAL)
        (Hlast : last_button_check w = Some (to_long t0))
        (Hnow : millis_in w = (t0 + d) mod 2 ^ 32 :: rest) :
  checkButton w = Some (tt, set_millis_in rest w).
Proof.
  rewrite (checkButton_saved w _ Hlast).
  apply (checkButton_poll_inside w _ _ rest Hnow).
  rewrite rollover; unfold BUTTON_CHECK_INTERVAL in *; lia.
Qed.

Lemma X3_debounce_window_witness :
  last_button_check near_rollover = Some (to_long 4294967290) /\
  millis_in near_rollover = [(4294967290 + 50) mod 2 ^ 32] /\
  checkButton near_rollover = Some (tt, set_millis_in [] near_rollover).
Proof.
  assert (Hlast : last_button_check near_rollover = Some (to_long 4294967290))
    by reflexivity.
  assert (Hnow : millis_in near_rollover = [(4294967290 + 50) mod 2 ^ 32])
    by reflexivity.
  split; [exact Hlast|]. split; [exact Hnow|].
  apply (X3_debounce_window near_rollover 4294967290 50 []); try assumption.
  - change (2 ^ 32) with 4294967296. lia.
  - unfold BUTTON_CHECK_INTERVAL. lia.
Defined.

(** X4. The first call of the button monitor initialises
    [last_button_check] from the clock and reads the clock again for the
    test; unless more than [BUTTON_CHECK_INTERVAL] passes between the two
    readings it takes no sample of the button and makes no call. *)
Theorem X4_first_call_takes_no_sample (w : World) (t0 d : Z) (rest : list Z)
        (Ht0 : 0 <= t0 < 2 ^ 32) (Hd : 0 <= d <= BUTTON_CHECK_INTERVAL)
        (Hfirst : last_button_check w = None)
        (Hclock : millis_in w = t0 :: (t0 + d) mod 2 ^ 32 :: rest) :
  checkButton w =
  Some (tt, set_last_button_check (Some (to_long t0)) (set_millis_in rest w)).
Proof.
  rewrite checkButton_split. unfold checkButton_statics.
  rewrite bind_assoc, bind_gets, Hfirst. rewrite bind_assoc.
  erewrite bind_eq by (apply millis_eq; exact Hclock).
  rewrite bind_assoc, bind_modify, bind_ret.
  erewrite checkButton_poll_inside.
  - apply f_equal, f_equal. apply world_ext; wsimpl; reflexivity.
  - wsimpl. reflexivity.
  - rewrite rollover; unfold BUTTON_CHECK_INTERVAL in *; lia.
Qed.

Lemma X4_first_call_takes_no_sample_witness :
  last_button_check first_poll = None /\
  millis_in first_poll = [1000; (1000 + 1) mod 2 ^ 32] /\
  checkButton first_poll =
  Some (tt, set_last_button_check (Some (to_long 1000)) (set_millis_in [] first_poll)).
Proof.
  split; [reflexivity|]. split; [reflexivity|].
  apply (X4_first_call_takes_no_sample first_poll 1000 1 []).
  - change (2 ^ 32) with 4294967296. lia.
  - unfold BUTTON_CHECK_INTERVAL. lia.
  - reflexivity.
  - reflexivity.
Defined.

(** X5. A poll past the window with the button not down at the last poll
    takes one sample of the button and records it, reads the clock a second
    time for [last_button_check], and does nothing else: the hold loop and
    the release handler are not entered, no call is made, the mode is
    kept. *)
Theorem X5_poll_records_level (w : World) (last now t : Z) (rest : list Z)
        (level : bool) (restb : list bool)
        (Hlast : last_button_check w = Some last)
        (Hwas : button_was_pressed w = false)
        (Hclock : millis_in w = now :: t :: rest)
        (Hpast : BUTTON_CHECK_INTERVAL < to_ulong (now - last))
        (Hlevel : button_in w = level :: restb) :
  checkButton w =
  Some (tt, set_button_was_pressed (negb level)
              (set_last_button_check (Some (to_long t))
                 (set_millis_in rest (set_button_in restb w)))).
Proof.
  rewrite (checkButton_saved w _ Hlast). unfold checkButton_poll.
  erewrite bind_eq by (apply millis_eq; exact Hclock).
  destruct (to_ulong (now - last) >? BUTTON_CHECK_INTERVAL) eqn:E; [|lia].
  erewrite bind_eq by (apply digitalRead_BUTTON_eq; wsimpl; exact Hlevel).
  rewrite bind_gets. wsimpl. rewrite Hwas. rewrite bind_gets.
  erewrite bind_eq by (apply checkButton_hold_skip; apply andb_false_r).
  rewrite andb_false_r. cbn [when]. rewrite bind_ret.
  erewrite bind_eq by (apply millis_eq; wsimpl; reflexivity).
  rewrite bind_modify, modify_eq.
  apply f_equal, f_equal. apply world_ext; wsimpl; reflexivity.
Qed.

Lemma X5_poll_records_level_witness :
  BUTTON_CHECK_INTERVAL < to_ulong (200 - 0) /\
  checkButton button_goes_down =
  Some (tt, set_button_was_pressed true
              (set_last_button_check (Some (to_long 201))
                 (set_millis_in [] (set_button_in [] button_goes_down)))).
Proof.
  assert (Hpast : BUTTON_CHECK_INTERVAL < to_ulong (200 - 0))
    by (vm_compute; reflexivity).
  split; [exact Hpast|].
  exact (X5_poll_records_level button_goes_down 0 200 201 [] false []
           eq_refl eq_refl eq_refl Hpast eq_refl).
Defined.

(** X6. A press is handled at the next poll.  A poll past the window with
    the button down at the last poll returns only after a sample has found
    the button up; it has then written the laser once for every sample that
    found the button down, handled the release, advanced the mode, and left
    the button recorded as up.  The snapshot colour is computed from the
    readings taken after the hold loop. *)
Theorem X6_press_handled_at_next_poll (w w' : World) (last now : Z) (rest : list Z)
        (Hlast : last_button_check w = Some last)
        (Hwas : button_was_pressed w = true)
        (Hclock : millis_in w = now :: rest)
        (Hpast : BUTTON_CHECK_INTERVAL < to_ulong (now - last))
        (H : checkButton w = Some (tt, w')) :
  button_was_pressed w' = false /\
  run_mode w' = next_mode (run_mode w) /\
  exists (samples rest_t : list Z) (rest_b : list bool) (color : Color),
    button_in w = repeat false (List.length samples) ++ true :: rest_b /\
    button_in w' = rest_b /\
    tilt_pot_in w = samples ++ rest_t /\
    out w' = out w ++ List.map hold_call samples
                   ++ release_calls (run_mode w) color /\
    (run_mode w = MODE_AUTO ->
     exists p ps t ts,
       pan_pot_in w = p :: ps /\ rest_t = t :: ts /\ color = led_color p t /\
       pan_pot_in w' = ps /\ tilt_pot_in w' = ts) /\
    (run_mode w <> MODE_AUTO ->
     pan_pot_in w' = pan_pot_in w /\ tilt_pot_in w' = rest_t).
Proof.
  rewrite (checkButton_saved w _ Hlast) in H. revert H.
  generalize tt at 1. intros u H. revert u w' H.
  change (wp (checkButton_poll last)
             (fun _ w' =>
                button_was_pressed w' = false /\
                run_mode w' = next_mode (run_mode w) /\
                exists (samples rest_t : list Z) (rest_b : list bool) (color : Color),
                  button_in w = repeat false (List.length samples) ++ true :: rest_b /\
                  button_in w' = rest_b /\
                  tilt_pot_in w = samples ++ rest_t /\
                  out w' = out w ++ List.map hold_call samples
                                 ++ release_calls (run_mode w) color /\
                  (run_mode w = MODE_AUTO ->
                   exists p ps t ts,
                     pan_pot_in w = p :: ps /\ rest_t = t :: ts /\
                     color = led_color p t /\
                     pan_pot_in w' = ps /\ tilt_pot_in w' = ts) /\
                  (run_mode w <> MODE_AUTO ->
                   pan_pot_in w' = pan_pot_in w /\ tilt_pot_in w' = rest_t)) w).
  apply wp_checkButton_poll.
  - intros now' rest0 Hm Hin. rewrite Hclock in Hm. injection Hm as <- <-. lia.
  - intros now' t rest0 level restb _ _ Hw. congruence.
  - intros now' rest0 samples rest_t rest_b w2 t rest' _ _ _ Hb Ht Erel Hm2.
    destruct (release_after_hold w w2 samples rest_t rest_b rest0 Ht Erel)
      as (B2 & _ & _ & Md & color & O & Ha & Hn).
    wsimpl. split; [reflexivity|]. split; [exact Md|].
    exists samples, rest_t, rest_b, color.
    split; [exact Hb|]. split; [exact B2|]. split; [exact Ht|].
    split; [exact O|]. split; [exact Ha|exact Hn].
Qed.

Lemma X6_press_handled_at_next_poll_witness :
  BUTTON_CHECK_INTERVAL < to_ulong (200 - 0) /\
  checkButton held_button = Some (tt, after_held_button) /\
  button_was_pressed after_held_button = false /\
  run_mode after_held_button = MODE_AUTO.
Proof.
  assert (Hpast : BUTTON_CHECK_INTERVAL < to_ulong (200 - 0))
    by (vm_compute; reflexivity).
  assert (H : checkButton held_button = Some (tt, after_held_button))
    by (vm_compute; reflexivity).
  split; [exact Hpast|]. split; [exact H|].
  pose proof (X6_press_handled_at_next_poll held_button after_held_button 0 200 [300]
                eq_refl eq_refl eq_refl Hpast H) as C.
  split; [exact (proj1 C)|exact (proj1 (proj2 C))].
Defined.

(** X7. The poll returns once the button goes up: with the button down at
    the last poll, a sample of the tilt sensor for every sample that finds
    the button down, a sample that finds it up, a second clock reading, and
    a reading of each sensor if the mode is Autonomous, the call of the
    button monitor returns, having consumed exactly those samples. *)
Theorem X7_poll_returns_on_release (w : World) (last now t : Z) (rest : list Z)
        (samples rest_t : list Z) (rest_b : list bool)
        (Hlast : last_button_check w = Some last)
        (Hwas : button_was_pressed w = true)
        (Hclock : millis_in w = now :: t :: rest)
        (Hpast : BUTTON_CHECK_INTERVAL < to_ulong (now - last))
        (Hbutton : button_in w = repeat false (List.length samples) ++ true :: rest_b)
        (Htilt : tilt_pot_in w = samples ++ rest_t)
        (Hpots : run_mode w = MODE_AUTO -> pan_pot_in w <> [] /\ rest_t <> []) :
  exists w', checkButton w = Some (tt, w') /\
             millis_in w' = rest /\ button_in w' = rest_b /\
             last_button_check w' = Some (to_long t).
Proof.
  rewrite (checkButton_saved w _ Hlast). unfold checkButton_poll.
  erewrite bind_eq by (apply millis_eq; exact Hclock).
  destruct (to_ulong (now - last) >? BUTTON_CHECK_INTERVAL) eqn:E; [|lia].
  set (w1 := set_button_in rest_b
               (set_tilt_pot_in rest_t
                  (set_out (out w ++ List.map hold_call samples)
                     (set_millis_in (t :: rest) w)))).
  assert (Hhold : exists level restb,
             button_in w = level :: restb /\
             checkButton_hold (List.length restb) (negb level) true
               (set_button_in restb (set_millis_in (t :: rest) w)) =
             Some (false, w1)).
  { destruct samples as [|s l].
    - cbn [List.length repeat app] in Hbutton.
      exists true, rest_b. split; [exact Hbutton|].
      rewrite checkButton_hold_skip by reflexivity. cbn [negb].
      apply f_equal, f_equal. apply world_ext; unfold w1; wsimpl; try reflexivity.
      + rewrite Htilt. reflexivity.
      + rewrite app_nil_r. reflexivity.
    - cbn [List.length repeat app] in Hbutton.
      exists false, (repeat false (List.length l) ++ true :: rest_b).
      split; [exact Hbutton|]. cbn [negb].
      rewrite (checkButton_hold_returns (List.length l) (s :: l) rest_t rest_b).
      + apply f_equal, f_equal. apply world_ext; unfold w1; wsimpl; reflexivity.
      + reflexivity.
      + wsimpl. exact Htilt.
      + wsimpl. reflexivity.
      + rewrite length_app, repeat_length. cbn [List.length]. lia. }
  destruct Hhold as (level & restb & Hb & Hhold).
  erewrite bind_eq by (apply digitalRead_BUTTON_eq; wsimpl; exact Hb).
  rewrite bind_gets. wsimpl. rewrite Hwas. rewrite bind_gets. wsimpl.
  erewrite bind_eq by exact Hhold.
  cbn [negb andb when].
  destruct (checkButton_release_returns w1) as (w2 & Erel & Hm2 & Hb2).
  { intros Hm. apply Hpots. exact Hm. }
  erewrite bind_eq by exact Erel.
  erewrite bind_eq by (apply millis_eq; rewrite Hm2; unfold w1; wsimpl; reflexivity).
  rewrite bind_modify, modify_eq.
  eexists. split; [reflexivity|]. wsimpl.
  split; [reflexivity|]. split; [exact Hb2|reflexivity].
Qed.

Lemma X7_poll_returns_on_release_witness :
  BUTTON_CHECK_INTERVAL < to_ulong (200 - 0) /\
  button_in held_button = repeat false (List.length [512; 100]) ++ [true] /\
  exists w', checkButton held_button = Some (tt, w') /\
             millis_in w' = [] /\ button_in w' = [] /\
             last_button_check w' = Some (to_long 300).
Proof.
  assert (Hpast : BUTTON_CHECK_INTERVAL < to_ulong (200 - 0))
    by (vm_compute; reflexivity).
  assert (Hpots : run_mode held_button = MODE_AUTO ->
                  pan_pot_in held_button <> [] /\ @nil Z <> [])
    by (intros Hm; discriminate Hm).
  split; [exact Hpast|]. split; [reflexivity|].
  exact (X7_poll_returns_on_release held_button 0 200 300 [] [512; 100] [] []
           eq_refl eq_refl eq_refl Hpast eq_refl eq_refl Hpots).
Defined.

(** X8. The button monitor is silent unless it handles a release: a call
    either makes no call at all and keeps the mode and the sensor queues,
    or it is the call on the release edge, and then its calls are the laser
    writes of the hold loop followed by the calls of the release, the mode
    has advanced, and one reading of each sensor has been taken if the mode
    left is Autonomous. *)
Theorem X8_monitor_silent_unless_release (w w' : World)
        (H : checkButton w = Some (tt, w')) :
  button_step w w'.
Proof. apply checkButton_shape, H. Qed.

Lemma X8_monitor_silent_unless_release_witness :
  checkButton held_button = Some (tt, after_held_button) /\
  released held_button after_held_button = true /\
  button_step held_button after_held_button.
Proof.
  assert (H : checkButton held_button = Some (tt, after_held_button))
    by (vm_compute; reflexivity).
  split; [exact H|]. split; [reflexivity|].
  exact (X8_monitor_silent_unless_release held_button after_held_button H).
Defined.

(** X9. The status LED follows the mode: if its level agrees with the mode
    (lit exactly in Autonomous mode), it does so after any number of
    passes, whatever happens in them.  Only the release handler writes the
    LED, and it writes it on entering and on leaving Autonomous mode. *)
Theorem X9_status_led_follows_mode (n : nat) (init : bool) (w w' : World)
        (Hstart : status_led init (out w) = (run_mode w =? MODE_AUTO))
        (H : loops n w = Some (tt, w')) :
  status_led init (out w') = (run_mode w' =? MODE_AUTO).
Proof.
  revert n w w' Hstart H.
  apply (loops_invariant
           (fun w => status_led init (out w) = (run_mode w =? MODE_AUTO))).
  - intros w w' Hw E.
    destruct (checkButton_shape w w' E)
      as [(_ & O & Md & _)|(_ & samples & rest_t & color & _ & O & Md & _)].
    + rewrite O, Md. exact Hw.
    + rewrite O, Md, status_led_app, status_led_app.
      rewrite (status_led_quiet _ (List.map hold_call samples))
        by (apply hold_calls_Forall, Forall_forall; reflexivity).
      rewrite status_led_release, Hw. unfold next_mode.
      destruct (run_mode w =? MODE_NORMAL) eqn:E0; [reflexivity|].
      destruct (run_mode w =? MODE_AUTO) eqn:E1; [reflexivity|].
      destruct (run_mode w =? MODE_LED) eqn:E2; [reflexivity|].
      symmetry. exact E1.
  - intros w w' Hw Hm E.
    destruct (runNormalMode_calls w tt w' E) as (evs & O & F).
    rewrite (runNormalMode_keeps_mode w w' E), O, status_led_app, Hw.
    apply status_led_quiet. eapply Forall_impl; [|exact F].
    intros e He. destruct e; try reflexivity; contradiction.
  - intros w w' Hw Hm E.
    destruct (runAutoMode_calls w tt w' E) as (evs & O & F).
    rewrite (runAutoMode_keeps_mode w w' E), O, status_led_app, Hw.
    apply status_led_quiet. eapply Forall_impl; [|exact F].
    intros e He. destruct e; try reflexivity; contradiction.
  - intros w w' Hw Hm E.
    destruct (runLEDMode_calls w tt w' E) as (evs & O & F).
    rewrite (runLEDMode_keeps_mode w w' E), O, status_led_app, Hw.
    apply status_led_quiet. eapply Forall_impl; [|exact F].
    intros e He. destruct e; try reflexivity; contradiction.
Qed.

Lemma X9_status_led_follows_mode_witness :
  status_led true (out booted_three_presses) =
    (run_mode booted_three_presses =? MODE_AUTO) /\
  loops 7 booted_three_presses = Some (tt, after_booted_three_presses) /\
  status_led true (out after_booted_three_presses) = false.
Proof.
  assert (Hstart : status_led true (out booted_three_presses) =
                   (run_mode booted_three_presses =? MODE_AUTO))
    by reflexivity.
  assert (H : loops 7 booted_three_presses = Some (tt, after_booted_three_presses))
    by (vm_compute; reflexivity).
  split; [exact Hstart|]. split; [exact H|].
  rewrite (X9_status_led_follows_mode 7 true booted_three_presses
             after_booted_three_presses Hstart H).
  vm_compute. reflexivity.
Defined.

(** X10. The light ring follows the mode: if the ring is dark outside
    Ambient mode and of one colour in Ambient mode, it is so after any
    number of passes.  Leaving Autonomous mode wipes the ring with the
    snapshot colour, every pass of Ambient mode repaints it, leaving
    Ambient mode wipes it dark, and nothing else addresses it. *)
Theorem X10_ring_follows_mode (n : nat) (r0 : Ring) (w w' : World)
        (Hstart : ring_matches_mode (ring_after r0 (out w)) (run_mode w))
        (H : loops n w = Some (tt, w')) :
  ring_matches_mode (ring_after r0 (out w')) (run_mode w').
Proof.
  revert n w w' Hstart H.
  apply (loops_invariant
           (fun w => ring_matches_mode (ring_after r0 (out w)) (run_mode w))).
  - intros w w' Hw E.
    destruct (checkButton_shape w w' E)
      as [(_ & O & Md & _)|(_ & samples & rest_t & color & _ & O & Md & Ha & _)].
    + rewrite O, Md. exact Hw.
    + rewrite O, Md, ring_after_app, ring_after_app.
      rewrite (ring_after_quiet _ (List.map hold_call samples))
        by (apply hold_calls_Forall, Forall_forall; reflexivity).
      destruct (ring_after_release (ring_after r0 (out w)) (run_mode w) color)
        as (Hauto & Hled & Hother).
      unfold ring_matches_mode, next_mode in *.
      destruct (run_mode w =? MODE_NORMAL) eqn:E0.
      * apply Z.eqb_eq in E0. rewrite Hother by (rewrite E0; discriminate).
        rewrite E0 in Hw. exact Hw.
      * destruct (run_mode w =? MODE_AUTO) eqn:E1.
        { apply Z.eqb_eq in E1. destruct (Ha E1) as (p & ps & t & ts & _ & _ & -> & _).
          change (MODE_LED =? MODE_LED) with true. cbv iota.
          exists p, t. apply Hauto, E1. }
        destruct (run_mode w =? MODE_LED) eqn:E2.
        { apply Z.eqb_eq in E2. change (MODE_NORMAL =? MODE_LED) with false.
          cbv iota. apply Hled, E2. }
        apply Z.eqb_neq in E1, E2. rewrite Hother by assumption.
        apply Z.eqb_neq in E2. rewrite E2. exact Hw.
  - intros w w' Hw Hm E.
    destruct (runNormalMode_calls w tt w' E) as (evs & O & F).
    rewrite (runNormalMode_keeps_mode w w' E), O, ring_after_app.
    rewrite ring_after_quiet; [exact Hw|].
    eapply Forall_impl; [|exact F].
    intros e He. destruct e; try reflexivity; contradiction.
  - intros w w' Hw Hm E.
    destruct (runAutoMode_calls w tt w' E) as (evs & O & F).
    rewrite (runAutoMode_keeps_mode w w' E), O, ring_after_app.
    rewrite ring_after_quiet; [exact Hw|].
    eapply Forall_impl; [|exact F].
    intros e He. destruct e; try reflexivity; contradiction.
  - intros w w' Hw Hm E. revert E. generalize tt at 1. intros u E. revert u w' E.
    change (wp runLEDMode
              (fun _ w' => ring_matches_mode (ring_after r0 (out w')) (run_mode w')) w).
    unfold runLEDMode. wp_go.
    unfold ring_matches_mode. rewrite Hm.
    change (MODE_LED =? MODE_LED) with true. cbv iota.
    exists v, v0. repeat rewrite <- app_assoc. rewrite ring_after_app.
    apply (paint_uniform _ _ [delay 10]). constructor; [reflexivity|constructor].
Qed.

Lemma X10_ring_follows_mode_witness :
  ring_matches_mode (ring_after dark_ring (out booted_three_presses))
                    (run_mode booted_three_presses) /\
  loops 7 booted_three_presses = Some (tt, after_booted_three_presses) /\
  uniform (Color_rgb 0 0 0) (ring_after dark_ring (out after_booted_three_presses)).
Proof.
  assert (Hstart : ring_matches_mode
                     (ring_after dark_ring (out booted_three_presses))
                     (run_mode booted_three_presses)).
  { intros i Hi. split; reflexivity. }
  assert (H : loops 7 booted_three_presses = Some (tt, after_booted_three_presses))
    by (vm_compute; reflexivity).
  split; [exact Hstart|]. split; [exact H|].
  pose proof (X10_ring_follows_mode 7 dark_ring booted_three_presses
                after_booted_three_presses Hstart H) as C.
  assert (Hm : run_mode after_booted_three_presses = MODE_NORMAL)
    by (vm_compute; reflexivity).
  unfold ring_matches_mode in C. rewrite Hm in C. exact C.
Defined.

(** X11. From a valid mode the [default:] branch of the release handler is
    never taken: over any number of passes the mode stays one of the three
    of the enumeration and the line that branch logs is never written. *)
Theorem X11_default_branch_unreachable (n : nat) (w w' : World)
        (Hmode : valid_mode (run_mode w))
        (H : loops n w = Some (tt, w')) :
  valid_mode (run_mode w') /\
  exists evs, out w' = out w ++ evs /\
              Forall (fun e => is_invalid_line e = false) evs.
Proof.
  rename w into w0.
  refine (loops_invariant
            (fun w => valid_mode (run_mode w) /\
                      only (fun e => is_invalid_line e = false) w0 w)
            _ _ _ _ n w0 w' (conj Hmode (only_refl _ w0)) H).
  - intros w w2 [Hv Ho] E.
    destruct (checkButton_shape w w2 E)
      as [(_ & O & Md & _)|(_ & samples & rest_t & color & _ & O & Md & _)].
    + split; [rewrite Md; exact Hv|].
      apply (only_trans _ _ _ _ Ho). apply only_silent, O.
    + split; [rewrite Md; apply next_mode_valid, Hv|].
      apply (only_trans _ _ _ _ Ho). eexists. split; [exact O|].
      apply Forall_app_intro; [|apply release_calls_valid, Hv].
      apply hold_calls_Forall. apply Forall_forall. reflexivity.
  - intros w w2 [Hv Ho] Hm E.
    split; [rewrite (runNormalMode_keeps_mode w w2 E); exact Hv|].
    apply (only_trans _ _ _ _ Ho).
    assert (Hs : stable (only (fun e => is_invalid_line e = false)) runNormalMode)
      by (unfold_sketch; only_go).
    exact (Hs w tt w2 E).
  - intros w w2 [Hv Ho] Hm E.
    split; [rewrite (runAutoMode_keeps_mode w w2 E); exact Hv|].
    apply (only_trans _ _ _ _ Ho).
    eapply only_weaken; [|exact (runAutoMode_calls w tt w2 E)].
    intros e He. destruct e; try reflexivity; contradiction.
  - intros w w2 [Hv Ho] Hm E.
    split; [rewrite (runLEDMode_keeps_mode w w2 E); exact Hv|].
    apply (only_trans _ _ _ _ Ho).
    eapply only_weaken; [|exact (runLEDMode_calls w tt w2 E)].
    intros e He. destruct e; try reflexivity; contradiction.
Qed.

Lemma X11_default_branch_unreachable_witness :
  valid_mode (run_mode three_presses) /\
  loops 7 three_presses = Some (tt, after_three_presses) /\
  valid_mode (run_mode after_three_presses).
Proof.
  assert (Hmode : valid_mode (run_mode three_presses)) by (left; reflexivity).
  assert (H : loops 7 three_presses = Some (tt, after_three_presses))
    by (vm_compute; reflexivity).
  split; [exact Hmode|]. split; [exact H|].
  exact (proj1 (X11_default_branch_unreachable 7 three_presses after_three_presses
                  Hmode H)).
Defined.

(** X12. On valid readings every call of any number of passes keeps the
    bounds of the hardware: only the status LED is written digitally, only
    the laser by PWM and with a duty cycle of 0..255, only the cells 0..15
    of the ring are addressed, and every pause is of 10, 40 or 50 ms. *)
Theorem X12_calls_within_bounds (n : nat) (w w' : World)
        (Hv : valid_inputs w)
        (H : loops n w = Some (tt, w')) :
  exists evs, out w' = out w ++ evs /\ Forall pass_call evs.
Proof.
  rename w into w0.
  refine (proj2 (loops_invariant
            (fun w => valid_inputs w /\ only pass_call w0 w)
            _ _ _ _ n w0 w' (conj Hv (only_refl _ w0)) H)).
  - intros w w2 [Hw Ho] E.
    destruct (checkButton_effect w tt w2 E) as (_ & V & _).
    split; [exact (V Hw)|]. apply (only_trans _ _ _ _ Ho).
    destruct (checkButton_shape w w2 E)
      as [(_ & O & _)|(_ & samples & rest_t & color & Ht & O & _)].
    + apply only_silent, O.
    + eexists. split; [exact O|].
      apply Forall_app_intro; [|apply release_calls_bounds].
      apply hold_calls_Forall. destruct Hw as (_ & Htilt & _).
      rewrite Ht in Htilt. apply Forall_app in Htilt. destruct Htilt as [Hs _].
      eapply Forall_impl; [|exact Hs].
      intros v Hr. split; [reflexivity|]. apply hold_brightness_range, Hr.
  - intros w w2 [Hw Ho] Hm E.
    destruct (runNormalMode_effect w tt w2 E) as (_ & V & _).
    split; [exact (V Hw)|]. apply (only_trans _ _ _ _ Ho).
    eapply only_weaken; [|exact (runNormalMode_calls w tt w2 E)].
    intros e He. destruct e; cbn in *; auto; contradiction.
  - intros w w2 [Hw Ho] Hm E.
    destruct (runAutoMode_effect w tt w2 E) as (_ & V & _).
    split; [exact (V Hw)|]. apply (only_trans _ _ _ _ Ho).
    eapply only_weaken; [|exact (runAutoMode_calls w tt w2 E)].
    intros e He. destruct e; cbn in *; auto; contradiction.
  - intros w w2 [Hw Ho] Hm E.
    destruct (runLEDMode_effect w tt w2 E) as (_ & V & _).
    split; [exact (V Hw)|]. apply (only_trans _ _ _ _ Ho).
    eapply only_weaken; [|exact (runLEDMode_calls w tt w2 E)].
    intros e He. destruct e; cbn in *; auto; contradiction.
Qed.

Lemma X12_calls_within_bounds_witness :
  valid_inputs three_presses /\
  loops 7 three_presses = Some (tt, after_three_presses) /\
  Forall pass_call (out after_three_presses).
Proof.
  assert (Hv : valid_inputs three_presses).
  { unfold valid_inputs, three_presses, power_on. wsimpl.
    repeat split;
      repeat (apply Forall_cons;
              [unfold reading_ok, valid_raw, Arduino.RANDOM_MAX; lia|]);
      apply Forall_nil. }
  assert (H : loops 7 three_presses = Some (tt, after_three_presses))
    by (vm_compute; reflexivity).
  split; [exact Hv|]. split; [exact H|].
  destruct (X12_calls_within_bounds 7 three_presses after_three_presses Hv H)
    as (evs & O & F).
  change (out three_presses) with (@nil Event) in O. rewrite O. exact F.
Defined.

(** X13. The remembered angles of [updateServos] are assigned nowhere in
    the sketch: they hold the value they start with after any number of
    passes, in whatever modes. *)
Theorem X13_remembered_angles_never_assigned (n : nat) (w w' : World)
        (H : loops n w = Some (tt, w')) :
  old_pan_pos w' = old_pan_pos w /\ old_tilt_pos w' = old_tilt_pos w.
Proof.
  split.
  - exact (loops_stable (untouched old_pan_pos) (untouched_refl _)
             (untouched_trans _) loop_keeps_old_pan n w tt w' H).
  - exact (loops_stable (untouched old_tilt_pos) (untouched_refl _)
             (untouched_trans _) loop_keeps_old_tilt n w tt w' H).
Qed.

Lemma X13_remembered_angles_never_assigned_witness :
  loops 7 three_presses = Some (tt, after_three_presses) /\
  old_pan_pos after_three_presses = 0 /\ old_tilt_pos after_three_presses = 0.
Proof.
  assert (H : loops 7 three_presses = Some (tt, after_three_presses))
    by (vm_compute; reflexivity).
  split; [exact H|].
  exact (X13_remembered_angles_never_assigned 7 three_presses after_three_presses H).
Defined.

(** X14. In Manual mode the servos follow the sensors on every pass: from
    the remembered angles at zero and on valid readings, as long as no
    release is handled, [n] passes take [n] readings of each sensor and
    write the angle of each one to its servo, in order, whether or not the
    angle has changed. *)
Theorem X14_manual_follows_sensors (n : nat) (w w' : World)
        (Hmode : run_mode w = MODE_NORMAL)
        (Hop : old_pan_pos w = 0) (Hot : old_tilt_pos w = 0)
        (Hv : valid_inputs w)
        (H : loops n w = Some (tt, w'))
        (Hquiet : releases (calls_since w w') = 0%nat) :
  exists ps ts,
    pan_pot_in w = ps ++ pan_pot_in w' /\ tilt_pot_in w = ts ++ tilt_pot_in w' /\
    List.length ps = n /\ List.length ts = n /\
    pan_writes (calls_since w w') = List.map manual_pan ps /\
    tilt_writes (calls_since w w') = List.map manual_tilt ts.
Proof.
  revert w Hmode Hop Hot Hv H Hquiet.
  induction n as [|n IH]; intros w Hmode Hop Hot Hv H Hquiet; cbn [loops] in H.
  - inversion H; subst. exists [], [].
    unfold calls_since. rewrite skipn_all. repeat split.
  - unfold bind in H. destruct (loop w) as [[[] w1]|] eqn:El; [|discriminate].
    destruct (loop_effect w tt w1 El) as (_ & V1 & e1 & O1 & _).
    destruct (loops_effect n w1 tt w' H) as (_ & _ & e2 & O2 & _).
    assert (Ecs : calls_since w w' = e1 ++ e2)
      by (apply calls_since_app; rewrite O2, O1, app_assoc; reflexivity).
    rewrite Ecs, releases_app in Hquiet.
    assert (R1 : releases e1 = 0%nat) by lia.
    assert (R2 : releases e2 = 0%nat) by lia.
    pose proof (loop_keeps_old_pan w tt w1 El) as Hop1.
    pose proof (loop_keeps_old_tilt w tt w1 El) as Hot1.
    unfold untouched in Hop1, Hot1.
    destruct (loop_cases w w1 El) as (w0 & Eb & Hcase).
    destruct (checkButton_shape w w0 Eb)
      as [(_ & O & Md & P & T)|(_ & samples & rest_t & color & _ & O & _)].
    2:{ exfalso.
        assert (exists em, out w1 = out w0 ++ em) as [em Om].
        { destruct Hcase as [[_ Er]|[[_ Er]|[[_ Er]|[_ ->]]]].
          - destruct (runNormalMode_effect w0 tt w1 Er) as (_ & _ & em & Om & _).
            exists em. exact Om.
          - destruct (runAutoMode_effect w0 tt w1 Er) as (_ & _ & em & Om & _).
            exists em. exact Om.
          - destruct (runLEDMode_effect w0 tt w1 Er) as (_ & _ & em & Om & _).
            exists em. exact Om.
          - exists []. rewrite app_nil_r. reflexivity. }
        rewrite O in Om. rewrite O1 in Om.
        repeat rewrite <- app_assoc in Om. apply app_inv_head in Om.
        rewrite Om in R1. rewrite releases_app in R1.
        destruct (hold_calls_quiet samples) as [Rh _]. rewrite Rh in R1.
        exact (releases_release_calls _ _ _ R1). }
    rewrite Hmode in Md.
    destruct Hcase as [[_ Er]|[[Hm _]|[[Hm _]|[Hm _]]]];
      [|rewrite Md in Hm; discriminate|rewrite Md in Hm; discriminate
       |exfalso; apply Hm; left; exact Md].
    assert (V0 : valid_inputs w0).
    { destruct (checkButton_effect w tt w0 Eb) as (_ & V & _). exact (V Hv). }
    destruct (checkButton_keeps_old w w0 Eb) as [Hop0 Hot0].
    rewrite Hop in Hop0. rewrite Hot in Hot0.
    destruct (runNormalMode_writes w0 w1 Hop0 Hot0 V0 Er)
      as (p & t & em & Pp & Tt & Om & _ & Wp & Wt & _).
    assert (Ee1 : e1 = em).
    { rewrite O in Om. rewrite O1 in Om. apply app_inv_head in Om. exact Om. }
    subst em.
    destruct (IH w1) as (ps & ts & Pr & Tr & Lp & Lt & Wps & Wts).
    + rewrite (runNormalMode_keeps_mode w0 w1 Er). exact Md.
    + rewrite Hop1. exact Hop.
    + rewrite Hot1. exact Hot.
    + exact (V1 Hv).
    + exact H.
    + rewrite (calls_since_app w1 w' e2 O2). exact R2.
    + rewrite (calls_since_app w1 w' e2 O2) in Wps, Wts.
      exists (p :: ps), (t :: ts).
      split; [rewrite <- P, Pp, Pr; reflexivity|].
      split; [rewrite <- T, Tt, Tr; reflexivity|].
      split; [cbn [List.length]; rewrite Lp; reflexivity|].
      split; [cbn [List.length]; rewrite Lt; reflexivity|].
      rewrite Ecs, pan_writes_app, tilt_writes_app, Wp, Wt, Wps, Wts.
      split; reflexivity.
Qed.

Lemma X14_manual_follows_sensors_witness :
  valid_inputs two_manual_passes /\
  loops 2 two_manual_passes = Some (tt, after_two_manual_passes) /\
  releases (calls_since two_manual_passes after_two_manual_passes) = 0%nat /\
  pan_writes (calls_since two_manual_passes after_two_manual_passes) = [100; 138] /\
  tilt_writes (calls_since two_manual_passes after_two_manual_passes) = [20; 7].
Proof.
  assert (Hv : valid_inputs two_manual_passes).
  { unfold valid_inputs, two_manual_passes, power_on. wsimpl.
    repeat split;
      repeat (apply Forall_cons; [unfold reading_ok; lia|]); apply Forall_nil. }
  assert (H : loops 2 two_manual_passes = Some (tt, after_two_manual_passes))
    by (vm_compute; reflexivity).
  assert (Hq : releases (calls_since two_manual_passes after_two_manual_passes) = 0%nat)
    by (vm_compute; reflexivity).
  split; [exact Hv|]. split; [exact H|]. split; [exact Hq|].
  destruct (X14_manual_follows_sensors 2 two_manual_passes after_two_manual_passes
              eq_refl eq_refl eq_refl Hv H Hq)
    as (ps & ts & _ & _ & _ & _ & Wp & Wt).
  split; vm_compute; reflexivity.
Defined.

(** X15. The time a pass spends in [delay]: 50 ms in Manual mode, 10 ms in
    Ambient mode, nothing in Autonomous mode, and 640 ms more, one pause of
    40 ms per cell, when the button monitor has wiped the ring on leaving
    Autonomous or Ambient mode. *)
Theorem X15_pass_pauses (w w' : World)
        (H : loop w = Some (tt, w')) :
  pause (calls_since w w') =
  (if (run_mode w' =? run_mode w) || (run_mode w =? MODE_NORMAL)
   then 0 else LED_COUNT * 40) +
  (if run_mode w' =? MODE_NORMAL then 50
   else if run_mode w' =? MODE_LED then 10 else 0).
Proof.
  destruct (loop_cases w w' H) as (w0 & Eb & Hcase).
  assert (Hb : pause (calls_since w w0) =
               if (run_mode w0 =? run_mode w) || (run_mode w =? MODE_NORMAL)
               then 0 else LED_COUNT * 40).
  { destruct (checkButton_shape w w0 Eb)
      as [(_ & O & Md & _)|(_ & samples & rest_t & color & _ & O & Md & _)].
    - unfold calls_since. rewrite O, skipn_all, Md, Z.eqb_refl. reflexivity.
    - rewrite (calls_since_app w w0 _ O), pause_app, pause_hold, pause_release, Md.
      unfold next_mode.
      destruct (run_mode w =? MODE_NORMAL) eqn:E0.
      { apply Z.eqb_eq in E0. rewrite E0. reflexivity. }
      destruct (run_mode w =? MODE_AUTO) eqn:E1.
      { apply Z.eqb_eq in E1. rewrite E1. reflexivity. }
      destruct (run_mode w =? MODE_LED) eqn:E2.
      { apply Z.eqb_eq in E2. rewrite E2. reflexivity. }
      rewrite Z.eqb_refl. reflexivity. }
  destruct (checkButton_effect w tt w0 Eb) as (_ & _ & eb & Ob & _).
  assert (Hsplit : forall em, out w' = out w0 ++ em ->
                              calls_since w w' = calls_since w w0 ++ calls_since w0 w').
  { intros em Om. rewrite (calls_since_app w w0 eb Ob), (calls_since_app w0 w' em Om).
    apply calls_since_app. rewrite Om, Ob, app_assoc. reflexivity. }
  destruct Hcase as [[Hm Er]|[[Hm Er]|[[Hm Er]|[Hm ->]]]].
  - destruct (runNormalMode_effect w0 tt w' Er) as (_ & _ & em & Om & _).
    rewrite (Hsplit em Om), pause_app, Hb, (runNormalMode_pause w0 w' Er),
      (runNormalMode_keeps_mode w0 w' Er), Hm.
    reflexivity.
  - destruct (runAutoMode_effect w0 tt w' Er) as (_ & _ & em & Om & _).
    rewrite (Hsplit em Om), pause_app, Hb, (runAutoMode_pause w0 w' Er),
      (runAutoMode_keeps_mode w0 w' Er), Hm.
    reflexivity.
  - destruct (runLEDMode_effect w0 tt w' Er) as (_ & _ & em & Om & _).
    rewrite (Hsplit em Om), pause_app, Hb, (runLEDMode_pause w0 w' Er),
      (runLEDMode_keeps_mode w0 w' Er), Hm.
    reflexivity.
  - rewrite Hb. unfold valid_mode in Hm.
    destruct (run_mode w0 =? MODE_NORMAL) eqn:E0; [apply Z.eqb_eq in E0; tauto|].
    destruct (run_mode w0 =? MODE_LED) eqn:E2; [apply Z.eqb_eq in E2; tauto|].
    lia.
Qed.

Lemma X15_pass_pauses_witness :
  loop two_manual_passes = Some (tt, after_one_manual_pass) /\
  pause (calls_since two_manual_passes after_one_manual_pass) = 50.
Proof.
  assert (H : loop two_manual_passes = Some (tt, after_one_manual_pass))
    by (vm_compute; reflexivity).
  split; [exact H|].
  rewrite (X15_pass_pauses two_manual_passes after_one_manual_pass H).
  vm_compute. reflexivity.
Defined.

(** X16. Each part of a pass keeps to its own devices.  Manual mode writes
    the servos and the log and pauses 50 ms; Autonomous mode writes the
    servos and the log and never pauses; Ambient mode addresses the ring
    and pauses 10 ms; the button monitor writes the log, the status LED,
    the laser and the ring, and never a servo. *)
Theorem X16_devices_by_part :
  stable (only manual_call) runNormalMode /\
  stable (only auto_call) runAutoMode /\
  stable (only ambient_call) runLEDMode /\
  stable (only button_call) checkButton.
Proof.
  split; [unfold_sketch; only_go|].
  split; [unfold_sketch; only_go|].
  split; unfold_sketch; only_go.
Qed.

(** X17. Autonomous mode assigns no global and reads neither sensor nor
    the button: the targets it draws live in locals that hide [pan_pos]
    and [tilt_pos], so the globals keep the angles of the last pass of
    Manual mode while the servos move. *)
Theorem X17_runAutoMode_frame (w w' : World)
        (H : runAutoMode w = Some (tt, w')) :
  pan_pos w' = pan_pos w /\ tilt_pos w' = tilt_pos w /\
  run_mode w' = run_mode w /\ laser_brightness w' = laser_brightness w /\
  button_was_pressed w' = button_was_pressed w /\
  last_button_check w' = last_button_check w /\
  button_in w' = button_in w /\
  pan_pot_in w' = pan_pot_in w /\ tilt_pot_in w' = tilt_pot_in w.
Proof.
  assert (H1 : stable (untouched pan_pos) runAutoMode) by (unfold_sketch; untouched_go).
  assert (H2 : stable (untouched tilt_pos) runAutoMode) by (unfold_sketch; untouched_go).
  assert (H3 : stable (untouched run_mode) runAutoMode) by (unfold_sketch; untouched_go).
  assert (H4 : stable (untouched laser_brightness) runAutoMode)
    by (unfold_sketch; untouched_go).
  assert (H5 : stable (untouched button_was_pressed) runAutoMode)
    by (unfold_sketch; untouched_go).
  assert (H6 : stable (untouched last_button_check) runAutoMode)
    by (unfold_sketch; untouched_go).
  assert (H7 : stable (untouched button_in) runAutoMode) by (unfold_sketch; untouched_go).
  assert (H8 : stable (untouched pan_pot_in) runAutoMode) by (unfold_sketch; untouched_go).
  assert (H9 : stable (untouched tilt_pot_in) runAutoMode) by (unfold_sketch; untouched_go).
  repeat split;
    [exact (H1 w tt w' H)|exact (H2 w tt w' H)|exact (H3 w tt w' H)
    |exact (H4 w tt w' H)|exact (H5 w tt w' H)|exact (H6 w tt w' H)
    |exact (H7 w tt w' H)|exact (H8 w tt w' H)|exact (H9 w tt w' H)].
Qed.

Lemma X17_runAutoMode_frame_witness :
  runAutoMode sweep = Some (tt, after_first_move) /\
  pan_pos after_first_move = 0 /\ tilt_pos after_first_move = 0 /\
  pan_writes (out after_first_move) = [47].
Proof.
  assert (H : runAutoMode sweep = Some (tt, after_first_move))
    by (vm_compute; reflexivity).
  split; [exact H|].
  destruct (X17_runAutoMode_frame sweep after_first_move H) as (Hp & Ht & _).
  split; [exact Hp|]. split; [exact Ht|]. vm_compute. reflexivity.
Defined.

(** X18. The button monitor and Ambient mode leave the servo angles alone,
    draw no random number and do not touch the statics of Autonomous
    mode. *)
Theorem X18_monitor_and_ambient_frame (w w' : World)
        (H : checkButton w = Some (tt, w') \/ runLEDMode w = Some (tt, w')) :
  pan_pos w' = pan_pos w /\ tilt_pos w' = tilt_pos w /\
  auto_statics w' = auto_statics w /\ random_in w' = random_in w.
Proof.
  assert (B1 : stable (untouched pan_pos) checkButton) by (unfold_sketch; untouched_go).
  assert (B2 : stable (untouched tilt_pos) checkButton) by (unfold_sketch; untouched_go).
  assert (B3 : stable (untouched auto_statics) checkButton)
    by (unfold_sketch; untouched_go).
  assert (B4 : stable (untouched random_in) checkButton) by (unfold_sketch; untouched_go).
  assert (L1 : stable (untouched pan_pos) runLEDMode) by (unfold_sketch; untouched_go).
  assert (L2 : stable (untouched tilt_pos) runLEDMode) by (unfold_sketch; untouched_go).
  assert (L3 : stable (untouched auto_statics) runLEDMode)
    by (unfold_sketch; untouched_go).
  assert (L4 : stable (untouched random_in) runLEDMode) by (unfold_sketch; untouched_go).
  destruct H as [H|H].
  - repeat split;
      [exact (B1 w tt w' H)|exact (B2 w tt w' H)|exact (B3 w tt w' H)
      |exact (B4 w tt w' H)].
  - repeat split;
      [exact (L1 w tt w' H)|exact (L2 w tt w' H)|exact (L3 w tt w' H)
      |exact (L4 w tt w' H)].
Qed.

Lemma X18_monitor_and_ambient_frame_witness :
  checkButton held_button = Some (tt, after_held_button) /\
  pan_pos after_held_button = 0 /\ tilt_pos after_held_button = 0 /\
  auto_statics after_held_button = None /\ random_in after_held_button = [].
Proof.
  assert (H : checkButton held_button = Some (tt, after_held_button))
    by (vm_compute; reflexivity).
  split; [exact H|].
  exact (X18_monitor_and_ambient_frame held_button after_held_button (or_introl H)).
Defined.

(** X19. After its first call Autonomous mode moves when, and only when,
    the interval drawn with the last move has elapsed, and then exactly
    once: it makes either no call at all, keeping the time and the interval
    of the last move, or the six calls of one move to a drawn target, with
    the next interval drawn from the range of the cadence in force and the
    time of the move taken from a second reading of the clock. *)
Theorem X19_runAutoMode_moves_when_due (w w' : World) (s : AutoStatics)
        (Hs : auto_statics w = Some s) (Hinv : burst_inv s)
        (Hv : Forall valid_raw (random_in w))
        (H : runAutoMode w = Some (tt, w')) :
  auto_outcome s w w'.
Proof.
  revert H. generalize tt at 1. intros u H. revert u w' H.
  change (wp runAutoMode (fun _ w' => auto_outcome s w w') w).
  unfold runAutoMode. apply wp_bind. unfold runAutoMode_statics.
  apply wp_bind, wp_gets. rewrite Hs. apply wp_ret.
  apply runAutoMode_body_outcome; auto.
Qed.

Lemma X19_runAutoMode_moves_when_due_witness :
  auto_statics after_first_move = Some first_move_statics /\
  burst_inv first_move_statics /\
  runAutoMode after_first_move = Some (tt, after_second_move) /\
  auto_outcome first_move_statics after_first_move after_second_move.
Proof.
  assert (Hs : auto_statics after_first_move = Some first_move_statics)
    by (vm_compute; reflexivity).
  assert (Hinv : burst_inv first_move_statics).
  { unfold burst_inv, ceilings_ok, idle_count, burst_count, burst_ceiling,
      first_move_statics, MIN_RAPID_MOVES, MAX_RAPID_MOVES, MIN_NORMAL_MOVES,
      MAX_NORMAL_MOVES.
    wsimpl. lia. }
  assert (Hv : Forall valid_raw (random_in after_first_move)).
  { assert (Hin : incl (random_in after_first_move) (random_in sweep)).
    { intros r Hr. vm_compute in Hr. vm_compute. tauto. }
    apply Forall_forall. intros r Hr. apply Hin in Hr.
    unfold sweep, power_on in Hr. wsimpl.
    apply in_map_iff in Hr. destruct Hr as (k & <- & Hk). apply in_seq in Hk.
    unfold valid_raw, Arduino.RANDOM_MAX. lia. }
  assert (H : runAutoMode after_first_move = Some (tt, after_second_move))
    by (vm_compute; reflexivity).
  split; [exact Hs|]. split; [exact Hinv|]. split; [exact H|].
  exact (X19_runAutoMode_moves_when_due after_first_move after_second_move
           first_move_statics Hs Hinv Hv H).
Defined.

(** X20. The first call of Autonomous mode always moves, whatever the
    clock reads: the interval starts at zero.  It moves in the normal
    cadence, counts one move and draws the next interval from 1000..3999
    ms. *)
Theorem X20_runAutoMode_first_call_moves (w w' : World)
        (Hfresh : auto_statics w = None)
        (Hv : Forall valid_raw (random_in w))
        (H : runAutoMode w = Some (tt, w')) :
  moves (calls_since w w') = 1 /\
  exists s', auto_statics w' = Some s' /\
             rapid_mode s' = false /\ cur_normal_moves s' = 1 /\
             MIN_NORMAL_INTERVAL <= move_interval s' <= MAX_NORMAL_INTERVAL - 1.
Proof.
  revert H. generalize tt at 1. intros u H. revert u w' H.
  change (wp runAutoMode
            (fun _ w' =>
               moves (calls_since w w') = 1 /\
               exists s', auto_statics w' = Some s' /\
                          rapid_mode s' = false /\ cur_normal_moves s' = 1 /\
                          MIN_NORMAL_INTERVAL <= move_interval s'
                            <= MAX_NORMAL_INTERVAL - 1) w).
  unfold runAutoMode. apply wp_bind. unfold runAutoMode_statics.
  apply wp_bind, wp_gets. rewrite Hfresh.
  apply wp_bind, wp_millis. intros t0 restm Ht0.
  apply wp_bind. unfold MIN_RAPID_MOVES, MAX_RAPID_MOVES.
  apply wp_random; [lia|lia|lia|]. intros q1 rest1 Hq1. wsimpl.
  apply wp_bind. unfold MIN_NORMAL_MOVES, MAX_NORMAL_MOVES.
  apply wp_random; [lia|lia|lia|]. intros q2 rest2 Hq2. wsimpl.
  pose proof (Forall_tail _ _ _ _ Hq1 Hv) as [V1 Vrest1].
  pose proof (Forall_tail _ _ _ _ Hq2 Vrest1) as [V2 Vrest2].
  pose proof (random_upto_range q1 5 V1 ltac:(lia)) as B1.
  pose proof (random_upto_range q2 5 V2 ltac:(lia)) as B2.
  unfold Arduino.random_upto in B1, B2.
  change (15 - 10) with 5. change (8 - 3) with 5.
  rewrite (to_long_small (Z.rem q1 5 + 10)) by lia.
  rewrite (to_long_small (Z.rem q2 5 + 3)) by lia.
  rewrite (to_int_small (Z.rem q1 5 + 10)) by lia.
  rewrite (to_int_small (Z.rem q2 5 + 3)) by lia.
  apply wp_ret.
  set (s0 := mkAuto false (to_long t0) 0 (Z.rem q1 5 + 10) (Z.rem q2 5 + 3) 0 0).
  assert (I0 : burst_inv s0).
  { unfold burst_inv, ceilings_ok, idle_count, burst_count, burst_ceiling, s0,
      MIN_RAPID_MOVES, MAX_RAPID_MOVES, MIN_NORMAL_MOVES, MAX_NORMAL_MOVES.
    wsimpl. lia. }
  assert (Hlt : burst_count s0 < burst_ceiling s0).
  { unfold burst_count, burst_ceiling, s0. wsimpl. lia. }
  apply wp_bind. apply wp_runAutoMode_quota; [exact I0|wsimpl; exact Vrest2| |].
  2:{ intros r rest Hfull. lia. }
  intros _. apply wp_bind.
  apply wp_runAutoMode_move; [exact I0|exact Hlt|wsimpl; exact Vrest2| |].
  - intros now rest Hnow Hidle. exfalso.
    unfold elapsed, s0, to_ulong in Hidle. wsimpl.
    change (0 mod 2 ^ 32) with 0 in Hidle.
    pose proof (Z.mod_pos_bound (now - to_long t0) (2 ^ 32) ltac:(lia)). lia.
  - intros now t restm' r0 r1 r2 restr Hnow Hdue Hr V0 V1' V2' Vr. apply wp_modify.
    split.
    + erewrite calls_since_app by (wsimpl; reflexivity). reflexivity.
    + eexists. wsimpl. split; [reflexivity|].
      pose proof (moved_interval s0 r0 V0) as Hi.
      unfold interval_drawn, moved, s0 in *. wsimpl. repeat split; lia.
Qed.

Lemma X20_runAutoMode_first_call_moves_witness :
  auto_statics sweep = None /\
  runAutoMode sweep = Some (tt, after_first_move) /\
  moves (calls_since sweep after_first_move) = 1.
Proof.
  assert (Hv : Forall valid_raw (random_in sweep)).
  { apply Forall_forall. intros r Hr. unfold sweep, power_on in Hr. wsimpl.
    apply in_map_iff in Hr. destruct Hr as (k & <- & Hk). apply in_seq in Hk.
    unfold valid_raw, Arduino.RANDOM_MAX. lia. }
  assert (H : runAutoMode sweep = Some (tt, after_first_move))
    by (vm_compute; reflexivity).
  split; [reflexivity|]. split; [exact H|].
  exact (proj1 (X20_runAutoMode_first_call_moves sweep after_first_move
                  eq_refl Hv H)).
Defined.

(** X21. The interval test of Autonomous mode measures the time since the
    last move correctly across the roll-over of the 32-bit clock: with the
    last move at clock reading [t0] and the clock read [d] ms later, the
    test passes exactly when [d] has reached the interval. *)
Theorem X21_elapsed_across_rollover (s : AutoStatics) (t0 d : Z)
        (Ht0 : 0 <= t0 < 2 ^ 32) (Hd : 0 <= d < 2 ^ 32)
        (Hlast : last_move s = to_long t0)
        (Hint : 0 <= move_interval s < 2 ^ 32) :
  elapsed s ((t0 + d) mod 2 ^ 32) = (d >=? move_interval s).
Proof.
  unfold elapsed. rewrite Hlast, rollover by assumption.
  unfold to_ulong. rewrite (Z.mod_small (move_interval s)) by exact Hint.
  reflexivity.
Qed.

Lemma X21_elapsed_across_rollover_witness :
  elapsed (mkAuto false (to_long 4294967000) 1000 13 3 0 1)
          ((4294967000 + 1200) mod 2 ^ 32) = true.
Proof.
  rewrite (X21_elapsed_across_rollover
             (mkAuto false (to_long 4294967000) 1000 13 3 0 1) 4294967000 1200).
  - reflexivity.
  - change (2 ^ 32) with 4294967296. lia.
  - change (2 ^ 32) with 4294967296. lia.
  - reflexivity.
  - change (2 ^ 32) with 4294967296. wsimpl. lia.
Defined.


(** X23. [setup] puts the status LED and the ring in the state the mode
    asks for, whatever the LED level was before: from the initial mode and
    a ring whose RAM is clear, the LED is off and the ring shows dark once
    [setup] has run, and the laser has been switched on at the initial
    brightness. *)
Theorem X23_setup_establishes_invariants (noise : Z) (init : bool) (r0 : Ring)
        (w : World)
        (Hmode : run_mode w = MODE_NORMAL) (Hfresh : out w = [])
        (Hram : forall i, in_ram r0 i = Color_rgb 0 0 0) :
  status_led init (out (after_setup noise w))
    = (run_mode (after_setup noise w) =? MODE_AUTO) /\
  ring_matches_mode (ring_after r0 (out (after_setup noise w)))
                    (run_mode (after_setup noise w)) /\
  valid_mode (run_mode (after_setup noise w)) /\
  In (analogWrite LASER (laser_brightness w)) (out (after_setup noise w)).
Proof.
  unfold after_setup. wsimpl. rewrite Hfresh, Hmode.
  cbn [app setup driver_calls flat_map].
  split; [reflexivity|]. split.
  - intros i Hi. cbn. rewrite Hram. split; reflexivity.
  - split; [left; reflexivity|]. cbn. auto.
Qed.

Lemma X23_setup_establishes_invariants_witness :
  run_mode three_presses = MODE_NORMAL /\ out three_presses = [] /\
  status_led true (out booted_three_presses) = false /\
  In (analogWrite LASER 255) (out booted_three_presses).
Proof.
  assert (Hram : forall i, in_ram dark_ring i = Color_rgb 0 0 0)
    by (intros i; reflexivity).
  split; [reflexivity|]. split; [reflexivity|].
  pose proof (X23_setup_establishes_invariants 0 true dark_ring three_presses
                eq_refl eq_refl Hram) as C.
  split; [exact (proj1 C)|exact (proj2 (proj2 (proj2 C)))].
Defined.

(** X24. Every pin a pass writes is one [setup] has configured as an
    output, and the pin of the button is configured as an input with
    pull-up. *)
Theorem X24_pins_configured_before_use (n : nat) (noise : Z) (w0 w w' : World)
        (H : loops n w = Some (tt, w')) :
  In (pinMode BUTTON INPUT_PULLUP) (setup noise w0) /\
  exists evs, out w' = out w ++ evs /\ Forall (pin_configured noise w0) evs.
Proof.
  split; [cbn; auto 12|].
  assert (Hs : stable (only (pin_configured noise w0)) loop)
    by (unfold_sketch; only_go).
  exact (loops_stable _ (only_refl _) (only_trans _) Hs n w tt w' H).
Qed.

Lemma X24_pins_configured_before_use_witness :
  loops 7 booted_three_presses = Some (tt, after_booted_three_presses) /\
  In (pinMode BUTTON INPUT_PULLUP) (setup 0 three_presses).
Proof.
  assert (H : loops 7 booted_three_presses = Some (tt, after_booted_three_presses))
    by (vm_compute; reflexivity).
  split; [exact H|].
  exact (proj1 (X24_pins_configured_before_use 7 0 three_presses
                  booted_three_presses after_booted_three_presses H)).
Defined.

(** X25. The dead band of [updateServos]: on angles of the servo range an
    axis is written exactly when its angle is more than one degree away
    from the remembered one, each axis on its own; the call always returns
    and changes nothing but the record of calls. *)
Theorem X25_updateServos_dead_band (w : World)
        (Hold : -1000 <= old_pan_pos w <= 1000 /\ -1000 <= old_tilt_pos w <= 1000)
        (Hnew : -1000 <= pan_pos w <= 1000 /\ -1000 <= tilt_pos w <= 1000) :
  exists evs,
    updateServos w = Some (tt, set_out (out w ++ evs) w) /\
    pan_writes evs =
      (if 1 <? Z.abs (old_pan_pos w - pan_pos w) then [pan_pos w] else []) /\
    tilt_writes evs =
      (if 1 <? Z.abs (old_tilt_pos w - tilt_pos w) then [tilt_pos w] else []).
Proof.
  destruct Hold as [Hop Hot]. destruct Hnew as [Hp Ht].
  eexists. split; [apply updateServos_eq|].
  rewrite !pan_writes_app, !tilt_writes_app.
  unfold pan_calls, tilt_calls.
  rewrite (exceeds_dead_band_ltb _ _ Hop Hp), (exceeds_dead_band_ltb _ _ Hot Ht).
  destruct (1 <? Z.abs (old_pan_pos w - pan_pos w));
    destruct (1 <? Z.abs (old_tilt_pos w - tilt_pos w)); split; reflexivity.
Qed.

Lemma X25_updateServos_dead_band_witness :
  exists evs,
    updateServos angles_set = Some (tt, set_out (out angles_set ++ evs) angles_set) /\
    pan_writes evs = [100] /\ tilt_writes evs = [20].
Proof.
  apply (X25_updateServos_dead_band angles_set); cbn; lia.
Defined.
